(** * Knowledge Store of the policy/legal assistant: model and properties

    Shallow embedding of [app/backend/knowledge.py] (class [KnowledgeStore])
    and of the [/chat/ask] handler of [app/api.py], together with models of
    the collaborators they drive: the vector index ([app.nlp.embedding]),
    the chunker ([app.nlp.ingest]), the answer synthesizer
    ([app.agent.qa_agent]) and the topic classifier
    ([app.models.classifier]).

    Python dictionaries are finite maps from strings to Python values,
    Python integers are [Z], similarity scores (Python floats) are exact
    rationals [Qc]; an operation that may raise runs in a state-and-exception
    monad whose state survives the exception, as the mutated objects do in
    Python.

    The routes over users and documents of [app/api.py], the authentication
    of [app/backend/auth.py], the tables of [app/backend/models.py] and the
    report of [app/utils/report.py] follow, with the database session as
    the lists of its rows. *)

From Stdlib Require Import ZArith QArith Qcanon Ascii String List Lia.
From stdpp Require Import base option list sorting gmap strings pretty.

Local Open Scope string_scope.
Local Open Scope Z_scope.
Local Open Scope list_scope.

(** ** Python values, exceptions and the state-and-exception monad *)

Module Py.

Inductive value : Type :=
| VStr (s : string)
| VInt (n : Z)
| VFloat (x : Qc).

(** [hit.get("text", "")] and friends: a dictionary read with a default. *)
Definition get (d : gmap string value) (k : string) (dflt : value) : value :=
  default dflt (d !! k).

(** [d.setdefault(k, v)]: writes only where the key is absent. *)
Definition setdefault (k : string) (v : value) (d : gmap string value)
  : gmap string value :=
  match d !! k with
  | Some _ => d
  | None => <[k := v]> d
  end.

Inductive exn : Type :=
| ValueError
| KeyError (k : string)
| TypeError
| IndexError
| AttributeError
| ZeroDivisionError
| DimensionMismatch
| IndexLoadFailure
| UnsupportedFormat
| HTTPException (status_code : Z) (detail : string).

Inductive result (A : Type) : Type :=
| Ok (a : A)
| Raise (e : exn).
Global Arguments Ok {A} a.
Global Arguments Raise {A} e.

(** A computation over a mutable state [S]: the state is returned in both
    outcomes, so that whatever was written before an exception stays
    written. *)
Definition M (S A : Type) : Type := S → result A * S.

Definition ret {S A} (a : A) : M S A := λ s, (Ok a, s).
Definition raise {S A} (e : exn) : M S A := λ s, (Raise e, s).
Definition bind {S A B} (c : M S A) (k : A → M S B) : M S B :=
  λ s, match c s with
       | (Ok a, s') => k a s'
       | (Raise e, s') => (Raise e, s')
       end.
Definition gets {S A} (f : S → A) : M S A := λ s, (Ok (f s), s).
Definition modify {S} (f : S → S) : M S unit := λ s, (Ok tt, f s).
Definition lift {S A} (r : result A) : M S A := λ s, (r, s).

(** A comprehension whose element expression may raise: it stops at the
    first exception. *)
Fixpoint traverse {A B} (f : A → result B) (l : list A) : result (list B) :=
  match l with
  | [] => Ok []
  | x :: l' =>
      match f x with
      | Raise e => Raise e
      | Ok y =>
          match traverse f l' with
          | Raise e => Raise e
          | Ok ys => Ok (y :: ys)
          end
      end
  end.

(** [d[k]] *)
Definition getitem (d : gmap string value) (k : string) : result value :=
  match d !! k with
  | Some v => Ok v
  | None => Raise (KeyError k)
  end.

Definition as_str (v : value) : result string :=
  match v with
  | VStr s => Ok s
  | _ => Raise TypeError
  end.

(** [sep.join(items)]: only strings can be joined. *)
Definition str_join (sep : string) (items : list value) : result string :=
  match traverse as_str items with
  | Ok strs => Ok (String.concat sep strs)
  | Raise e => Raise e
  end.

End Py.

Import Py.

Notation "x <- c ;; k" := (Py.bind c (λ x, k))
  (at level 100, c at next level, right associativity, only parsing).
Notation "c ;;; k" := (Py.bind c (λ _, k))
  (at level 100, right associativity, only parsing).

(** ** The vector index *)

Module VectorIndex.

(** A [pydict] is one metadata record; a [vector] one embedding. *)
Abbreviation pydict := (gmap string Py.value).
Abbreviation vector := (list Qc).

(** Modelled from the spec: the class [VectorIndex] of [app.nlp.embedding]
    is not among the sources.  Its in-memory structure is the pair of the
    embedding vectors and the metadata records (section 3, Index Record). *)
Record t : Type := mk {
  dim : nat;
  embeddings : list vector;
  metadata : list pydict;
}.

(** Modelled from the spec: what the storage directory of an index holds
    (section 4.2, [save]/[load]): nothing, something that cannot be read
    back, or a serialised embedding matrix and metadata list. *)
Inductive storage : Type :=
| Missing
| Unreadable
| Stored (vecs : list vector) (metas : list pydict).

(** [VectorIndex(dim=..., storage_dir=...)]: a fresh index holds nothing. *)
Definition new (d : nat) : t := mk d [] [].

(** Forgetting every record, as a failed [load] does. *)
Definition reset (idx : t) : t := new (dim idx).

Definition size (idx : t) : nat := length (metadata idx).

(** Structural consistency: one vector per metadata record. *)
Definition consistent (idx : t) : Prop :=
  length (embeddings idx) = length (metadata idx).

Section Ops.
(** [embed] and [similarity] are the external embedding function and
    the similarity measure (section 6). *)
Variable embed : string → vector.
Variable similarity : vector → vector → Qc.

Definition has_dim (d : nat) (v : vector) : bool := Nat.eqb (length v) d.

(** Modelled from the spec: the record kept for a text is the mapping
    derived from its chunk (section 3), that is the metadata handed in
    together with the text itself. *)
Definition stored_record (text : string) (metadata : pydict) : pydict :=
  <["text" := VStr text]> metadata.

(** Modelled from the spec: [add_texts(texts, metadatas)] (section 4.2).
    It requires as many metadata records as texts, embeds every text,
    fails with [DimensionMismatch] when a vector has not [dim]
    components, and only then appends the vectors and the records. *)
Definition add_texts (texts : list string) (metadatas : list pydict)
  : Py.M t unit :=
  if negb (Nat.eqb (length texts) (length metadatas)) then
    Py.raise Py.ValueError
  else
    let vecs := embed <$> texts in
    d <- Py.gets dim ;;
    if negb (forallb (has_dim d) vecs) then Py.raise Py.DimensionMismatch
    else Py.modify (λ idx,
           mk d (embeddings idx ++ vecs)
                (metadata idx ++ zip_with stored_record texts metadatas)).

(** One candidate of a search: insertion position, score and record. *)
Record candidate : Type := cand {
  position : nat;
  score : Qc;
  record : pydict;
}.

(** [a] ranks before [b]: higher score first, and on equal scores the
    record inserted earlier first. *)
Definition ranks_before (a b : candidate) : Prop :=
  (score b < score a)%Qc ∨ (score a = score b ∧ (position a ≤ position b)%nat).

Global Instance ranks_before_dec : RelDecision ranks_before.
Proof. intros a b. unfold ranks_before. apply _. Defined.

Definition candidates (idx : t) (query : string) : list candidate :=
  imap (λ i vm, cand i (similarity (embed query) vm.1) vm.2)
       (zip (embeddings idx) (metadata idx)).

Definition ranked (idx : t) (query : string) : list candidate :=
  merge_sort ranks_before (candidates idx query).

Definition top (idx : t) (query : string) (k : Z) : list candidate :=
  take (Z.to_nat k) (ranked idx query).

(** Modelled from the spec: [search(query, k)] (section 4.2) returns the
    [k] nearest records as [(score, metadata)] pairs, best first, ties
    in insertion order; all of them when there are fewer than [k]. *)
Definition search (query : string) (k : Z) : Py.M t (list (Qc * pydict)) :=
  Py.gets (λ idx, (λ c, (score c, record c)) <$> top idx query k).

(** Modelled from the spec: [is_empty()] (section 4.2). *)
Definition is_empty : Py.M t bool :=
  Py.gets (λ idx, Nat.eqb (size idx) 0).

(** What can be read back: as many vectors as records, each of them
    with [dim] components. *)
Definition readable (d : nat) (vecs : list vector) (metas : list pydict)
  : bool :=
  Nat.eqb (length vecs) (length metas) && forallb (has_dim d) vecs.

(** Modelled from the spec: [load()] (section 4.2, section 7).  A store
    that is missing or cannot be read back leaves the index empty and
    signals [IndexLoadFailure], which the caller logs. *)
Definition load (dir : storage) : Py.M t unit :=
  d <- Py.gets dim ;;
  match dir with
  | Stored vecs metas =>
      if readable d vecs metas then Py.modify (λ _, mk d vecs metas)
      else (Py.modify reset ;;; Py.raise Py.IndexLoadFailure)
  | Missing | Unreadable =>
      (Py.modify reset ;;; Py.raise Py.IndexLoadFailure)
  end.

(** The stores [load] cannot read back into an index of dimension [d]. *)
Definition load_fails (d : nat) (dir : storage) : bool :=
  match dir with
  | Stored vecs metas => negb (readable d vecs metas)
  | Missing | Unreadable => true
  end.

(** Modelled from the spec: [save()] (section 4.2) serialises the full
    embedding matrix and metadata list. *)
Definition save (idx : t) : storage :=
  Stored (embeddings idx) (metadata idx).

(** The life of an index: the object in memory, the directory it saves
    to and loads from, and the operations applied to them, whatever
    their outcome. *)
Inductive op : Type :=
| AddTexts (texts : list string) (metadatas : list pydict)
| Search (query : string) (k : Z)
| IsEmpty
| Save
| Load.

Record sys : Type := mkSys {
  mem : t;
  disk : storage;
}.

Definition step (s : sys) (o : op) : sys :=
  match o with
  | AddTexts texts metadatas =>
      mkSys (add_texts texts metadatas (mem s)).2 (disk s)
  | Search query k => mkSys (search query k (mem s)).2 (disk s)
  | IsEmpty => mkSys (is_empty (mem s)).2 (disk s)
  | Save => mkSys (mem s) (save (mem s))
  | Load => mkSys (load (disk s) (mem s)).2 (disk s)
  end.

Definition run (s : sys) (ops : list op) : sys := foldl step s ops.

End Ops.

End VectorIndex.

(** ** The knowledge store ([app/backend/knowledge.py]) *)

Module KnowledgeStore.

Import VectorIndex.

(** A chunk as [add_file] reads it: [chunk.text], [chunk.doc_id] and the
    positional metadata [chunk.meta]. *)
Record Chunk : Type := mkChunk {
  text : string;
  doc_id : string;
  meta : pydict;
}.

(** The store object, with the part of the world it owns: [index_dir] is
    what the index directory holds, [_index] the lazily built index
    ([None] until first use), [warnings] what was sent to
    [logger.warning].  The re-entrant lock serialises the three public
    operations; each of them is one atomic run of the monad here. *)
Record t : Type := mk {
  index_dir : storage;
  dim : nat;
  _index : option VectorIndex.t;
  warnings : list Py.exn;
}.

Definition set_index (idx : VectorIndex.t) (ks : t) : t :=
  mk (index_dir ks) (dim ks) (Some idx) (warnings ks).
Definition set_index_dir (dir : storage) (ks : t) : t :=
  mk dir (dim ks) (_index ks) (warnings ks).
Definition log_warning (exc : Py.exn) (ks : t) : t :=
  mk (index_dir ks) (dim ks) (_index ks) (warnings ks ++ [exc]).

(** [KnowledgeStore(index_dir, uploads_dir, dim)] *)
Definition init (dir : storage) (d : nat) : t := mk dir d None [].

Section Ops.
Variable embed : string → vector.
Variable similarity : vector → vector → Qc.
(** The chunker [app.nlp.ingest.build_chunks], an external
    collaborator: it returns the chunks of a file or raises. *)
Variable build_chunks : string → string → Py.result (list Chunk).

(** A method called on the object [self._index] refers to: the store
    sees every mutation, also the ones made before an exception. *)
Definition on_index {A} (c : Py.M VectorIndex.t A) : Py.M t A :=
  λ ks, match _index ks with
        | Some idx => let '(r, idx') := c idx in (r, set_index idx' ks)
        | None => (Raise AttributeError, ks)
        end.

(** [_ensure_index]: the reference it returns is [self._index] itself,
    so the callers below run the index methods through [on_index]. *)
Definition _ensure_index : Py.M t unit :=
  λ ks, match _index ks with
        | None =>
            let '(r, idx) := load (index_dir ks) (VectorIndex.new (dim ks)) in
            let ks' := match r with
                       | Ok _ => ks
                       | Raise exc => log_warning exc ks
                       end in
            (Ok tt, set_index idx ks')
        | Some _ => (Ok tt, ks)
        end.

(** [index.save()] *)
Definition save_index : Py.M t unit :=
  λ ks, match _index ks with
        | Some idx => (Ok tt, set_index_dir (VectorIndex.save idx) ks)
        | None => (Raise AttributeError, ks)
        end.

(** One turn of the [for chunk in chunks] loop of [add_file]. *)
Definition add_file_step (acc : list string * list pydict) (chunk : Chunk)
  : list string * list pydict :=
  let '(texts, metas) := acc in
  let m := meta chunk in
  let m := <["doc_id" := VStr (doc_id chunk)]> m in
  let m := <["chunk_index" := VInt (Z.of_nat (length metas) + 1)]> m in
  (texts ++ [text chunk], metas ++ [m]).

Definition add_file_loop (chunks : list Chunk) : list string * list pydict :=
  foldl add_file_step ([], []) chunks.

(** The metadata record the loop builds for the chunk met after [n]
    others. *)
Definition record_of (n : nat) (chunk : Chunk) : pydict :=
  <["chunk_index" := VInt (Z.of_nat n + 1)]>
    (<["doc_id" := VStr (doc_id chunk)]> (meta chunk)).

(** The records of the index that come from the chunks of one file. *)
Definition inserted_records (chunks : list Chunk) : list pydict :=
  zip_with stored_record (text <$> chunks) (imap record_of chunks).

Definition add_file (file_path doc_id : string) : Py.M t Z :=
  chunks <- Py.lift (build_chunks file_path doc_id) ;;
  match chunks with
  | [] => Py.ret 0
  | _ =>
      let '(texts, metas) := add_file_loop chunks in
      _ensure_index ;;;
      on_index (add_texts embed texts metas) ;;;
      save_index ;;;
      Py.ret (Z.of_nat (length texts))
  end.

(** The body of the [for score, meta in raw_hits] loop of [search]. *)
Definition enrich (hit : Qc * pydict) : pydict :=
  let '(score, meta) := hit in
  let record := meta in
  let record := Py.setdefault "text" (Py.get meta "text" (VStr "")) record in
  <["score" := VFloat score]> record.

Definition search (query : string) (k : Z) : Py.M t (list pydict) :=
  _ensure_index ;;;
  raw_hits <- on_index (VectorIndex.search embed similarity query k) ;;
  Py.ret (enrich <$> raw_hits).

Definition is_empty : Py.M t bool :=
  _ensure_index ;;;
  on_index VectorIndex.is_empty.

(** The index the store works on once [_ensure_index] has run. *)
Definition the_index (ks : t) : VectorIndex.t :=
  match _index ks with
  | Some idx => idx
  | None => (load (index_dir ks) (VectorIndex.new (dim ks))).2
  end.

(** The store's index, when built, is structurally consistent. *)
Definition consistent (ks : t) : Prop :=
  match _index ks with
  | Some idx => VectorIndex.consistent idx
  | None => True
  end.

(** The requests the store serves over its life, whatever their
    outcome. *)
Inductive request : Type :=
| AddFile (file_path doc_id : string)
| Query (query : string) (k : Z)
| IsEmpty.

Definition serve (ks : t) (r : request) : t :=
  match r with
  | AddFile file_path doc_id => (add_file file_path doc_id ks).2
  | Query query k => (search query k ks).2
  | IsEmpty => (is_empty ks).2
  end.

Definition serve_all (ks : t) (requests : list request) : t :=
  foldl serve ks requests.

End Ops.
End KnowledgeStore.

(** ** The answer synthesizer *)

Module QaAgent.
Import VectorIndex.

Record QAResult : Type := mk {
  answer : string;
  mode : string;
}.

(** What a call of the external language model comes to. *)
Inductive llm_outcome : Type :=
| Completed (response : string)
| Failed (e : Py.exn)
| Unavailable.

(** The text of a hit; a hit without a readable text counts as empty. *)
Definition hit_text (hit : pydict) : string :=
  match hit !! "text" with
  | Some (VStr s) => s
  | _ => ""
  end.

Section Synth.
(** The external language-model call (section 6), the extractive
    summary of the hit texts, and the fixed message for no results. *)
Variable complete : string → list string → llm_outcome.
Variable summarize : list string → string.
Variable no_results : string.

(** Modelled from the spec: [answer_query(question, hits, use_llm)] of
    [app.agent.qa_agent] is not among the sources; the four cases are
    those of section 4.4. *)
Definition answer_query (question : string) (hits : list pydict)
  (use_llm : bool) : QAResult :=
  match hits with
  | [] => mk no_results "empty"
  | _ =>
      let texts := hit_text <$> hits in
      if use_llm then
        match complete question texts with
        | Completed response => mk response "llm"
        | Failed _ | Unavailable => mk (summarize texts) "llm_fallback"
        end
      else mk (summarize texts) "extractive"
  end.
End Synth.


(** A summary built purely from the texts has no character that is not
    in one of them. *)
Definition extractive (summarize : list string → string) : Prop :=
  ∀ texts ch,
    ch ∈ list_ascii_of_string (summarize texts) →
    ∃ text, text ∈ texts ∧ ch ∈ list_ascii_of_string text.
End QaAgent.

(** ** The topic classifier *)

Module Classifier.

Record Prediction : Type := mk {
  label : string;
  proba : Qc;
}.

Section Model.
(** The trained model, the training procedure and the predictor are
    those of [app.models.classifier], which is not among the sources. *)
Variable Model : Type.
Variable train : list Py.value → list string → Model.

(** Modelled from the spec: [load_model() -> Model | absent] reads the
    persisted model (section 4.5); the state is the model file. *)
Definition load_model : Py.M (option Model) (option Model) :=
  Py.gets (λ file, file).

(** Modelled from the spec: [fit_and_save(texts, labels)] trains a model
    on the labelled texts and persists it (section 4.5). *)
Definition fit_and_save (texts : list Py.value) (labels : list string)
  : Py.M (option Model) unit :=
  Py.modify (λ _, Some (train texts labels)).
End Model.
End Classifier.

(** ** The response schemas ([app/backend/schemas.py])

    The records hold the values they are built from; the field validation
    pydantic runs on construction and on the request is not part of the
    model. *)

Module schemas.
Module ChatRequest.
Record t : Type := mk {
  question : string;
  top_k : Z;
  use_llm : bool;
}.
End ChatRequest.

Module ContextHit.
Record t : Type := mk {
  doc_id : option Py.value;
  source : option Py.value;
  text : Py.value;
  score : option Py.value;
  page : option Py.value;
  section : option Py.value;
  section_chunk : option Py.value;
}.
End ContextHit.

Module ClassificationInfo.
Record t : Type := mk {
  label : string;
  score : Qc;
}.
End ClassificationInfo.

Module ChatResponse.
Record t : Type := mk {
  answer : string;
  mode : string;
  context : list ContextHit.t;
  classification : option ClassificationInfo.t;
}.
End ChatResponse.
End schemas.

(** ** The [/chat/ask] handler ([app/api.py]) *)

Module Api.
Import VectorIndex schemas.

(** The calls the handler makes to its collaborators, in order. *)
Inductive event : Type :=
| CallIsEmpty
| CallSearch (query : string) (k : Z)
| CallAnswerQuery (question : string) (hits : list pydict) (use_llm : bool)
| CallLoadModel
| CallFitAndSave (texts : list Py.value) (labels : list string)
| CallPredict (text : string).

Section Handler.
Variable embed : string → vector.
Variable similarity : vector → vector → Qc.
Variable complete : string → list string → QaAgent.llm_outcome.
Variable summarize : list string → string.
Variable no_results : string.
Variable Model : Type.
Variable train : list Py.value → list string → Model.
Variable predict : string → Model → Classifier.Prediction.
(** [LABELS], the label vocabulary of [app.models.classifier]. *)
Variable LABELS : list string.

(** What the handler works on: the module-level [knowledge] store, the
    persisted classifier model, and the calls made so far. *)
Record world : Type := mkWorld {
  knowledge : KnowledgeStore.t;
  model_file : option Model;
  trace : list event;
}.

Definition on_knowledge {A} (c : Py.M KnowledgeStore.t A) : Py.M world A :=
  λ w, let '(r, ks) := c (knowledge w) in
       (r, mkWorld ks (model_file w) (trace w)).

Definition on_model_file {A} (c : Py.M (option Model) A) : Py.M world A :=
  λ w, let '(r, file) := c (model_file w) in
       (r, mkWorld (knowledge w) file (trace w)).

Definition call (e : event) : Py.M world unit :=
  Py.modify (λ w, mkWorld (knowledge w) (model_file w) (trace w ++ [e])).

(** [LABELS[i % len(LABELS)]] *)
Definition label_at (i : nat) : Py.result string :=
  match length LABELS with
  | O => Raise ZeroDivisionError
  | n =>
      match LABELS !! (i mod n)%nat with
      | Some l => Ok l
      | None => Raise IndexError
      end
  end.

(** The labels the comprehension yields for [n] texts over a vocabulary
    that is not empty. *)
Definition cyclic_labels (n : nat) : list string :=
  (λ i, default "" (LABELS !! (i mod length LABELS)%nat)) <$> seq 0 n.

Definition context_hit (hit : pydict) : ContextHit.t :=
  ContextHit.mk (hit !! "doc_id") (hit !! "source")
    (Py.get hit "text" (VStr "")) (hit !! "score") (hit !! "page")
    (hit !! "section") (hit !! "section_chunk").

(** Lines 204-215: the classifier, trained on first use. *)
Definition classify (hits : list pydict)
  : Py.M world (option ClassificationInfo.t) :=
  call CallLoadModel ;;;
  model <- on_model_file (Classifier.load_model Model) ;;
  model <- match model with
           | None =>
               texts <- Py.lift (Py.traverse (λ hit, Py.getitem hit "text") hits) ;;
               labels <- Py.lift (Py.traverse label_at (seq 0 (length texts))) ;;
               match texts with
               | [] => Py.ret None
               | _ =>
                   call (CallFitAndSave texts labels) ;;;
                   on_model_file (Classifier.fit_and_save Model train texts labels) ;;;
                   call CallLoadModel ;;;
                   on_model_file (Classifier.load_model Model)
               end
           | Some m => Py.ret (Some m)
           end ;;
  match model with
  | Some m =>
      items <- Py.lift (Py.traverse (λ hit, Py.getitem hit "text") (take 3 hits)) ;;
      text <- Py.lift (Py.str_join " " items) ;;
      call (CallPredict text) ;;;
      let pred := predict text m in
      Py.ret (Some (ClassificationInfo.mk (Classifier.label pred)
                                           (Classifier.proba pred)))
  | None => Py.ret None
  end.

(** Lines 199-235: what the handler answers once it has the hits. *)
Definition respond (payload : ChatRequest.t) (hits : list pydict)
  : Py.M world ChatResponse.t :=
  match hits with
  | [] => Py.ret (ChatResponse.mk "No results found." "empty" [] None)
  | _ =>
      call (CallAnswerQuery (ChatRequest.question payload) hits
              (ChatRequest.use_llm payload)) ;;;
      let qa_result :=
        QaAgent.answer_query complete summarize no_results
          (ChatRequest.question payload) hits (ChatRequest.use_llm payload) in
      classification <- classify hits ;;
      let context_payload := context_hit <$> hits in
      Py.ret (ChatResponse.mk (QaAgent.answer qa_result)
                (QaAgent.mode qa_result) context_payload classification)
  end.

(** The hits [knowledge.search] hands to the handler. *)
Definition hits_for (payload : ChatRequest.t) (ks : KnowledgeStore.t)
  : list pydict :=
  KnowledgeStore.enrich <$>
    ((λ c, (score c, record c)) <$>
       top embed similarity (KnowledgeStore.the_index ks)
         (ChatRequest.question payload) (ChatRequest.top_k payload)).

(** The handler of [POST /chat/ask], for a validated payload and an
    authenticated user. *)
Definition ask_ai (payload : ChatRequest.t) : Py.M world ChatResponse.t :=
  call CallIsEmpty ;;;
  empty <- on_knowledge (KnowledgeStore.is_empty) ;;
  if (empty : bool) then
    Py.raise (HTTPException 400
      "Knowledge base is empty. Admin needs to upload documents.")
  else
    call (CallSearch (ChatRequest.question payload) (ChatRequest.top_k payload)) ;;;
    hits <- on_knowledge (KnowledgeStore.search embed similarity
              (ChatRequest.question payload) (ChatRequest.top_k payload)) ;;
    respond payload hits.

End Handler.
End Api.

(** ** A concrete deployment

    The scenario of section 8: a two-dimensional index, a document
    [perda-1] of two chunks, an embedding that counts the digits 1 and 2 of
    a text, and the inner product as similarity. *)

Module Scenario.
Import VectorIndex KnowledgeStore.

Fixpoint count_char (a : Ascii.ascii) (s : string) : Z :=
  match s with
  | EmptyString => 0
  | String b s' => (if Ascii.eqb a b then 1 else 0) + count_char a s'
  end.

Definition embed (s : string) : vector :=
  [Qc_of_Z (count_char "1"%char s); Qc_of_Z (count_char "2"%char s)].

Definition similarity (u v : vector) : Qc :=
  foldr Qcplus 0%Qc (zip_with Qcmult u v).

(** An embedding that ignores the dimension of the index. *)
Definition embed_short (s : string) : vector := [Qc_of_Z (count_char "1"%char s)].

Definition chunks (doc : string) : list Chunk :=
  [ mkChunk "Pasal 1: ..." doc {[ "page" := VInt 1 ]};
    mkChunk "Pasal 2: ..." doc {[ "page" := VInt 1; "section" := VInt 2 ]} ].

Definition build_chunks (file_path doc : string) : Py.result (list Chunk) :=
  if String.eqb file_path "perda-1.pdf" then Ok (chunks doc)
  else if String.eqb file_path "blank.pdf" then Ok []
  else Raise UnsupportedFormat.

(** A 384-dimensional index met by an embedding of 128 components. *)
Definition embed128 (s : string) : vector := replicate 128 0%Qc.

(** A language model that cannot be reached, and an extractive summary
    of the three leading hit texts. *)
Definition complete_down (question : string) (context : list string)
  : QaAgent.llm_outcome := QaAgent.Unavailable.

Definition summarize (texts : list string) : string :=
  ("Ringkasan: " ++ String.concat " " (take 3 texts))%string.

(** A classifier that remembers its vocabulary and answers with the
    first label. *)
Definition LABELS : list string := ["pajak"; "retribusi"; "perizinan"].

Definition train (texts : list Py.value) (labels : list string)
  : list string := labels.

Definition predict (text : string) (model : list string)
  : Classifier.Prediction :=
  Classifier.mk (default "" (head model)) 1%Qc.

(** The store at start-up, with nothing on disk. *)
Definition fresh : KnowledgeStore.t := KnowledgeStore.init Missing 2.

(** The store after [perda-1.pdf] has been added. *)
Definition loaded : KnowledgeStore.t :=
  (add_file embed build_chunks "perda-1.pdf" "perda-1" fresh).2.

(** A question about the second article, and the hits it gets. *)
Definition payload : schemas.ChatRequest.t :=
  schemas.ChatRequest.mk "Pasal 2" 3 true.

Definition hits : list pydict :=
  Api.hits_for embed similarity payload loaded.

(** The handler's world at start-up and once the document is in. *)
Definition world_fresh : Api.world (list string) :=
  Api.mkWorld (list string) fresh None [].

Definition world_loaded : Api.world (list string) :=
  Api.mkWorld (list string) loaded None [].

End Scenario.

(** ** Python [str] methods used by the upload path *)

Module PyStr.

(** [ch in chars], for a string [ch] of one character. *)
Definition mem (ch : ascii) (chars : string) : bool :=
  existsb (Ascii.eqb ch) (list_ascii_of_string chars).

Fixpoint lstrip_list (p : ascii → bool) (l : list ascii) : list ascii :=
  match l with
  | [] => []
  | ch :: l' => if p ch then lstrip_list p l' else l
  end.

Definition strip_list (p : ascii → bool) (l : list ascii) : list ascii :=
  reverse (lstrip_list p (reverse (lstrip_list p l))).

(** [s.strip(chars)]: the characters of [chars] are removed from both
    ends. *)
Definition strip (s chars : string) : string :=
  string_of_list_ascii
    (strip_list (λ ch, mem ch chars) (list_ascii_of_string s)).

Section Classes.
(** What [str.isalnum] answers on a character outside ASCII is a matter of
    the Unicode database. *)
Variable isalnum_other : ascii → bool.

(** [ch.isalnum()] for one character: on ASCII, the digits and the
    letters. *)
Definition isalnum (ch : ascii) : bool :=
  let n := N_of_ascii ch in
  if (n <? 128)%N then
    ((48 <=? n) && (n <=? 57) || (65 <=? n) && (n <=? 90)
     || (97 <=? n) && (n <=? 122))%N
  else isalnum_other ch.
End Classes.

End PyStr.

(** ** Stored file names ([app/api.py]) *)

Module Filenames.

Section Sanitize.
Variable isalnum_other : ascii → bool.

(** The characters [_sanitize_filename] keeps. *)
Definition kept (ch : ascii) : bool :=
  PyStr.isalnum isalnum_other ch || PyStr.mem ch "._-".

(** The characters [strip("._")] removes from the two ends. *)
Definition edge (ch : ascii) : bool := PyStr.mem ch "._".

(** The characters of the name after the replacement of the others. *)
Definition replaced (name : string) : list ascii :=
  (λ ch, if kept ch then ch else "_"%char) <$> list_ascii_of_string name.

Definition _sanitize_filename (name : string) : string :=
  let clean :=
    string_of_list_ascii
      ((λ ch, if kept ch then ch else "_"%char) <$> list_ascii_of_string name) in
  let clean := PyStr.strip clean "._" in
  if String.eqb clean "" then "upload" else clean.

End Sanitize.
End Filenames.

(** ** Handlers over the database: outcomes and the monad

    Beside the Python exceptions of the knowledge store, a handler can
    meet the error the database raises on a violated constraint, the one
    [datetime] arithmetic raises out of its range, and the one the file
    system raises. *)

Module Web.

Inductive exn : Type :=
| Python (e : Py.exn)
| IntegrityError
| OverflowError
| OSError.

Inductive result (A : Type) : Type :=
| Val (a : A)
| Exc (e : exn).
Global Arguments Val {A} a.
Global Arguments Exc {A} e.

Definition M (S A : Type) : Type := S → result A * S.

Definition ret {S A} (a : A) : M S A := λ s, (Val a, s).
Definition raise {S A} (e : exn) : M S A := λ s, (Exc e, s).
Definition bind {S A B} (c : M S A) (k : A → M S B) : M S B :=
  λ s, match c s with
       | (Val a, s') => k a s'
       | (Exc e, s') => (Exc e, s')
       end.
Definition gets {S A} (f : S → A) : M S A := λ s, (Val (f s), s).
Definition modify {S} (f : S → S) : M S unit := λ s, (Val tt, f s).
Definition lift {S A} (r : result A) : M S A := λ s, (r, s).

(** One fallible step after another, without a state. *)
Definition and_then {A B} (r : result A) (k : A → result B) : result B :=
  match r with
  | Val a => k a
  | Exc e => Exc e
  end.

(** [HTTPException(status_code=..., detail=...)] *)
Definition HTTPException (status_code : Z) (detail : string) : exn :=
  Python (Py.HTTPException status_code detail).

(** A computation of the knowledge store, run from a handler. *)
Definition of_py {S A} (c : Py.M S A) : M S A :=
  λ s, match c s with
       | (Py.Ok a, s') => (Val a, s')
       | (Py.Raise e, s') => (Exc (Python e), s')
       end.

(** [for x in xs: body x] *)
Fixpoint for_each {S A} (body : A → M S unit) (xs : list A) : M S unit :=
  match xs with
  | [] => ret tt
  | x :: xs' => bind (body x) (λ _, for_each body xs')
  end.

End Web.

Notation "x <~ c ;; k" := (Web.bind c (λ x, k))
  (at level 100, c at next level, right associativity, only parsing).
Notation "c ;;~ k" := (Web.bind c (λ _, k))
  (at level 100, right associativity, only parsing).

(** ** The tables ([app/backend/models.py]) *)

Module models.

Module User.
Record t : Type := mk {
  id : Z;
  username : string;
  email : string;
  hashed_password : string;
  role : string;
  is_active : option bool;
  created_at : Z;
}.
End User.

Module Document.
Record t : Type := mk {
  id : Z;
  original_filename : string;
  stored_filename : string;
  uploaded_at : Z;
  uploaded_by : Z;
}.
End Document.

End models.

(** ** The database session

    The two tables as the lists of their rows in insertion order, and the
    clock the column defaults and [datetime.utcnow()] read, in microseconds
    from the epoch.  [add] followed by [commit] and
    [refresh] is one insertion, refused with [IntegrityError] when a column
    declared [unique] would hold a value twice. *)

Module Db.
Import models.

Record t : Type := mk {
  users : list User.t;
  documents : list Document.t;
  utcnow : Z;
}.

(** The primary key the database gives to a new row. *)
Definition next_id (ids : list Z) : Z := 1 + foldr Z.max 0 ids.

(** [db.query(models.User).filter(...).first()] *)
Definition first_user (p : User.t → bool) : Web.M t (option User.t) :=
  Web.gets (λ db, List.find p (users db)).

Definition username_taken (db : t) (name : string) : bool :=
  existsb (λ u, String.eqb (User.username u) name) (users db).

Definition email_taken (db : t) (address : string) : bool :=
  existsb (λ u, String.eqb (User.email u) address) (users db).

Definition stored_filename_taken (db : t) (name : string) : bool :=
  existsb (λ d, String.eqb (Document.stored_filename d) name) (documents db).

(** [db.add(user); db.commit(); db.refresh(user)] for a new
    [models.User(username=..., email=..., hashed_password=..., role=...,
    is_active=...)]. *)
Definition add_user (username email hashed_password role : string)
  (is_active : option bool) : Web.M t User.t :=
  λ db,
    if username_taken db username || email_taken db email then
      (Web.Exc Web.IntegrityError, db)
    else
      let user := User.mk (next_id (User.id <$> users db)) username email
                    hashed_password role is_active (utcnow db) in
      (Web.Val user, mk (users db ++ [user]) (documents db) (utcnow db)).

(** The same for a new [models.Document(original_filename=...,
    stored_filename=..., uploaded_by=...)]. *)
Definition add_document (original_filename stored_filename : string)
  (uploaded_by : Z) : Web.M t Document.t :=
  λ db,
    if stored_filename_taken db stored_filename then
      (Web.Exc Web.IntegrityError, db)
    else
      let document := Document.mk (next_id (Document.id <$> documents db))
                        original_filename stored_filename (utcnow db)
                        uploaded_by in
      (Web.Val document, mk (users db) (documents db ++ [document]) (utcnow db)).

(** The rows of [users] hold every username and every email once. *)
Definition unique_users (db : t) : Prop :=
  NoDup (User.username <$> users db) ∧ NoDup (User.email <$> users db).

End Db.

(** ** The process

    What the routes work on: the database, the files of [UPLOADS_DIR] by
    name, the module-level [knowledge] store, and the number of random
    values drawn so far (salts and UUIDs). *)

Module Server.

Record world : Type := mkWorld {
  db : Db.t;
  uploads : gmap string string;
  knowledge : KnowledgeStore.t;
  drawn : nat;
}.

Definition on_db {A} (c : Web.M Db.t A) : Web.M world A :=
  λ w, let '(r, d) := c (db w) in
       (r, mkWorld d (uploads w) (knowledge w) (drawn w)).

Definition on_knowledge {A} (c : Py.M KnowledgeStore.t A) : Web.M world A :=
  λ w, let '(r, ks) := c (knowledge w) in
       (match r with
        | Py.Ok a => Web.Val a
        | Py.Raise e => Web.Exc (Web.Python e)
        end,
        mkWorld (db w) (uploads w) ks (drawn w)).

(** One more random value: its rank among the values drawn. *)
Definition draw : Web.M world nat :=
  λ w, (Web.Val (drawn w),
        mkWorld (db w) (uploads w) (knowledge w) (S (drawn w))).

(** What writing a file comes to.  [destination.open("wb")] creates the
    file or raises [OSError] and leaves the directory as it is (a name
    longer than the file system takes, a directory that cannot be written
    to); [shutil.copyfileobj] then copies the bytes, or raises after some
    of them (a full disk) and leaves a file cut short. *)
Inductive written : Type :=
| Stored
| OpenRaises
| CopyRaises (copied : nat).

Definition with_file (name data : string) (w : world) : world :=
  mkWorld (db w) (<[name := data]> (uploads w)) (knowledge w) (drawn w).

Section Files.
(** The file system, asked with the files of the directory, the name of
    the new file and its bytes. *)
Variable file_system : gmap string string → string → string → written.

(** [with destination.open("wb") as buffer:
       shutil.copyfileobj(file.file, buffer)] *)
Definition write_file (name data : string) : Web.M world unit :=
  λ w, match file_system (uploads w) name data with
       | Stored => (Web.Val tt, with_file name data w)
       | OpenRaises => (Web.Exc Web.OSError, w)
       | CopyRaises copied =>
           (Web.Exc Web.OSError, with_file name (substring 0 copied data) w)
       end.
End Files.

End Server.

(** ** Authentication ([app/backend/auth.py]) *)

Module auth.
Import models.

(** The claims of a token, as [schemas.TokenPayload] holds them. *)
Record TokenPayload : Type := mkTokenPayload {
  sub : option string;
  exp : option Z;
}.

(** What the two lines under [try] in [get_current_user] come to:
    [jwt.decode] followed by [schemas.TokenPayload] on its payload.  They
    give the token data, or raise [JWTError] (a bad signature, a token past its
    [exp]), or raise something else, which the [except] clause does not
    catch: the [TypeError] of python-jose on a signed token whose [exp] is
    null, the validation error of pydantic on a [sub] that is no string. *)
Inductive decoded : Type :=
| Claims (token_data : TokenPayload)
| JWTError
| Raises (e : Web.exn).

(** A [datetime] is counted in microseconds from 1970-01-01 00:00:00, the
    epoch of [exp], and a [timedelta] in microseconds, each within the
    bounds Python sets: the years 1 to 9999 for the one, 999999999 days
    either way for the other. *)
Definition datetime_min : Z := -62135596800000000.
Definition datetime_max : Z := 253402300799999999.
Definition timedelta_min : Z := -86399999913600000000.
Definition timedelta_max : Z := 86399999999999999999.

(** [timedelta(minutes=m)] *)
Definition timedelta_minutes (m : Z) : Web.result Z :=
  let d := 60000000 * m in
  if (timedelta_min <=? d) && (d <=? timedelta_max) then Web.Val d
  else Web.Exc Web.OverflowError.

(** [t + d] for a datetime [t] and a timedelta [d] *)
Definition datetime_add (t d : Z) : Web.result Z :=
  let s := t + d in
  if (datetime_min <=? s) && (s <=? datetime_max) then Web.Val s
  else Web.Exc Web.OverflowError.

(** [timegm(t.utctimetuple())], by which [jwt.encode] turns the datetime
    under [exp] into whole seconds: the microseconds are dropped. *)
Definition timegm (t : Z) : Z := t / 1000000.

Section Auth.
(** The password hashing of passlib: [hash_password] salts the hash with
    randomness, given here as its first argument.  The tokens of
    python-jose: [jwt_encode] for claims whose [exp] is already in whole
    seconds, [jwt_decode] for the two lines under [try]. *)
Variable hash_password : nat → string → string.
Variable verify_password : string → string → bool.
Variable jwt_encode : TokenPayload → string.
Variable jwt_decode : string → decoded.
(** [ACCESS_TOKEN_EXPIRE_MINUTES] *)
Variable ACCESS_TOKEN_EXPIRE_MINUTES : Z.

(** [not user.is_active] is false only for [True]. *)
Definition active (user : User.t) : bool :=
  match User.is_active user with
  | Some true => true
  | _ => false
  end.

(** [now] is what [datetime.utcnow()] answers.  A duration of zero is
    falsy, as [timedelta(0)] is; the default is built only when it is
    needed. *)
Definition create_access_token (now : Z) (subject : string)
  (expires_delta : option Z) : Web.result string :=
  Web.and_then
    (match expires_delta with
     | Some d =>
         if d =? 0 then timedelta_minutes ACCESS_TOKEN_EXPIRE_MINUTES
         else Web.Val d
     | None => timedelta_minutes ACCESS_TOKEN_EXPIRE_MINUTES
     end)
    (λ delta,
       Web.and_then (datetime_add now delta)
         (λ expire,
            Web.Val (jwt_encode
                       (mkTokenPayload (Some subject) (Some (timegm expire)))))).

Definition authenticate_user (username password : string)
  : Web.M Db.t (option User.t) :=
  user <~ Db.first_user (λ u, String.eqb (User.username u) username) ;;
  match user with
  | None => Web.ret None
  | Some u =>
      if negb (verify_password password (User.hashed_password u)) then
        Web.ret None
      else if negb (active u) then
        Web.raise (Web.HTTPException 403 "Inactive user")
      else Web.ret (Some u)
  end.

(** [credentials] is the bearer token of the request, if it has one.  The
    warning sent to the log on an invalid token is left out. *)
Definition get_current_user (credentials : option string)
  : Web.M Db.t User.t :=
  match credentials with
  | None => Web.raise (Web.HTTPException 401 "Not authenticated")
  | Some token =>
      match jwt_decode token with
      | Raises e => Web.raise e
      | JWTError => Web.raise (Web.HTTPException 401 "Token invalid")
      | Claims token_data =>
          match sub token_data with
          | None =>
              Web.raise (Web.HTTPException 401 "Token doesn't contain a sub.")
          | Some name =>
              user <~ Db.first_user (λ u, String.eqb (User.username u) name) ;;
              match user with
              | None => Web.raise (Web.HTTPException 401 "User not found")
              | Some u =>
                  if negb (active u) then
                    Web.raise (Web.HTTPException 403 "Inactive user")
                  else Web.ret u
              end
          end
      end
  end.

Definition require_admin (current_user : User.t) : Web.result User.t :=
  if negb (String.eqb (User.role current_user) "admin") then
    Web.Exc (Web.HTTPException 403 "Not admin")
  else Web.Val current_user.

(** [seed_admin]: the three defaults come from the environment. *)
Definition seed_admin (username password email : string)
  : Web.M Server.world unit :=
  existing <~ Server.on_db
    (Db.first_user (λ u, String.eqb (User.username u) username)) ;;
  match existing with
  | Some _ => Web.ret tt
  | None =>
      salt <~ Server.draw ;;
      Server.on_db
        (Db.add_user username email (hash_password salt password) "admin"
           (Some true)) ;;~
      Web.ret tt
  end.

(** [bootstrap_admin], run at start-up on a session of its own. *)
Definition bootstrap_admin (username password email : string)
  : Web.M Server.world unit :=
  seed_admin username password email.

End Auth.
End auth.

(** ** The request and response schemas of the other routes
    ([app/backend/schemas.py]) *)

Module schemas2.

Module LoginRequest.
Record t : Type := mk {
  username : string;
  password : string;
}.
End LoginRequest.

Module TokenResponse.
Record t : Type := mk {
  access_token : string;
  token_type : string;
}.
End TokenResponse.

Module UserRegister.
Record t : Type := mk {
  username : string;
  email : string;
  password : string;
}.
End UserRegister.

Module UserCreate.
Record t : Type := mk {
  username : string;
  email : string;
  password : string;
  role : string;
}.
End UserCreate.

Module DocumentInfo.
Record t : Type := mk {
  id : Z;
  original_filename : string;
  stored_filename : string;
  uploaded_at : Z;
  uploaded_by : Z;
  uploader_username : option string;
}.
End DocumentInfo.

Module DocumentUploadResult.
Record t : Type := mk {
  info : DocumentInfo.t;
  chunks_indexed : Z;
}.
End DocumentUploadResult.

End schemas2.

(** ** The routes over users and documents ([app/api.py]) *)

Module Routes.
Import VectorIndex models schemas2 Server.

(** An uploaded file: the name the client gave, if any, and the bytes. *)
Record UploadFile : Type := mkUploadFile {
  filename : option string;
  content : string;
}.


(** [x or y] on an optional string: [None] and the empty string are falsy. *)
Definition or_else (x : option string) (y : string) : string :=
  match x with
  | Some s => if String.eqb s "" then y else s
  | None => y
  end.

(** [getattr(models.User, field)], read on a row. *)
Definition getattr (field : string) (u : User.t) : string :=
  if String.eqb field "username" then User.username u
  else if String.eqb field "email" then User.email u
  else if String.eqb field "hashed_password" then User.hashed_password u
  else if String.eqb field "role" then User.role u
  else "".

Section Handlers.
Variable isalnum_other : ascii → bool.
Variable hash_password : nat → string → string.
Variable verify_password : string → string → bool.
Variable jwt_encode : auth.TokenPayload → string.
Variable jwt_decode : string → auth.decoded.
Variable ACCESS_TOKEN_EXPIRE_MINUTES : Z.
Variable file_system : gmap string string → string → string → written.
(** [uuid4().hex] for the random value of a given rank. *)
Variable uuid4_hex : nat → string.
(** [UPLOADS_DIR] *)
Variable UPLOADS_DIR : string.
Variable embed : string → vector.
(** The chunker, reading a path in the files of the upload directory. *)
Variable build_chunks :
  gmap string string → string → string → Py.result (list KnowledgeStore.Chunk).

(** The row a route inserts for a new account, and the world after it. *)
Definition new_user (w : world) (username email password role : string)
  : User.t :=
  User.mk (Db.next_id (User.id <$> Db.users (db w))) username email
    (hash_password (drawn w) password) role (Some true) (Db.utcnow (db w)).

Definition with_user (u : User.t) (w : world) : world :=
  mkWorld (Db.mk (Db.users (db w) ++ [u]) (Db.documents (db w))
             (Db.utcnow (db w)))
    (uploads w) (knowledge w) (S (drawn w)).

(** The world after one random value was drawn. *)
Definition after_draw (w : world) : world :=
  mkWorld (db w) (uploads w) (knowledge w) (S (drawn w)).

(** [POST /auth/login] *)
Definition login (payload : LoginRequest.t) : Web.M world TokenResponse.t :=
  user <~ on_db (auth.authenticate_user verify_password
                   (LoginRequest.username payload)
                   (LoginRequest.password payload)) ;;
  match user with
  | None =>
      Web.raise (Web.HTTPException 401 "Incorrect username or password")
  | Some u =>
      now <~ Web.gets (λ w, Db.utcnow (db w)) ;;
      token <~ Web.lift (auth.create_access_token jwt_encode
                           ACCESS_TOKEN_EXPIRE_MINUTES now (User.username u)
                           None) ;;
      Web.ret (TokenResponse.mk token "bearer")
  end.

(** The loop over [("username", ...), ("email", ...)] that the two routes
    creating users start with; [suffix] is the end of the error detail. *)
Definition refuse_taken (suffix : string) (fields : list (string * string))
  : Web.M Db.t unit :=
  Web.for_each
    (λ fv : string * string,
       existing <~ Db.first_user (λ u, String.eqb (getattr fv.1 u) fv.2) ;;
       match existing with
       | Some _ => Web.raise (Web.HTTPException 400 (fv.1 ++ suffix)%string)
       | None => Web.ret tt
       end)
    fields.

(** [POST /auth/register] *)
Definition register_user (payload : UserRegister.t) : Web.M world User.t :=
  on_db (refuse_taken " telah digunakan."
           [("username", UserRegister.username payload);
            ("email", UserRegister.email payload)]) ;;~
  salt <~ draw ;;
  on_db (Db.add_user (UserRegister.username payload)
           (UserRegister.email payload)
           (hash_password salt (UserRegister.password payload))
           "user" (Some true)).

(** [GET /auth/me] *)
Definition read_me (current_user : User.t) : Web.M world User.t :=
  Web.ret current_user.

(** [POST /admin/users] *)
Definition create_user (payload : UserCreate.t) : Web.M world User.t :=
  if negb (String.eqb (UserCreate.role payload) "admin"
           || String.eqb (UserCreate.role payload) "user") then
    Web.raise (Web.HTTPException 400 "Invalid role")
  else
    on_db (refuse_taken " already exists"
             [("username", UserCreate.username payload);
              ("email", UserCreate.email payload)]) ;;~
    salt <~ draw ;;
    on_db (Db.add_user (UserCreate.username payload)
             (UserCreate.email payload)
             (hash_password salt (UserCreate.password payload))
             (UserCreate.role payload) (Some true)).

(** One turn of the [for file in files] loop of [upload_documents]. *)
Definition upload_one (current_user : User.t) (file : UploadFile)
  : Web.M world DocumentUploadResult.t :=
  let safe_name :=
    Filenames._sanitize_filename isalnum_other
      (or_else (filename file) "document") in
  rank <~ draw ;;
  let stored_name := (uuid4_hex rank ++ "_" ++ safe_name)%string in
  let destination := (UPLOADS_DIR ++ "/" ++ stored_name)%string in
  write_file file_system stored_name (content file) ;;~
  files <~ Web.gets uploads ;;
  chunks_indexed <~ on_knowledge
    (KnowledgeStore.add_file embed (build_chunks files) destination
       (or_else (filename file) stored_name)) ;;
  document <~ on_db (Db.add_document (or_else (filename file) stored_name)
                       stored_name (User.id current_user)) ;;
  Web.ret (DocumentUploadResult.mk
             (DocumentInfo.mk (Document.id document)
                (Document.original_filename document)
                (Document.stored_filename document)
                (Document.uploaded_at document)
                (Document.uploaded_by document)
                (Some (User.username current_user)))
             chunks_indexed).

(** The name under which the file drawn at [rank] is stored. *)
Definition stored_name (rank : nat) (file : UploadFile) : string :=
  (uuid4_hex rank ++ "_" ++
   Filenames._sanitize_filename isalnum_other
     (or_else (filename file) "document"))%string.

(** The run of [add_file] inside one turn of the loop, once the file is
    written, and the row the turn inserts. *)
Definition indexing (file : UploadFile) (w : world)
  : Py.result Z * KnowledgeStore.t :=
  let stored := stored_name (drawn w) file in
  KnowledgeStore.add_file embed
    (build_chunks (<[stored := content file]> (uploads w)))
    (UPLOADS_DIR ++ "/" ++ stored)%string
    (or_else (filename file) stored) (knowledge w).

Definition new_document (current_user : User.t) (file : UploadFile) (w : world)
  : Document.t :=
  let stored := stored_name (drawn w) file in
  Document.mk (Db.next_id (Document.id <$> Db.documents (db w)))
    (or_else (filename file) stored) stored (Db.utcnow (db w))
    (User.id current_user).

(** The sum of the chunk counts of some results. *)
Definition total_chunks (results : list DocumentUploadResult.t) : Z :=
  foldr Z.add 0 (DocumentUploadResult.chunks_indexed <$> results).

(** The result the route gives for a row it has inserted. *)
Definition upload_result (current_user : User.t) (document : Document.t)
  (chunks_indexed : Z) : DocumentUploadResult.t :=
  DocumentUploadResult.mk
    (DocumentInfo.mk (Document.id document)
       (Document.original_filename document)
       (Document.stored_filename document)
       (Document.uploaded_at document)
       (Document.uploaded_by document)
       (Some (User.username current_user)))
    chunks_indexed.

(** The loop itself, with [results] as it grows. *)
Fixpoint upload_loop (current_user : User.t) (files : list UploadFile)
  (results : list DocumentUploadResult.t)
  : Web.M world (list DocumentUploadResult.t) :=
  match files with
  | [] => Web.ret results
  | file :: files' =>
      result <~ upload_one current_user file ;;
      upload_loop current_user files' (results ++ [result])
  end.

(** [POST /admin/upload] *)
Definition upload_documents (files : list UploadFile) (current_user : User.t)
  : Web.M world (list DocumentUploadResult.t) :=
  match files with
  | [] => Web.raise (Web.HTTPException 400 "No files uploaded")
  | _ => upload_loop current_user files []
  end.

(** A route behind [Depends(auth.get_current_user)]. *)
Definition authenticated {A} (credentials : option string)
  (handler : User.t → Web.M world A) : Web.M world A :=
  current_user <~ on_db (auth.get_current_user jwt_decode credentials) ;;
  handler current_user.

(** A route behind [Depends(auth.require_admin)]. *)
Definition admin_only {A} (credentials : option string)
  (handler : User.t → Web.M world A) : Web.M world A :=
  authenticated credentials
    (λ current_user,
       admin <~ Web.lift (auth.require_admin current_user) ;;
       handler admin).

(** The requests served over the life of the process, with the bearer
    token each comes with, and the world each leaves behind, whatever its
    outcome. *)
Inductive request : Type :=
| Bootstrap (username password email : string)
| Login (payload : LoginRequest.t)
| Register (payload : UserRegister.t)
| Me (credentials : option string)
| CreateUser (credentials : option string) (payload : UserCreate.t)
| Upload (credentials : option string) (files : list UploadFile).

Definition serve (w : world) (r : request) : world :=
  match r with
  | Bootstrap username password email =>
      (auth.bootstrap_admin hash_password username password email w).2
  | Login payload => (login payload w).2
  | Register payload => (register_user payload w).2
  | Me credentials => (authenticated credentials read_me w).2
  | CreateUser credentials payload =>
      (admin_only credentials (λ _, create_user payload) w).2
  | Upload credentials files =>
      (admin_only credentials (upload_documents files) w).2
  end.

Definition serve_all (w : world) (requests : list request) : world :=
  foldl serve w requests.

(** What the tables, the upload directory and the index keep to: no
    username, email or stored file name twice, a file on disk for every
    row of [documents], and an index with one vector per record. *)
Definition coherent (w : world) : Prop :=
  Db.unique_users (db w) ∧
  NoDup (Document.stored_filename <$> Db.documents (db w)) ∧
  (∀ d, d ∈ Db.documents (db w) →
        is_Some (uploads w !! Document.stored_filename d)) ∧
  KnowledgeStore.consistent (knowledge w).

End Handlers.
End Routes.

(** ** The index a store can save and load again *)

Module Persistence.
Import VectorIndex KnowledgeStore.

(** The index of the store, when built, has the store's dimension and
    holds what [load] accepts. *)
Definition loadable (ks : KnowledgeStore.t) : Prop :=
  match _index ks with
  | Some idx =>
      VectorIndex.dim idx = dim ks ∧
      readable (dim ks) (embeddings idx) (metadata idx) = true
  | None => True
  end.

(** The store a new process builds over the directory [ks] leaves. *)
Definition restarted (ks : KnowledgeStore.t) : KnowledgeStore.t :=
  KnowledgeStore.init (index_dir ks) (dim ks).

End Persistence.

(** ** The calls of the handler that train a model *)

Module Calls.

Definition is_training (e : Api.event) : bool :=
  match e with
  | Api.CallFitAndSave _ _ => true
  | _ => false
  end.

End Calls.

(** ** The report ([app/utils/report.py]) and the chat view ([app/app.py])

    The hits shown to the user are the [context] entries of a response,
    decoded from JSON: a value is a string, a number or [None]. *)

Module Report.

(** [None] stands for Python's [None]. *)
Abbreviation jvalue := (option Py.value).
Abbreviation jdict := (gmap string (option Py.value)).

(** [hit.get(key)] *)
Definition get (hit : jdict) (key : string) : jvalue :=
  default None (hit !! key).

(** The truth value of a JSON value: [None], the empty string and zero are
    falsy. *)
Definition truthy (v : jvalue) : bool :=
  match v with
  | None => false
  | Some (VStr s) => negb (String.eqb s "")
  | Some (VInt n) => negb (n =? 0)
  | Some (VFloat x) => negb (bool_decide (x = 0%Qc))
  end.

Section Formatting.
(** [str(x)] for a float [x], and [format(v, ".3f")], which raises on what
    is not a number. *)
Variable str_float : Qc → string.
Variable format_3f : jvalue → Py.result string.

(** [str(v)], as an f-string computes it. *)
Definition str (v : jvalue) : string :=
  match v with
  | None => "None"
  | Some (VStr s) => s
  | Some (VInt n) => pretty n
  | Some (VFloat x) => str_float x
  end.

(** [f"{label}{hit[key]}"] *)
Definition part (label : string) (hit : jdict) (key : string) : string :=
  (label ++ str (get hit key))%string.

Definition _format_location (hit : jdict) : string :=
  let parts := [] in
  let parts := if truthy (get hit "page")
               then parts ++ [part "hal. " hit "page"] else parts in
  let parts := if truthy (get hit "section")
               then parts ++ [part "paragraf " hit "section"] else parts in
  let parts := if truthy (get hit "section_chunk")
               then parts ++ [part "bagian " hit "section_chunk"] else parts in
  String.concat ", " parts.

(** [s[:n]] *)
Definition prefix (n : nat) (s : string) : string :=
  string_of_list_ascii (take n (list_ascii_of_string s)).

(** [x or y] on JSON values. *)
Definition or_value (x y : jvalue) : jvalue := if truthy x then x else y.

(** The location note of the report ([app/utils/report.py], lines 30-31). *)
Definition location_note (hit : jdict) : string :=
  let location := _format_location hit in
  if String.eqb location "" then "" else (" (" ++ location ++ ")")%string.

(** The two lines [make_markdown_report] writes for the hit numbered [i]. *)
Definition hit_lines (i : nat) (hit : jdict) : Py.result (list string) :=
  let source := or_value (get hit "source")
                  (or_value (get hit "doc_id") (Some (VStr "-"))) in
  let score := default (Some (VFloat 0%Qc)) (hit !! "score") in
  match format_3f score with
  | Raise e => Raise e
  | Ok score_text =>
      match default (Some (VStr "")) (hit !! "text") with
      | Some (VStr text) =>
          Ok [ (pretty i ++ ". **" ++ str source ++ "**" ++ location_note hit
                ++ " - skor: " ++ score_text)%string;
               ("   > " ++ prefix 800 text)%string ]
      | _ => Raise TypeError
      end
  end.

(** [enumerate(hits, 1)], turned into lines. *)
Fixpoint hits_lines (i : nat) (hits : list jdict) : Py.result (list string) :=
  match hits with
  | [] => Ok []
  | hit :: hits' =>
      match hit_lines i hit with
      | Raise e => Raise e
      | Ok two =>
          match hits_lines (S i) hits' with
          | Raise e => Raise e
          | Ok rest => Ok (two ++ rest)
          end
      end
  end.

(** The lines of the report; [ts] is the formatted time of the call. *)
Definition report_lines (ts query answer : string) (hits : list jdict)
  (rec : string) : Py.result (list string) :=
  let lines := ["# Rekomendasi Kebijakan - Laporan";
                ("_Generated: " ++ ts ++ "_")%string; ""] in
  let lines := lines ++ ["## Pertanyaan"; query; ""] in
  let lines := lines ++ ["## Jawaban/Analisis"; answer; ""] in
  let lines := lines ++ ["## Referensi Konteks"] in
  match hits_lines 1 hits with
  | Raise e => Raise e
  | Ok body =>
      let lines := lines ++ body in
      let lines :=
        if String.eqb rec "" then lines
        else lines ++ [""; "## Rekomendasi Sistem"; rec] in
      Ok lines
  end.

Definition make_markdown_report (ts query answer : string)
  (hits : list jdict) (rec : string) : Py.result string :=
  match report_lines ts query answer hits rec with
  | Raise e => Raise e
  | Ok lines => Ok (String.concat (String "010" "") lines)
  end.

(** The location shown for a hit in the chat view ([app/app.py], lines
    257-264). *)
Definition chat_location (hit : jdict) : string :=
  let location_bits := [] in
  let location_bits :=
    if truthy (get hit "page")
    then location_bits ++ [part "hal. " hit "page"] else location_bits in
  let location_bits :=
    if truthy (get hit "section")
    then location_bits ++ [part "paragraf " hit "section"]
    else location_bits in
  let location_bits :=
    if truthy (get hit "section_chunk")
    then location_bits ++ [part "bagian " hit "section_chunk"]
    else location_bits in
  match location_bits with
  | [] => ""
  | _ => (" (" ++ String.concat ", " location_bits ++ ")")%string
  end.

(** The parts the two places collect for a hit. *)
Definition parts (hit : jdict) : list string :=
  (if truthy (get hit "page") then [part "hal. " hit "page"] else []) ++
  (if truthy (get hit "section") then [part "paragraf " hit "section"] else [])
  ++
  (if truthy (get hit "section_chunk")
   then [part "bagian " hit "section_chunk"] else []).

(** A hit the report can print: its score can be formatted and its text,
    when it has one, is a string. *)
Definition printable (hit : jdict) : Prop :=
  (∃ score_text,
     format_3f (default (Some (VFloat 0%Qc)) (hit !! "score")) = Ok score_text) ∧
  (∃ text, default (Some (VStr "")) (hit !! "text") = Some (VStr text)).

End Formatting.
End Report.

(** ** A concrete process

    Stand-ins for the libraries, small enough to run: a hash that is the
    password itself, a token that spells its subject (and one, [null], for
    a signed token whose [exp] is null), a file system that takes names of
    255 characters at most, UUIDs made of the letter [a], and a chunker
    that refuses one file name. *)

Module Deployment.
Import VectorIndex models schemas2 Server Routes.

Definition isalnum_other (ch : ascii) : bool := false.

Definition hash_password (salt : nat) (password : string) : string := password.

Definition verify_password (password hashed : string) : bool :=
  String.eqb password hashed.

Definition jwt_encode (claims : auth.TokenPayload) : string :=
  ("jwt:" ++ default "" (auth.sub claims))%string.

Definition jwt_decode (token : string) : auth.decoded :=
  match token with
  | String "j" (String "w" (String "t" (String ":" name))) =>
      auth.Claims (auth.mkTokenPayload (Some name) None)
  | String "n" (String "u" (String "l" (String "l" EmptyString))) =>
      auth.Raises (Web.Python TypeError)
  | _ => auth.JWTError
  end.

Definition file_system (files : gmap string string) (name data : string)
  : written :=
  if (255 <? String.length name)%nat then OpenRaises else Stored.

Definition uuid4_hex (rank : nat) : string :=
  string_of_list_ascii (replicate (S rank) "a"%char).

Definition build_chunks (files : gmap string string) (file_path doc : string)
  : Py.result (list KnowledgeStore.Chunk) :=
  if String.eqb doc "rusak.pdf" then Raise UnsupportedFormat
  else Ok (Scenario.chunks doc).

(** The process at start-up, at time 1000. *)
Definition start : world :=
  mkWorld (Db.mk [] [] 1000) ∅ Scenario.fresh 0.

Definition admin : User.t :=
  User.mk 1 "admin" "admin@example.com" "Admin123!" "admin" (Some true) 1000.

(** The process once the default administrator is seeded. *)
Definition seeded : world :=
  (auth.bootstrap_admin hash_password "admin" "Admin123!" "admin@example.com"
     start).2.

Definition perda : UploadFile := mkUploadFile (Some "perda 1.pdf") "%PDF".
Definition rusak : UploadFile := mkUploadFile (Some "rusak.pdf") "".

(** A file whose name has 300 characters. *)
Definition panjang : UploadFile :=
  mkUploadFile (Some (string_of_list_ascii (replicate 300 "p"%char))) "%PDF".


(** The handler's world with a classifier already trained. *)
Definition world_trained : Api.world (list string) :=
  Api.mkWorld (list string) Scenario.loaded (Some ["pajak"]) [].

End Deployment.

(** ** The monad and the comprehensions *)

Module PyFacts.

Lemma bind_ok {S A B} (c : Py.M S A) (k : A → Py.M S B) s a s' :
  c s = (Ok a, s') → Py.bind c k s = k a s'.
Proof. unfold Py.bind. by intros ->. Qed.

Lemma bind_raise {S A B} (c : Py.M S A) (k : A → Py.M S B) s e s' :
  c s = (Raise e, s') → Py.bind c k s = (Raise e, s').
Proof. unfold Py.bind. by intros ->. Qed.

Lemma traverse_ok {A B} (f : A → Py.result B) (g : A → B) (l : list A) :
  Forall (λ x, f x = Ok (g x)) l → Py.traverse f l = Ok (g <$> l).
Proof.
  induction 1 as [|x l Hx _ IH]; simpl; [done|].
  by rewrite Hx, IH.
Qed.

Lemma traverse_Forall2 {A B} (f : A → Py.result B) (l : list A) (r : list B) :
  Forall2 (λ x y, f x = Ok y) l r → Py.traverse f l = Ok r.
Proof.
  induction 1 as [|x y l r Hx _ IH]; simpl; [done|].
  by rewrite Hx, IH.
Qed.

Lemma str_join_strings sep (strs : list string) :
  Py.str_join sep (VStr <$> strs) = Ok (String.concat sep strs).
Proof.
  unfold Py.str_join.
  rewrite (traverse_Forall2 _ _ strs); [done|].
  induction strs; constructor; done.
Qed.

End PyFacts.

(** ** Properties of the vector index *)

Module VectorIndexFacts.
Import VectorIndex.

Section Facts.
Variable embed : string → vector.
Variable similarity : vector → vector → Qc.

Lemma add_texts_cases texts metadatas idx :
  add_texts embed texts metadatas idx =
    if negb (Nat.eqb (length texts) (length metadatas))
    then (Raise ValueError, idx)
    else if negb (forallb (has_dim (dim idx)) (embed <$> texts))
    then (Raise DimensionMismatch, idx)
    else (Ok tt, mk (dim idx) (embeddings idx ++ (embed <$> texts))
                    (metadata idx ++ zip_with stored_record texts metadatas)).
Proof.
  unfold add_texts.
  destruct (negb (Nat.eqb (length texts) (length metadatas))); [done|].
  unfold Py.bind, Py.gets; simpl.
  by destruct (negb (forallb _ _)).
Qed.

(** A failing [add_texts] writes nothing. *)
Lemma add_texts_raise texts metadatas idx e idx' :
  add_texts embed texts metadatas idx = (Raise e, idx') → idx' = idx.
Proof.
  rewrite add_texts_cases.
  repeat case_match; congruence.
Qed.

Lemma add_texts_ok texts metadatas idx idx' :
  add_texts embed texts metadatas idx = (Ok tt, idx') →
  length texts = length metadatas ∧
  idx' = mk (dim idx) (embeddings idx ++ (embed <$> texts))
            (metadata idx ++ zip_with stored_record texts metadatas).
Proof.
  rewrite add_texts_cases.
  destruct (Nat.eqb (length texts) (length metadatas)) eqn:Hlen; simpl;
    [|congruence].
  apply Nat.eqb_eq in Hlen.
  case_match; [congruence|]. intros [= <-]. done.
Qed.

Lemma add_texts_consistent texts metadatas idx r idx' :
  consistent idx →
  add_texts embed texts metadatas idx = (r, idx') →
  consistent idx'.
Proof.
  intros Hc Hadd. destruct r as [[]|e].
  - apply add_texts_ok in Hadd as [Hlen ->].
    unfold consistent in *; simpl.
    rewrite !length_app, length_fmap, length_zip_with. lia.
  - by apply add_texts_raise in Hadd as ->.
Qed.

Lemma readable_spec d vecs metas :
  readable d vecs metas = true → length vecs = length metas.
Proof.
  unfold readable. intros [H _]%andb_prop. by apply Nat.eqb_eq.
Qed.

Lemma load_consistent dir idx r idx' :
  load dir idx = (r, idx') → consistent idx'.
Proof.
  unfold load, Py.bind, Py.gets, Py.modify, Py.raise; simpl.
  destruct dir as [| |vecs metas]; try (intros [= _ <-]; done).
  destruct (readable _ vecs metas) eqn:Hr; intros [= _ <-]; [|done].
  by apply readable_spec in Hr.
Qed.

(** A load that fails leaves nothing in the index. *)
Lemma load_raise dir idx e idx' :
  load dir idx = (Raise e, idx') →
  e = IndexLoadFailure ∧ idx' = new (dim idx).
Proof.
  unfold load, Py.bind, Py.gets, Py.modify, Py.raise; simpl.
  destruct dir as [| |vecs metas]; try (intros [= <- <-]; done).
  destruct (readable _ vecs metas); [discriminate|].
  by intros [= <- <-].
Qed.

Lemma load_fails_spec dir idx :
  load_fails (dim idx) dir = true →
  load dir idx = (Raise IndexLoadFailure, new (dim idx)).
Proof.
  unfold load_fails, load, Py.bind, Py.gets, Py.modify, Py.raise; simpl.
  destruct dir as [| |vecs metas]; [done..|].
  by intros ->%negb_true_iff.
Qed.

Lemma step_consistent s o :
  consistent (mem s) → consistent (mem (step embed similarity s o)).
Proof.
  intros Hc. destruct o as [texts metadatas|query k| | |]; simpl; try done.
  - destruct (add_texts _ _ _ _) as [r idx'] eqn:Hadd.
    by eapply add_texts_consistent.
  - destruct (load _ _) as [r idx'] eqn:Hload.
    by eapply load_consistent.
Qed.

Lemma run_consistent s ops :
  consistent (mem s) → consistent (mem (run embed similarity s ops)).
Proof.
  revert s. induction ops as [|o ops IH]; intros s Hc; [done|].
  simpl. by apply IH, step_consistent.
Qed.

(** A text whose embedding has not the index's dimension makes
    [add_texts] fail, and nothing is written. *)
Lemma add_texts_dimension_mismatch texts metadatas idx :
  length texts = length metadatas →
  Exists (λ t, length (embed t) ≠ dim idx) texts →
  add_texts embed texts metadatas idx = (Raise DimensionMismatch, idx).
Proof.
  intros Hlen Hbad. rewrite add_texts_cases, Hlen, Nat.eqb_refl; simpl.
  destruct (forallb _ _) eqn:Hall; [|done].
  apply Exists_exists in Hbad as (t & Ht & Hdim). destruct Hdim.
  rewrite forallb_forall in Hall.
  apply Nat.eqb_eq, (Hall (embed t)), in_map, list_elem_of_In, Ht.
Qed.

Lemma search_state query k idx :
  (search embed similarity query k idx).2 = idx.
Proof. done. Qed.

Lemma is_empty_state idx : (is_empty idx).2 = idx.
Proof. done. Qed.


(** *** Ranking *)

Global Instance ranks_before_total : Total ranks_before.
Proof.
  intros a b. unfold ranks_before.
  destruct (Qclt_le_dec (score b) (score a)) as [Hlt|Hle]; [by left; left|].
  apply Qcle_lt_or_eq in Hle as [Hlt|Heq]; [by right; left|].
  destruct (Nat.le_ge_cases (position a) (position b)).
  - left; right. done.
  - right; right. done.
Qed.

Global Instance ranks_before_trans : Transitive ranks_before.
Proof.
  intros a b c [Hab|[Hab Hpab]] [Hbc|[Hbc Hpbc]]; unfold ranks_before.
  - left. by eapply Qclt_trans.
  - left. by rewrite <- Hbc.
  - left. by rewrite Hab.
  - right. split; [congruence|lia].
Qed.

Lemma StronglySorted_lookup {A} (R : relation A) (l : list A) i j a b :
  StronglySorted R l → (i < j)%nat →
  l !! i = Some a → l !! j = Some b → R a b.
Proof.
  intros Hsorted. revert i j.
  induction Hsorted as [|x l Hl IH Hx]; intros i j Hij Hi Hj; [done|].
  destruct j as [|j]; [lia|]. simpl in Hj.
  destruct i as [|i]; simpl in Hi.
  - injection Hi as <-.
    rewrite Forall_forall in Hx. apply Hx.
    by apply list_elem_of_lookup_2 in Hj.
  - apply (IH i j); [lia|done..].
Qed.

Lemma candidates_lookup idx query i c :
  candidates embed similarity idx query !! i = Some c ↔
  ∃ v m, embeddings idx !! i = Some v ∧ metadata idx !! i = Some m ∧
         c = cand i (similarity (embed query) v) m.
Proof.
  unfold candidates. rewrite list_lookup_imap.
  destruct (zip (embeddings idx) (metadata idx) !! i) as [[v m]|] eqn:Hzip;
    simpl.
  - apply lookup_zip_with_Some in Hzip as (v' & m' & [= -> ->] & Hv & Hm).
    split.
    + intros [= <-]. eauto.
    + intros (v & m & Hv' & Hm' & ->). congruence.
  - split; [done|]. intros (v & m & Hv & Hm & _).
    assert (zip (embeddings idx) (metadata idx) !! i = Some (v, m)) as Hz.
    { apply lookup_zip_with_Some. eauto. }
    congruence.
Qed.

Lemma candidates_length idx query :
  consistent idx →
  length (candidates embed similarity idx query) = size idx.
Proof.
  unfold consistent, candidates, size. intros Hc.
  rewrite length_imap, length_zip_with. lia.
Qed.

Lemma candidates_positions idx query :
  position <$> candidates embed similarity idx query =
    seq 0 (length (candidates embed similarity idx query)).
Proof.
  apply list_eq. intros i.
  rewrite list_lookup_fmap.
  destruct (candidates embed similarity idx query !! i) as [c|] eqn:Hc; simpl.
  - pose proof (lookup_lt_Some _ _ _ Hc) as Hlt.
    apply candidates_lookup in Hc as (v & m & _ & _ & ->); simpl.
    symmetry. by apply lookup_seq.
  - apply lookup_ge_None in Hc. symmetry. apply lookup_ge_None.
    by rewrite length_seq.
Qed.

Lemma ranked_Permutation idx query :
  ranked embed similarity idx query ≡ₚ candidates embed similarity idx query.
Proof. apply merge_sort_Permutation. Qed.

Lemma ranked_sorted idx query :
  StronglySorted ranks_before (ranked embed similarity idx query).
Proof. apply StronglySorted_merge_sort; apply _. Qed.

Lemma ranked_positions_NoDup idx query :
  NoDup (position <$> ranked embed similarity idx query).
Proof.
  rewrite ranked_Permutation, candidates_positions. apply NoDup_seq.
Qed.

Lemma ranked_length idx query :
  consistent idx → length (ranked embed similarity idx query) = size idx.
Proof.
  intros Hc. rewrite ranked_Permutation. by apply candidates_length.
Qed.

(** Two places of the ranking: the earlier one holds the higher score,
    or the same score and the record inserted first. *)
Lemma ranked_order idx query i j a b :
  (i < j)%nat →
  ranked embed similarity idx query !! i = Some a →
  ranked embed similarity idx query !! j = Some b →
  (score b < score a)%Qc ∨
  (score a = score b ∧ (position a < position b)%nat).
Proof.
  intros Hij Hi Hj.
  destruct (StronglySorted_lookup _ _ _ _ _ _ (ranked_sorted idx query)
              Hij Hi Hj) as [Hlt|[Heq Hpos]]; [by left|].
  right. split; [done|].
  assert (position a ≠ position b); [|lia].
  intros Hsame.
  pose proof (ranked_positions_NoDup idx query) as Hnd.
  assert (i = j); [|lia].
  eapply NoDup_lookup; [exact Hnd| |].
  - rewrite list_lookup_fmap, Hi. done.
  - rewrite list_lookup_fmap, Hj. simpl. by rewrite Hsame.
Qed.

Lemma ranked_elem idx query c :
  c ∈ ranked embed similarity idx query ↔
  ∃ v m, embeddings idx !! position c = Some v ∧
         metadata idx !! position c = Some m ∧
         c = cand (position c) (similarity (embed query) v) m.
Proof.
  rewrite ranked_Permutation, list_elem_of_lookup. split.
  - intros [i Hi]. apply candidates_lookup in Hi as (v & m & Hv & Hm & ->).
    simpl. eauto.
  - intros (v & m & Hv & Hm & Hc). exists (position c).
    apply candidates_lookup. eauto.
Qed.

End Facts.
End VectorIndexFacts.

(** ** Properties of the knowledge store *)

Module KnowledgeStoreFacts.
Import VectorIndex KnowledgeStore.

Section Facts.
Variable embed : string → vector.
Variable similarity : vector → vector → Qc.
Variable build_chunks : string → string → Py.result (list Chunk).

Lemma add_file_loop_from texts metas chunks :
  foldl add_file_step (texts, metas) chunks =
    (texts ++ (text <$> chunks),
     metas ++ imap (λ i, record_of (length metas + i)) chunks).
Proof.
  revert texts metas.
  induction chunks as [|c chunks IH]; intros texts metas; simpl.
  - by rewrite !app_nil_r.
  - rewrite IH, length_app; simpl.
    rewrite <- !app_assoc; simpl.
    f_equal. f_equal. unfold record_of at 2. rewrite Nat.add_0_r.
    f_equal. apply imap_ext. intros i x _; simpl.
    f_equal; lia.
Qed.

Lemma add_file_loop_spec chunks :
  add_file_loop chunks = (text <$> chunks, imap record_of chunks).
Proof. unfold add_file_loop. by rewrite add_file_loop_from. Qed.

Lemma ensure_index_spec ks :
  ∃ ks1, _ensure_index ks = (Ok tt, ks1) ∧
         _index ks1 = Some (the_index ks) ∧
         index_dir ks1 = index_dir ks ∧ dim ks1 = dim ks.
Proof.
  unfold _ensure_index, the_index.
  destruct (_index ks) as [idx|] eqn:Hidx; [by eauto|].
  destruct (load _ _) as [r idx]; simpl.
  eexists; split; [done|]. by destruct r.
Qed.

Lemma the_index_set_index idx ks : the_index (set_index idx ks) = idx.
Proof. done. Qed.

(** What a run of [add_file] comes to once the chunker has produced at
    least one chunk. *)
Lemma add_file_run file_path doc ks chunks :
  build_chunks file_path doc = Ok chunks → chunks ≠ [] →
  ∃ ks1, _ensure_index ks = (Ok tt, ks1) ∧
    add_file embed build_chunks file_path doc ks =
      match add_texts embed (text <$> chunks) (imap record_of chunks)
              (the_index ks) with
      | (Ok _, idx') =>
          (Ok (Z.of_nat (length chunks)),
           set_index_dir (save idx') (set_index idx' ks1))
      | (Raise e, idx') => (Raise e, set_index idx' ks1)
      end.
Proof.
  intros Hchunks Hne.
  destruct (ensure_index_spec ks) as (ks1 & Hens & Hidx & _ & _).
  exists ks1. split; [done|].
  unfold add_file, Py.bind at 1, Py.lift. rewrite Hchunks.
  destruct chunks as [|c chunks]; [done|].
  rewrite add_file_loop_spec.
  unfold Py.bind. rewrite Hens.
  unfold on_index. rewrite Hidx.
  destruct (add_texts _ _ _ _) as [[[]|e] idx']; [|done].
  unfold save_index, Py.ret; simpl. by rewrite length_fmap.
Qed.

Lemma add_file_no_chunks file_path doc ks :
  build_chunks file_path doc = Ok [] →
  add_file embed build_chunks file_path doc ks = (Ok 0, ks).
Proof.
  intros Hchunks. unfold add_file, Py.bind, Py.lift. by rewrite Hchunks.
Qed.

Lemma add_file_chunker_raises file_path doc ks e :
  build_chunks file_path doc = Raise e →
  add_file embed build_chunks file_path doc ks = (Raise e, ks).
Proof.
  intros Hchunks. unfold add_file, Py.bind, Py.lift. by rewrite Hchunks.
Qed.

Lemma inserted_records_lookup chunks i :
  inserted_records chunks !! i =
    (λ c, stored_record (text c) (record_of i c)) <$> chunks !! i.
Proof.
  unfold inserted_records.
  rewrite lookup_zip_with, list_lookup_fmap, list_lookup_imap.
  by destruct (chunks !! i).
Qed.

Lemma inserted_records_length chunks :
  length (inserted_records chunks) = length chunks.
Proof.
  unfold inserted_records.
  rewrite length_zip_with, length_fmap, length_imap. lia.
Qed.

Lemma imap_record_of_length chunks :
  length (text <$> chunks) = length (imap record_of chunks).
Proof. by rewrite length_fmap, length_imap. Qed.

(** With the embedding function keeping to the index's dimension,
    [add_texts] accepts what [add_file] hands it. *)
Lemma add_file_add_texts_ok chunks idx :
  Forall (λ c, length (embed (text c)) = VectorIndex.dim idx) chunks →
  add_texts embed (text <$> chunks) (imap record_of chunks) idx =
    (Ok tt, VectorIndex.mk (VectorIndex.dim idx)
              (embeddings idx ++ (embed <$> (text <$> chunks)))
              (metadata idx ++ inserted_records chunks)).
Proof.
  intros Hdim. rewrite VectorIndexFacts.add_texts_cases.
  rewrite imap_record_of_length, Nat.eqb_refl; simpl.
  assert (forallb (has_dim (VectorIndex.dim idx)) (embed <$> (text <$> chunks)) = true) as ->; [|done].
  apply forallb_forall. intros v Hv.
  apply in_map_iff in Hv as (t & <- & Ht).
  apply in_map_iff in Ht as (c & <- & Hc).
  rewrite Forall_forall in Hdim. unfold has_dim.
  apply Nat.eqb_eq, Hdim. by apply list_elem_of_In.
Qed.


(** C2. [add_file] returns the number of chunks the chunker produced for
    the file: whenever it returns, the value is that number, and it does
    return it as soon as the embedding function keeps to the index's
    dimension.  When the chunker produces no chunk it returns 0 and the
    store, with its index in memory and on disk, is what it was. *)
Theorem add_file_returns_chunk_count file_path doc ks chunks :
  build_chunks file_path doc = Ok chunks →
  (chunks = [] →
   add_file embed build_chunks file_path doc ks = (Ok 0, ks)) ∧
  (∀ n ks', add_file embed build_chunks file_path doc ks = (Ok n, ks') →
            n = Z.of_nat (length chunks)) ∧
  (Forall (λ c, length (embed (text c)) = VectorIndex.dim (the_index ks))
          chunks →
   ∃ ks', add_file embed build_chunks file_path doc ks =
            (Ok (Z.of_nat (length chunks)), ks')).
Proof.
  intros Hchunks.
  destruct (decide (chunks = [])) as [->|Hne].
  - pose proof (add_file_no_chunks _ _ ks Hchunks) as Hrun.
    split_and!; [done| |eauto].
    intros n ks'. rewrite Hrun. by intros [= <- _].
  - destruct (add_file_run _ _ ks _ Hchunks Hne) as (ks1 & _ & Hrun).
    split_and!; [done| |].
    + intros n ks'. rewrite Hrun.
      destruct (add_texts _ _ _ _) as [[[]|e] idx']; [|done].
      by intros [= <- _].
    + intros Hdim. rewrite Hrun, (add_file_add_texts_ok _ _ Hdim).
      eauto.
Qed.

(** C3. The records [add_file] inserts for a file with at least one chunk
    are appended in the order of the chunks; the record of the chunk at
    position [i] (counted from 0) has [chunk_index] [i + 1] and the
    [doc_id] of its chunk, which is the document's when the chunker
    stamps every chunk with the identifier it was given. *)
Theorem add_file_chunk_index_doc_id file_path doc ks chunks n ks' :
  build_chunks file_path doc = Ok chunks →
  chunks ≠ [] →
  add_file embed build_chunks file_path doc ks = (Ok n, ks') →
  ∃ inserted : list pydict,
    metadata (the_index ks') = metadata (the_index ks) ++ inserted ∧
    length inserted = length chunks ∧
    (∀ i c, chunks !! i = Some c →
       ∃ m, inserted !! i = Some m ∧
            m !! "chunk_index" = Some (VInt (Z.of_nat i + 1)) ∧
            m !! "doc_id" = Some (VStr (doc_id c))) ∧
    (Forall (λ c, doc_id c = doc) chunks →
     Forall (λ m, m !! "doc_id" = Some (VStr doc)) inserted).
Proof.
  intros Hchunks Hne Hadd.
  destruct (add_file_run _ _ ks _ Hchunks Hne) as (ks1 & _ & Hrun).
  rewrite Hrun in Hadd.
  destruct (add_texts _ _ _ _) as [[[]|e] idx'] eqn:Htexts; [|done].
  apply VectorIndexFacts.add_texts_ok in Htexts as [_ ->].
  injection Hadd as _ <-.
  exists (inserted_records chunks). split_and!.
  - done.
  - apply inserted_records_length.
  - intros i c Hc. exists (stored_record (text c) (record_of i c)).
    rewrite inserted_records_lookup, Hc. split; [done|].
    unfold stored_record, record_of. split.
    + rewrite lookup_insert_ne by done. apply lookup_insert_eq.
    + rewrite !lookup_insert_ne by done. apply lookup_insert_eq.
  - intros Hdoc. apply Forall_lookup_2. intros i m.
    rewrite inserted_records_lookup.
    destruct (chunks !! i) as [c|] eqn:Hc; [|done].
    intros [= <-]. unfold stored_record, record_of.
    rewrite !lookup_insert_ne by done. rewrite lookup_insert_eq.
    by rewrite (Forall_lookup_1 _ _ _ _ Hdoc Hc).
Qed.

Lemma enrich_text (score : Qc) (m : pydict) :
  enrich (score, m) !! "text" = Some (Py.get m "text" (VStr "")).
Proof.
  unfold enrich, Py.setdefault, Py.get.
  rewrite lookup_insert_ne by done.
  destruct (m !! "text") as [v|] eqn:Htext; simpl; [done|].
  apply lookup_insert_eq.
Qed.

Lemma enrich_score (score : Qc) (m : pydict) :
  enrich (score, m) !! "score" = Some (VFloat score).
Proof. unfold enrich. apply lookup_insert_eq. Qed.

Lemma enrich_other (score : Qc) (m : pydict) (key : string) :
  key ≠ "text" → key ≠ "score" → enrich (score, m) !! key = m !! key.
Proof.
  intros Htext Hscore. unfold enrich, Py.setdefault.
  rewrite lookup_insert_ne by done.
  destruct (m !! "text"); [done|]. by rewrite lookup_insert_ne.
Qed.

(** What a run of [search] comes to. *)
Lemma search_run query k ks :
  ∃ ks1, _ensure_index ks = (Ok tt, ks1) ∧
    search embed similarity query k ks =
      (Ok (enrich <$> ((λ c, (score c, record c)) <$>
             top embed similarity (the_index ks) query k)), ks1).
Proof.
  destruct (ensure_index_spec ks) as (ks1 & Hens & Hidx & Hdir & Hdim).
  exists ks1. split; [done|].
  unfold search, Py.bind. rewrite Hens.
  unfold on_index. rewrite Hidx. simpl. unfold Py.ret.
  f_equal. destruct ks1; simpl in *. unfold set_index; simpl. by rewrite Hidx.
Qed.

(** C5. Every hit of [KnowledgeStore.search] is made from one raw hit
    [(score, metadata)] of the vector index, in the same order: its
    ["text"] is the text stored in the metadata (the empty string when
    there is none), its ["score"] is the raw score, and every other key
    reads as in the metadata. *)
Theorem search_hit_fields query k ks :
  ∃ raw_hits hits ks',
    VectorIndex.search embed similarity query k (the_index ks)
      = (Ok raw_hits, the_index ks) ∧
    search embed similarity query k ks = (Ok hits, ks') ∧
    Forall2 (λ (hit : pydict) (raw : Qc * pydict),
               hit !! "text" = Some (Py.get raw.2 "text" (VStr "")) ∧
               (∀ t, raw.2 !! "text" = Some t → hit !! "text" = Some t) ∧
               hit !! "score" = Some (VFloat raw.1) ∧
               (∀ key, key ≠ "text" → key ≠ "score" →
                       hit !! key = raw.2 !! key))
            hits raw_hits.
Proof.
  destruct (search_run query k ks) as (ks1 & _ & Hrun).
  eexists _, _, ks1. split_and!; [done|exact Hrun|].
  apply Forall2_fmap_l, Forall_Forall2_diag, Forall_forall.
  intros [score m] _; cbn [fst snd]. split_and!.
  - apply enrich_text.
  - intros t Ht. simpl in Ht. rewrite enrich_text. unfold Py.get. by rewrite Ht.
  - apply enrich_score.
  - apply enrich_other.
Qed.


Lemma the_index_consistent ks :
  KnowledgeStore.consistent ks → VectorIndex.consistent (the_index ks).
Proof.
  unfold KnowledgeStore.consistent, the_index.
  destruct (_index ks); [done|]. intros _.
  destruct (load _ _) as [r idx] eqn:Hload. simpl.
  by eapply VectorIndexFacts.load_consistent.
Qed.

(** C4. For [k >= 1], [search] answers with the first [k] places of the
    ranking of the index's records ([tops]), one hit per place and in
    that order: as many hits as the smaller of [k] and the number of
    indexed records (so at most [k], never more than there are records,
    all of them when there are fewer than [k], none on an empty index);
    of two hits the earlier has the higher score, or the same score and
    the earlier insertion position; every place is a record of the
    index scored against the query; and no record left out ranks
    before a record returned. *)
Theorem search_at_most_k_ranked query k ks :
  1 ≤ k →
  KnowledgeStore.consistent ks →
  ∃ (tops : list candidate) (hits : list pydict) ks',
    search embed similarity query k ks = (Ok hits, ks') ∧
    the_index ks' = the_index ks ∧
    tops = take (Z.to_nat k) (ranked embed similarity (the_index ks) query) ∧
    hits = (λ c, enrich (score c, record c)) <$> tops ∧
    length hits = (Z.to_nat k `min` size (the_index ks))%nat ∧
    (∀ i j a b, (i < j)%nat → tops !! i = Some a → tops !! j = Some b →
       (score b < score a)%Qc ∨
       (score a = score b ∧ (position a < position b)%nat)) ∧
    (∀ c, c ∈ tops →
       ∃ v, embeddings (the_index ks) !! position c = Some v ∧
            metadata (the_index ks) !! position c = Some (record c) ∧
            score c = similarity (embed query) v) ∧
    (∀ a c, a ∈ tops →
       c ∈ ranked embed similarity (the_index ks) query → c ∉ tops →
       ranks_before a c).
Proof.
  intros Hk Hcons.
  destruct (search_run query k ks) as (ks1 & Hens & Hrun).
  destruct (ensure_index_spec ks) as (ks1' & Hens' & Hidx & _ & _).
  assert (ks1' = ks1) as -> by congruence.
  eexists _, _, ks1. split_and!.
  - exact Hrun.
  - unfold the_index at 1. by rewrite Hidx.
  - reflexivity.
  - unfold top. by rewrite <- list_fmap_compose.
  - rewrite !length_fmap. unfold top. rewrite length_take.
    rewrite VectorIndexFacts.ranked_length; [done|].
    by apply the_index_consistent.
  - intros i j a b Hij [Ha _]%lookup_take_Some [Hb _]%lookup_take_Some.
    by eapply VectorIndexFacts.ranked_order.
  - intros c Hc%elem_of_take. destruct Hc as (i & Hc & _).
    apply list_elem_of_lookup_2, VectorIndexFacts.ranked_elem in Hc
      as (v & m & Hv & Hm & Hc).
    exists v. rewrite Hc; simpl. rewrite Hc in Hv, Hm; simpl in *. done.
  - intros a c (i & Ha & Hi)%elem_of_take (j & Hc)%list_elem_of_lookup Hout.
    destruct (decide (j < Z.to_nat k)%nat) as [Hj|Hj].
    { destruct Hout. apply elem_of_take. eauto. }
    eapply (VectorIndexFacts.StronglySorted_lookup _ _ i j);
      [apply VectorIndexFacts.ranked_sorted|lia|done..].
Qed.


Lemma is_empty_run ks :
  ∃ ks1, _ensure_index ks = (Ok tt, ks1) ∧
    is_empty ks = (Ok (Nat.eqb (size (the_index ks)) 0), ks1).
Proof.
  destruct (ensure_index_spec ks) as (ks1 & Hens & Hidx & Hdir & Hdim).
  exists ks1. split; [done|].
  unfold is_empty, Py.bind. rewrite Hens.
  unfold on_index. rewrite Hidx. simpl.
  f_equal. destruct ks1; simpl in *. unfold set_index; simpl. by rewrite Hidx.
Qed.

Lemma ensure_index_consistent ks ks1 :
  KnowledgeStore.consistent ks →
  _ensure_index ks = (Ok tt, ks1) → KnowledgeStore.consistent ks1.
Proof.
  intros Hc Hens.
  destruct (ensure_index_spec ks) as (ks1' & Hens' & Hidx & _ & _).
  assert (ks1' = ks1) as -> by congruence.
  unfold KnowledgeStore.consistent at 1. rewrite Hidx.
  by apply the_index_consistent.
Qed.

Lemma add_file_consistent file_path doc ks :
  KnowledgeStore.consistent ks →
  KnowledgeStore.consistent
    (add_file embed build_chunks file_path doc ks).2.
Proof.
  intros Hc.
  destruct (build_chunks file_path doc) as [chunks|e] eqn:Hchunks.
  - destruct (decide (chunks = [])) as [->|Hne].
    + by rewrite add_file_no_chunks.
    + destruct (add_file_run _ _ ks _ Hchunks Hne) as (ks1 & _ & ->).
      destruct (add_texts _ _ _ _) as [r idx'] eqn:Hadd.
      apply VectorIndexFacts.add_texts_consistent in Hadd;
        [|by apply the_index_consistent].
      by destruct r.
  - by rewrite (add_file_chunker_raises _ _ _ _ Hchunks).
Qed.

Lemma serve_consistent ks r :
  KnowledgeStore.consistent ks →
  KnowledgeStore.consistent (serve embed similarity build_chunks ks r).
Proof.
  intros Hc. destruct r as [file_path doc|query k|]; simpl.
  - by apply add_file_consistent.
  - destruct (search_run query k ks) as (ks1 & Hens & ->).
    by eapply ensure_index_consistent.
  - destruct (is_empty_run ks) as (ks1 & Hens & ->).
    by eapply ensure_index_consistent.
Qed.

Lemma serve_all_consistent ks requests :
  KnowledgeStore.consistent ks →
  KnowledgeStore.consistent
    (serve_all embed similarity build_chunks ks requests).
Proof.
  revert ks. induction requests as [|r requests IH]; intros ks Hc; [done|].
  simpl. by apply IH, serve_consistent.
Qed.

(** C1. The index holds as many vectors as metadata records in every
    state it can reach: from a fresh index over any directory, under any
    sequence of [add_texts], [search], [is_empty], [save] and [load],
    each with any outcome; and so does the index of a store after any
    sequence of [add_file], [search] and [is_empty].  An [add_texts]
    that fails leaves the index as it was, and it does fail, with
    [DimensionMismatch] and the record count unchanged, when a text's
    embedding has not the index's dimension. *)
Theorem index_never_partially_updated :
  (∀ d dir ops,
     VectorIndex.consistent
       (mem (run embed similarity (mkSys (VectorIndex.new d) dir) ops))) ∧
  (∀ dir d requests,
     KnowledgeStore.consistent
       (serve_all embed similarity build_chunks (init dir d) requests)) ∧
  (∀ texts metadatas idx e idx',
     add_texts embed texts metadatas idx = (Raise e, idx') → idx' = idx) ∧
  (∀ texts metadatas idx,
     length texts = length metadatas →
     Exists (λ t, length (embed t) ≠ VectorIndex.dim idx) texts →
     ∃ idx', add_texts embed texts metadatas idx
               = (Raise DimensionMismatch, idx') ∧
             size idx' = size idx ∧ idx' = idx).
Proof.
  split_and!.
  - intros d dir ops. by apply VectorIndexFacts.run_consistent.
  - intros dir d requests. by apply serve_all_consistent.
  - intros texts metadatas idx e idx'.
    apply VectorIndexFacts.add_texts_raise.
  - intros texts metadatas idx Hlen Hbad. exists idx.
    by rewrite VectorIndexFacts.add_texts_dimension_mismatch.
Qed.

(** C8. [_ensure_index] never raises, whatever the index directory
    holds, and neither [is_empty] nor [search] do; what [add_file]
    raises comes from the chunker or is the [DimensionMismatch] of
    [add_texts].  When the index is yet to be built and the directory
    cannot be loaded, the failure is logged, the index is the empty
    index of the store's dimension, [is_empty] answers [True], [search]
    finds nothing, and [add_file] does what it does on a store holding
    that empty index. *)
Theorem load_failure_never_surfaces :
  (∀ ks, ∃ ks1,
     _ensure_index ks = (Ok tt, ks1) ∧
     (∃ b, is_empty ks = (Ok b, ks1)) ∧
     (∀ query k, ∃ hits, search embed similarity query k ks = (Ok hits, ks1)) ∧
     (∀ file_path doc e,
        (add_file embed build_chunks file_path doc ks).1 = Raise e →
        build_chunks file_path doc = Raise e ∨ e = DimensionMismatch)) ∧
  (∀ ks, _index ks = None →
     load_fails (dim ks) (index_dir ks) = true →
     let ks1 := set_index (VectorIndex.new (dim ks))
                  (log_warning IndexLoadFailure ks) in
     _ensure_index ks = (Ok tt, ks1) ∧
     the_index ks = VectorIndex.new (dim ks) ∧
     VectorIndex.consistent (the_index ks) ∧
     is_empty ks = (Ok true, ks1) ∧
     (∀ query k, search embed similarity query k ks = (Ok [], ks1)) ∧
     (∀ file_path doc chunks,
        build_chunks file_path doc = Ok chunks → chunks ≠ [] →
        add_file embed build_chunks file_path doc ks =
          add_file embed build_chunks file_path doc ks1)).
Proof.
  split.
  - intros ks.
    destruct (is_empty_run ks) as (ks1 & Hens & Hemp).
    destruct (search_run "" 0 ks) as (ks1' & Hens' & _).
    exists ks1. split_and!; [done|by eauto| |].
    + intros query k.
      destruct (search_run query k ks) as (ks2 & Hens2 & ->).
      assert (ks2 = ks1) as -> by congruence. eauto.
    + intros file_path doc e.
      destruct (build_chunks file_path doc) as [chunks|e'] eqn:Hchunks.
      * destruct (decide (chunks = [])) as [->|Hne].
        { by rewrite add_file_no_chunks. }
        destruct (add_file_run _ _ ks _ Hchunks Hne) as (ks2 & _ & ->).
        rewrite VectorIndexFacts.add_texts_cases.
        rewrite imap_record_of_length, Nat.eqb_refl; simpl.
        destruct (negb (forallb _ _)); simpl; [|done].
        intros [= <-]. by right.
      * rewrite (add_file_chunker_raises _ _ _ _ Hchunks); simpl.
        intros [= <-]. by left.
  - intros ks Hnone Hfails ks1.
    assert (load (index_dir ks) (VectorIndex.new (dim ks)) =
              (Raise IndexLoadFailure, VectorIndex.new (dim ks))) as Hload.
    { by apply (VectorIndexFacts.load_fails_spec _ (VectorIndex.new (dim ks))). }
    assert (_ensure_index ks = (Ok tt, ks1)) as Hens.
    { unfold _ensure_index. by rewrite Hnone, Hload. }
    assert (the_index ks = VectorIndex.new (dim ks)) as Hthe.
    { unfold the_index. by rewrite Hnone, Hload. }
    split_and!; [done|done|by rewrite Hthe| | |].
    + destruct (is_empty_run ks) as (ks2 & Hens2 & ->).
      rewrite Hthe. simpl. f_equal. congruence.
    + intros query k.
      destruct (search_run query k ks) as (ks2 & Hens2 & ->).
      rewrite Hthe. unfold top, ranked, candidates; simpl.
      change (merge_sort ranks_before []) with (@nil candidate).
      rewrite take_nil. simpl. f_equal. congruence.
    + intros file_path doc chunks Hchunks Hne.
      destruct (add_file_run _ _ ks _ Hchunks Hne) as (ks2 & Hens2 & ->).
      destruct (add_file_run _ _ ks1 _ Hchunks Hne) as (ks3 & Hens3 & ->).
      assert (ks2 = ks1) as -> by congruence.
      assert (ks3 = ks1) as -> by (unfold _ensure_index in Hens3; simpl in Hens3; congruence).
      by rewrite Hthe.
Qed.

End Facts.
End KnowledgeStoreFacts.

(** ** Properties of the answer synthesizer *)

Module QaAgentFacts.
Import VectorIndex QaAgent.

(** *** The extractive summary *)







(** Whatever the summary, as long as it is built purely from the texts,
    texts that are all empty leave it nothing to say. *)
Lemma extractive_of_empty_texts summarize texts :
  extractive summarize →
  Forall (λ text, text = "") texts →
  summarize texts = "".
Proof.
  intros Hext Hempty.
  destruct (summarize texts) as [|ch s] eqn:Hsum; [done|].
  destruct (Hext texts ch) as (text & Htext & Hch).
  { rewrite Hsum. simpl. left. }
  rewrite Forall_forall in Hempty. rewrite (Hempty text Htext) in Hch.
  by apply elem_of_nil in Hch.
Qed.


Section Facts.
Variable complete : string → list string → llm_outcome.
Variable summarize : list string → string.
Variable no_results : string.

Lemma answer_query_no_hits question use_llm :
  answer_query complete summarize no_results question [] use_llm =
    mk no_results "empty".
Proof. done. Qed.

Lemma answer_query_mode question hits use_llm :
  hits ≠ [] →
  mode (answer_query complete summarize no_results question hits use_llm)
    ≠ "empty".
Proof.
  intros Hne. destruct hits as [|hit hits]; [done|].
  unfold answer_query.
  destruct use_llm; [destruct (complete _ _)|]; done.
Qed.


End Facts.
End QaAgentFacts.

(** ** Properties of the [/chat/ask] handler *)

Module ApiFacts.
Import VectorIndex schemas Api.

Section Facts.
Variable embed : string → vector.
Variable similarity : vector → vector → Qc.
Variable complete : string → list string → QaAgent.llm_outcome.
Variable summarize : list string → string.
Variable no_results : string.
Variable Model : Type.
Variable train : list Py.value → list string → Model.
Variable predict : string → Model → Classifier.Prediction.
Variable LABELS : list string.

Local Abbreviation world := (world Model).
Local Abbreviation classify := (classify Model train predict LABELS).
Local Abbreviation respond :=
  (respond complete summarize no_results Model train predict LABELS).
Local Abbreviation ask_ai :=
  (ask_ai embed similarity complete summarize no_results Model train
          predict LABELS).
Local Abbreviation cyclic_labels := (cyclic_labels LABELS).

Lemma cyclic_labels_lookup n i :
  LABELS ≠ [] → (i < n)%nat →
  cyclic_labels n !! i = LABELS !! (i mod length LABELS)%nat.
Proof.
  intros Hne Hi. unfold Api.cyclic_labels.
  rewrite list_lookup_fmap, lookup_seq_lt by done. simpl.
  destruct (LABELS !! (i mod length LABELS)%nat) as [l|] eqn:Hl; [done|].
  apply lookup_ge_None in Hl.
  assert (length LABELS ≠ 0%nat) by (by destruct LABELS).
  pose proof (Nat.mod_upper_bound i (length LABELS)). lia.
Qed.

Lemma label_at_cyclic n :
  LABELS ≠ [] →
  Py.traverse (label_at LABELS) (seq 0 n) = Ok (cyclic_labels n).
Proof.
  intros Hne. apply PyFacts.traverse_ok, Forall_forall. intros i _.
  unfold label_at.
  destruct (length LABELS) as [|m] eqn:Hlen; [by destruct LABELS|].
  destruct (LABELS !! (i mod S m)%nat) as [l|] eqn:Hl; [done|].
  apply lookup_ge_None in Hl.
  pose proof (Nat.mod_upper_bound i (S m)). lia.
Qed.


(** The run of the classifier part of the handler when no model has
    been persisted yet. *)
Lemma classify_bootstrap_run hits (w : world) texts strs :
  model_file Model w = None → hits ≠ [] → LABELS ≠ [] →
  Forall2 (λ (hit : pydict) t, hit !! "text" = Some t) hits texts →
  take 3 texts = VStr <$> strs →
  let labels := cyclic_labels (length hits) in
  let model := train texts labels in
  let text := String.concat " " strs in
  classify hits w =
    (Ok (Some (ClassificationInfo.mk
                 (Classifier.label (predict text model))
                 (Classifier.proba (predict text model)))),
     mkWorld Model (knowledge Model w) (Some model)
       (trace Model w ++ [CallLoadModel; CallFitAndSave texts labels;
                          CallLoadModel; CallPredict text])).
Proof.
  intros Hnone Hne Hlabels Htexts Hstrs labels model text.
  assert (Py.traverse (λ hit : pydict, Py.getitem hit "text") hits = Ok texts)
    as Hall.
  { apply PyFacts.traverse_Forall2.
    eapply Forall2_impl; [exact Htexts|].
    intros hit t Ht. unfold Py.getitem. by rewrite Ht. }
  assert (Py.traverse (λ hit : pydict, Py.getitem hit "text") (take 3 hits)
            = Ok (take 3 texts)) as Hthree.
  { apply PyFacts.traverse_Forall2, Forall2_take.
    eapply Forall2_impl; [exact Htexts|].
    intros hit t Ht. unfold Py.getitem. by rewrite Ht. }
  pose proof (Forall2_length _ _ _ Htexts) as Hlen.
  unfold Api.classify, Py.bind, call, on_model_file, Classifier.load_model,
    Classifier.fit_and_save, Py.lift, Py.gets, Py.modify, Py.ret; simpl.
  rewrite Hnone, Hall, <- Hlen, (label_at_cyclic _ Hlabels).
  destruct texts as [|t texts]; [by destruct hits|].
  simpl. rewrite Hthree, Hstrs, PyFacts.str_join_strings.
  rewrite <- !app_assoc. done.
Qed.


(** Whatever the classifier part does, it only adds calls to the trace
    and leaves the knowledge store alone. *)
Lemma classify_trace hits (w : world) r w' :
  classify hits w = (r, w') →
  knowledge Model w' = knowledge Model w ∧
  ∃ rest, trace Model w' = trace Model w ++ CallLoadModel :: rest.
Proof.
  unfold Api.classify, Py.bind, call, on_model_file, Classifier.load_model,
    Classifier.fit_and_save, Py.lift, Py.gets, Py.modify, Py.ret; simpl.
  intros Hrun.
  repeat (case_match; simplify_eq/=);
    (split; [done|]); rewrite <- ?app_assoc; simpl; eauto.
Qed.

Lemma respond_no_hits payload (w : world) :
  respond payload [] w =
    (Ok (ChatResponse.mk "No results found." "empty" [] None), w).
Proof. done. Qed.

Lemma respond_hits payload hits (w : world) r w' :
  hits ≠ [] →
  respond payload hits w = (r, w') →
  knowledge Model w' = knowledge Model w ∧
  (∃ rest, trace Model w' =
             trace Model w ++
               CallAnswerQuery (ChatRequest.question payload) hits
                 (ChatRequest.use_llm payload) :: CallLoadModel :: rest) ∧
  (∀ response, r = Ok response → ChatResponse.mode response ≠ "empty").
Proof.
  intros Hne.
  pose proof (QaAgentFacts.answer_query_mode complete summarize no_results
                (ChatRequest.question payload) hits
                (ChatRequest.use_llm payload) Hne) as Hmode.
  destruct hits as [|hit hits]; [done|].
  unfold Api.respond, Py.bind at 1, call at 1, Py.modify.
  unfold Py.bind.
  set (qa_result := QaAgent.answer_query _ _ _ _ _ _) in *.
  destruct (classify _ _) as [[c|e] w1] eqn:Hclass;
    apply classify_trace in Hclass as [Hks [rest Htrace]]; simpl in *;
    intros [= <- <-]; (split_and!; [done| |]).
  - exists rest. by rewrite Htrace, <- app_assoc.
  - by intros response [= <-].
  - exists rest. by rewrite Htrace, <- app_assoc.
  - done.
Qed.


(** What a run of the handler comes to. *)
Lemma ask_ai_run payload (w : world) :
  ∃ ks1,
    KnowledgeStore._ensure_index (knowledge Model w) = (Ok tt, ks1) ∧
    ask_ai payload w =
      if Nat.eqb (size (KnowledgeStore.the_index (knowledge Model w))) 0
      then (Raise (HTTPException 400
              "Knowledge base is empty. Admin needs to upload documents."),
            mkWorld Model ks1 (model_file Model w)
              (trace Model w ++ [CallIsEmpty]))
      else respond payload (hits_for embed similarity payload (knowledge Model w))
             (mkWorld Model ks1 (model_file Model w)
                (trace Model w ++
                   [CallIsEmpty;
                    CallSearch (ChatRequest.question payload)
                               (ChatRequest.top_k payload)])).
Proof.
  destruct (KnowledgeStoreFacts.is_empty_run (knowledge Model w))
    as (ks1 & Hens & Hemp).
  destruct (KnowledgeStoreFacts.ensure_index_spec (knowledge Model w))
    as (ks1' & Hens' & Hidx & _ & _).
  assert (ks1' = ks1) as -> by congruence.
  exists ks1. split; [done|].
  unfold Api.ask_ai, Py.bind at 1, call at 1, Py.modify.
  unfold Py.bind at 1, on_knowledge at 1. simpl. rewrite Hemp.
  destruct (Nat.eqb _ 0); [done|].
  unfold Py.bind at 1, call at 1, Py.modify.
  unfold Py.bind at 1, on_knowledge at 1. simpl.
  destruct (KnowledgeStoreFacts.search_run embed similarity
              (ChatRequest.question payload) (ChatRequest.top_k payload) ks1)
    as (ks2 & Hens2 & ->).
  assert (ks2 = ks1) as ->.
  { unfold KnowledgeStore._ensure_index in Hens2.
    rewrite Hidx in Hens2. congruence. }
  assert (KnowledgeStore.the_index ks1 =
            KnowledgeStore.the_index (knowledge Model w)) as ->.
  { unfold KnowledgeStore.the_index at 1. by rewrite Hidx. }
  rewrite <- app_assoc. done.
Qed.

(** C6. Without hits the answer is the fixed no-results message in mode
    ["empty"], whatever the question and whether or not the language
    model was asked for: so says [answer_query], and so says the
    handler, which answers ["No results found."] itself, calls nothing
    and leaves the world as it is. *)
Theorem no_hits_mode_empty :
  (∀ question use_llm,
     QaAgent.answer_query complete summarize no_results question [] use_llm
       = QaAgent.mk no_results "empty") ∧
  (∀ payload (w : world),
     respond payload [] w =
       (Ok (ChatResponse.mk "No results found." "empty" [] None), w)).
Proof. split; [apply QaAgentFacts.answer_query_no_hits|apply respond_no_hits]. Qed.

(** C9. With hits at hand and no persisted model, the handler gives the
    text of the hit at position [i] the label at [i mod |LABELS|] of the
    vocabulary, has a model trained on all the hit texts with these
    labels and persisted, loads it again, and applies the prediction to
    the texts of the first three hits joined by single spaces; the
    response carries that prediction's label and score. *)
Theorem classifier_bootstrap payload hits (w : world) texts strs :
  model_file Model w = None →
  hits ≠ [] →
  LABELS ≠ [] →
  Forall2 (λ (hit : pydict) t, hit !! "text" = Some t) hits texts →
  take 3 texts = VStr <$> strs →
  ∃ labels model text response w',
    respond payload hits w = (Ok response, w') ∧
    length labels = length hits ∧
    (∀ i, (i < length hits)%nat →
          labels !! i = LABELS !! (i mod length LABELS)%nat) ∧
    model = train texts labels ∧
    text = String.concat " " strs ∧
    model_file Model w' = Some model ∧
    trace Model w' =
      trace Model w ++
        [CallAnswerQuery (ChatRequest.question payload) hits
           (ChatRequest.use_llm payload);
         CallLoadModel; CallFitAndSave texts labels; CallLoadModel;
         CallPredict text] ∧
    ChatResponse.classification response =
      Some (ClassificationInfo.mk (Classifier.label (predict text model))
                                  (Classifier.proba (predict text model))).
Proof.
  intros Hnone Hne Hlabels Htexts Hstrs.
  pose proof (classify_bootstrap_run hits
                (mkWorld Model (knowledge Model w) (model_file Model w)
                   (trace Model w ++
                      [CallAnswerQuery (ChatRequest.question payload) hits
                         (ChatRequest.use_llm payload)]))
                texts strs Hnone Hne Hlabels Htexts Hstrs) as Hclass.
  simpl in Hclass. rewrite <- app_assoc in Hclass. simpl in Hclass.
  set (labels := cyclic_labels (length hits)) in *.
  set (model := train texts labels) in *.
  set (text := String.concat " " strs) in *.
  set (qa_result := QaAgent.answer_query complete summarize no_results
         (ChatRequest.question payload) hits (ChatRequest.use_llm payload)).
  exists labels, model, text,
    (ChatResponse.mk (QaAgent.answer qa_result) (QaAgent.mode qa_result)
       (context_hit <$> hits)
       (Some (ClassificationInfo.mk (Classifier.label (predict text model))
                                    (Classifier.proba (predict text model))))),
    (mkWorld Model (knowledge Model w) (Some model)
       (trace Model w ++
          [CallAnswerQuery (ChatRequest.question payload) hits
             (ChatRequest.use_llm payload);
           CallLoadModel; CallFitAndSave texts labels; CallLoadModel;
           CallPredict text])).
  split_and!; try reflexivity.
  - destruct hits as [|hit hits]; [done|].
    unfold Api.respond, Py.bind at 1, call at 1, Py.modify.
    unfold Py.bind. by rewrite Hclass.
  - by unfold labels, Api.cyclic_labels; rewrite length_fmap, length_seq.
  - intros i Hi. by apply cyclic_labels_lookup.
Qed.

(** C10. The handler asks [is_empty] first.  On an empty store it raises
    the HTTP error 400 and has called nothing else; otherwise its next
    call is the search, and [answer_query] and the classifier come only
    after it.  A response of mode ["empty"] means that the store was
    not empty and that the search came back without hits. *)
Theorem empty_store_rejected_before_search payload (w : world) :
  ∃ r w' calls,
    ask_ai payload w = (r, w') ∧
    trace Model w' = trace Model w ++ calls ∧
    (size (KnowledgeStore.the_index (knowledge Model w)) = 0%nat →
       (∃ detail, r = Raise (HTTPException 400 detail)) ∧
       calls = [CallIsEmpty]) ∧
    (size (KnowledgeStore.the_index (knowledge Model w)) ≠ 0%nat →
       ∃ rest, calls = CallIsEmpty ::
                 CallSearch (ChatRequest.question payload)
                            (ChatRequest.top_k payload) :: rest ∧
               (hits_for embed similarity payload (knowledge Model w) = [] →
                rest = []) ∧
               (hits_for embed similarity payload (knowledge Model w) ≠ [] →
                ∃ rest', rest =
                  CallAnswerQuery (ChatRequest.question payload)
                    (hits_for embed similarity payload (knowledge Model w))
                    (ChatRequest.use_llm payload) :: CallLoadModel :: rest')) ∧
    (∀ response, r = Ok response →
       ChatResponse.mode response = "empty" →
       size (KnowledgeStore.the_index (knowledge Model w)) ≠ 0%nat ∧
       (KnowledgeStore.search embed similarity (ChatRequest.question payload)
          (ChatRequest.top_k payload) (knowledge Model w)).1 = Ok []).
Proof.
  destruct (ask_ai_run payload w) as (ks1 & Hens & Hrun).
  destruct (KnowledgeStoreFacts.search_run embed similarity
              (ChatRequest.question payload) (ChatRequest.top_k payload)
              (knowledge Model w)) as (ks2 & _ & Hsearch).
  fold (hits_for embed similarity payload (knowledge Model w)) in Hsearch.
  destruct (Nat.eqb _ 0) eqn:Hsize.
  { apply Nat.eqb_eq in Hsize.
    eexists _, _, _. split_and!; [exact Hrun|done|by eauto|done|done]. }
  apply Nat.eqb_neq in Hsize.
  set (hits := hits_for embed similarity payload (knowledge Model w)) in *.
  destruct (decide (hits = [])) as [Hnil|Hhits].
  - rewrite Hnil, respond_no_hits in Hrun.
    eexists _, _, _. split_and!; [exact Hrun|done|done| |].
    + intros _. eexists. split_and!; [done|done|done].
    + intros response _ _. split; [done|]. by rewrite Hsearch, Hnil.
  - destruct (respond payload hits _) as [r w'] eqn:Hresp.
    apply (respond_hits _ _ _ _ _ Hhits) in Hresp
      as (_ & [rest Htrace] & Hmode).
    simpl in Htrace. rewrite <- app_assoc in Htrace. simpl in Htrace.
    eexists _, _, _. split_and!; [exact Hrun|exact Htrace|done| |].
    + intros _. eexists. split_and!; [done|done|eauto].
    + intros response Hr Hempty. by destruct (Hmode response Hr).
Qed.

End Facts.
End ApiFacts.

(** ** The scenario of section 8, run *)

Module ScenarioFacts.
Import VectorIndex KnowledgeStore schemas.

Example add_file_perda_1 :
  (add_file Scenario.embed Scenario.build_chunks "perda-1.pdf" "perda-1"
     Scenario.fresh).1 = Ok 2.
Proof. vm_compute. reflexivity. Qed.

Example search_pasal_2 :
  ∃ hit ks',
    search Scenario.embed Scenario.similarity "Pasal 2" 1 Scenario.loaded
      = (Ok [hit], ks') ∧
    hit !! "doc_id" = Some (VStr "perda-1") ∧
    hit !! "chunk_index" = Some (VInt 2) ∧
    hit !! "text" = Some (VStr "Pasal 2: ...").
Proof. eexists _, _. split_and!; vm_compute; reflexivity. Qed.

Example add_texts_384_128 :
  add_texts Scenario.embed128 ["Pasal 1: ..."] [∅] (VectorIndex.new 384)
    = (Raise DimensionMismatch, VectorIndex.new 384).
Proof. vm_compute. reflexivity. Qed.

Example ask_ai_fresh :
  (Api.ask_ai Scenario.embed Scenario.similarity Scenario.complete_down
     Scenario.summarize "Tidak ada hasil." (list string) Scenario.train
     Scenario.predict Scenario.LABELS Scenario.payload
     Scenario.world_fresh).1
    = Raise (HTTPException 400
        "Knowledge base is empty. Admin needs to upload documents.").
Proof. vm_compute. reflexivity. Qed.

Example ask_ai_loaded :
  ∃ response w',
    Api.ask_ai Scenario.embed Scenario.similarity Scenario.complete_down
      Scenario.summarize "Tidak ada hasil." (list string) Scenario.train
      Scenario.predict Scenario.LABELS Scenario.payload
      Scenario.world_loaded = (Ok response, w') ∧
    ChatResponse.mode response = "llm_fallback" ∧
    ChatResponse.answer response = "Ringkasan: Pasal 2: ... Pasal 1: ..." ∧
    ChatResponse.classification response
      = Some (ClassificationInfo.mk "pajak" 1%Qc) ∧
    Api.model_file _ w' = Some ["pajak"; "retribusi"] ∧
    Api.trace _ w' =
      [Api.CallIsEmpty; Api.CallSearch "Pasal 2" 3;
       Api.CallAnswerQuery "Pasal 2" Scenario.hits true;
       Api.CallLoadModel;
       Api.CallFitAndSave [VStr "Pasal 2: ..."; VStr "Pasal 1: ..."]
         ["pajak"; "retribusi"];
       Api.CallLoadModel;
       Api.CallPredict "Pasal 2: ... Pasal 1: ..."].
Proof. eexists _, _. split_and!; vm_compute; reflexivity. Qed.

End ScenarioFacts.

(** ** The theorems at work on the scenario *)

Module Witnesses.
Import VectorIndex KnowledgeStore schemas.

Lemma index_never_partially_updated_witness :
  length ["Pasal 1: ..."] = length [(∅ : pydict)] ∧
  Exists (λ t, length (Scenario.embed128 t) ≠ VectorIndex.dim (VectorIndex.new 384))
         ["Pasal 1: ..."] ∧
  ∃ idx', add_texts Scenario.embed128 ["Pasal 1: ..."] [∅] (VectorIndex.new 384)
            = (Raise DimensionMismatch, idx') ∧
          size idx' = size (VectorIndex.new 384) ∧ idx' = VectorIndex.new 384.
Proof.
  assert (Exists (λ t, length (Scenario.embed128 t) ≠ VectorIndex.dim (VectorIndex.new 384))
            ["Pasal 1: ..."]) as Hbad.
  { apply Exists_cons_hd. vm_compute. discriminate. }
  split_and!; [reflexivity|exact Hbad|].
  exact (proj2 (proj2 (proj2
           (KnowledgeStoreFacts.index_never_partially_updated
              Scenario.embed128 Scenario.similarity Scenario.build_chunks)))
           ["Pasal 1: ..."] [∅] (VectorIndex.new 384) eq_refl Hbad).
Defined.

Lemma add_file_returns_chunk_count_witness :
  Scenario.build_chunks "perda-1.pdf" "perda-1" = Ok (Scenario.chunks "perda-1") ∧
  ∃ ks', add_file Scenario.embed Scenario.build_chunks "perda-1.pdf" "perda-1"
           Scenario.fresh = (Ok 2, ks').
Proof.
  split; [reflexivity|].
  apply (proj2 (proj2
           (KnowledgeStoreFacts.add_file_returns_chunk_count
              Scenario.embed Scenario.build_chunks "perda-1.pdf" "perda-1"
              Scenario.fresh (Scenario.chunks "perda-1") eq_refl))).
  repeat constructor.
Defined.

Lemma add_file_chunk_index_doc_id_witness :
  ∃ inserted : list pydict,
    metadata (the_index Scenario.loaded) =
      metadata (the_index Scenario.fresh) ++ inserted ∧
    length inserted = 2%nat ∧
    (∀ i c, Scenario.chunks "perda-1" !! i = Some c →
       ∃ m, inserted !! i = Some m ∧
            m !! "chunk_index" = Some (VInt (Z.of_nat i + 1)) ∧
            m !! "doc_id" = Some (VStr (doc_id c))) ∧
    (Forall (λ c, doc_id c = "perda-1") (Scenario.chunks "perda-1") →
     Forall (λ m, m !! "doc_id" = Some (VStr "perda-1")) inserted).
Proof.
  apply (KnowledgeStoreFacts.add_file_chunk_index_doc_id
           Scenario.embed Scenario.build_chunks "perda-1.pdf" "perda-1"
           Scenario.fresh (Scenario.chunks "perda-1") 2 Scenario.loaded).
  - reflexivity.
  - discriminate.
  - vm_compute. reflexivity.
Defined.

Lemma search_at_most_k_ranked_witness :
  ∃ (tops : list candidate) (hits : list pydict) ks',
    search Scenario.embed Scenario.similarity "Pasal 2" 1 Scenario.loaded
      = (Ok hits, ks') ∧
    length hits = 1%nat ∧
    hits = (λ c, enrich (score c, record c)) <$> tops.
Proof.
  destruct (KnowledgeStoreFacts.search_at_most_k_ranked
              Scenario.embed Scenario.similarity "Pasal 2" 1 Scenario.loaded)
    as (tops & hits & ks' & Hrun & _ & _ & Hhits & Hlen & _).
  - lia.
  - vm_compute. reflexivity.
  - exists tops, hits, ks'. split_and!; [exact Hrun|exact Hlen|exact Hhits].
Defined.



Lemma load_failure_never_surfaces_witness :
  _index Scenario.fresh = None ∧
  load_fails (dim Scenario.fresh) (index_dir Scenario.fresh) = true ∧
  is_empty Scenario.fresh =
    (Ok true, set_index (VectorIndex.new 2)
                (log_warning IndexLoadFailure Scenario.fresh)) ∧
  search Scenario.embed Scenario.similarity "Pasal 2" 3 Scenario.fresh =
    (Ok [], set_index (VectorIndex.new 2)
              (log_warning IndexLoadFailure Scenario.fresh)).
Proof.
  destruct (proj2 (KnowledgeStoreFacts.load_failure_never_surfaces
                     Scenario.embed Scenario.similarity Scenario.build_chunks)
              Scenario.fresh eq_refl eq_refl)
    as (_ & _ & _ & Hempty & Hsearch & _).
  split_and!; [reflexivity|reflexivity|exact Hempty|exact (Hsearch "Pasal 2" 3)].
Defined.

Lemma classifier_bootstrap_witness :
  ∃ response w',
    Api.respond Scenario.complete_down Scenario.summarize "Tidak ada hasil."
      (list string) Scenario.train Scenario.predict Scenario.LABELS
      Scenario.payload Scenario.hits Scenario.world_loaded = (Ok response, w') ∧
    Api.model_file _ w' =
      Some (Scenario.train [VStr "Pasal 2: ..."; VStr "Pasal 1: ..."]
              ["pajak"; "retribusi"]) ∧
    Api.trace _ w' =
      [Api.CallAnswerQuery "Pasal 2" Scenario.hits true;
       Api.CallLoadModel;
       Api.CallFitAndSave [VStr "Pasal 2: ..."; VStr "Pasal 1: ..."]
         ["pajak"; "retribusi"];
       Api.CallLoadModel;
       Api.CallPredict "Pasal 2: ... Pasal 1: ..."].
Proof.
  destruct (ApiFacts.classifier_bootstrap
              Scenario.complete_down Scenario.summarize "Tidak ada hasil."
              (list string) Scenario.train Scenario.predict Scenario.LABELS
              Scenario.payload Scenario.hits Scenario.world_loaded
              [VStr "Pasal 2: ..."; VStr "Pasal 1: ..."]
              ["Pasal 2: ..."; "Pasal 1: ..."])
    as (labels & model & text & response & w' & Hrun & Hlen & Hlabels
        & -> & -> & Hfile & Htrace & _).
  - reflexivity.
  - vm_compute. discriminate.
  - discriminate.
  - vm_compute. repeat constructor.
  - reflexivity.
  - assert (labels = ["pajak"; "retribusi"]) as ->.
    { apply list_eq. intros i.
      destruct (decide (i < 2)%nat) as [Hi|Hi].
      - rewrite (Hlabels i Hi).
        destruct i as [|[|i]]; [reflexivity|reflexivity|lia].
      - rewrite !lookup_ge_None_2; [done|simpl; lia|].
        change (length Scenario.hits) with 2%nat in Hlen. lia. }
    exists response, w'. split_and!; [exact Hrun|exact Hfile|exact Htrace].
Defined.

Lemma empty_store_rejected_before_search_witness :
  ∃ r w',
    Api.ask_ai Scenario.embed Scenario.similarity Scenario.complete_down
      Scenario.summarize "Tidak ada hasil." (list string) Scenario.train
      Scenario.predict Scenario.LABELS Scenario.payload Scenario.world_fresh
      = (r, w') ∧
    (∃ detail, r = Raise (HTTPException 400 detail)) ∧
    Api.trace _ w' = [Api.CallIsEmpty].
Proof.
  destruct (ApiFacts.empty_store_rejected_before_search
              Scenario.embed Scenario.similarity Scenario.complete_down
              Scenario.summarize "Tidak ada hasil." (list string)
              Scenario.train Scenario.predict Scenario.LABELS
              Scenario.payload Scenario.world_fresh)
    as (r & w' & calls & Hrun & Htrace & Hempty & _).
  destruct (Hempty eq_refl) as [Hr ->].
  exists r, w'. split_and!; [exact Hrun|exact Hr|exact Htrace].
Defined.

End Witnesses.

(** ** Properties of the stored file names *)

Module PyStrFacts.
Import PyStr.

Lemma lstrip_list_incl p l ch : ch ∈ lstrip_list p l → ch ∈ l.
Proof.
  induction l as [|x l IH]; simpl; [done|].
  destruct (p x); [|done]. intros Hin. right. by apply IH.
Qed.

Lemma lstrip_list_head p l ch l' :
  lstrip_list p l = ch :: l' → p ch = false.
Proof.
  induction l as [|x l IH]; simpl; [done|].
  destruct (p x) eqn:Hx; [done|]. by intros [= <- _].
Qed.

Lemma lstrip_list_id p l :
  (∀ ch, head l = Some ch → p ch = false) → lstrip_list p l = l.
Proof.
  destruct l as [|x l]; simpl; [done|].
  intros Hhead. by rewrite (Hhead x).
Qed.

Lemma lstrip_list_all p l :
  Forall (λ ch, p ch = true) l → lstrip_list p l = [].
Proof. induction 1 as [|x l Hx _ IH]; simpl; [done|]. by rewrite Hx. Qed.

(** Stripping on the left keeps the last character of what is left. *)
Lemma lstrip_list_last p l :
  lstrip_list p l ≠ [] → last (lstrip_list p l) = last l.
Proof.
  induction l as [|x l IH]; simpl; [done|].
  destruct (p x); [|done]. intros Hne. rewrite IH by done.
  destruct l; [done|]. done.
Qed.

Lemma strip_list_incl p l ch : ch ∈ strip_list p l → ch ∈ l.
Proof.
  unfold strip_list. rewrite elem_of_reverse. intros Hin.
  apply lstrip_list_incl in Hin. rewrite elem_of_reverse in Hin.
  by apply lstrip_list_incl in Hin.
Qed.

Lemma strip_list_last p l ch :
  last (strip_list p l) = Some ch → p ch = false.
Proof.
  unfold strip_list. rewrite last_reverse.
  destruct (lstrip_list p (reverse (lstrip_list p l))) as [|x r] eqn:Hr; [done|].
  simpl. intros [= <-]. by apply lstrip_list_head in Hr.
Qed.

Lemma strip_list_head p l ch :
  head (strip_list p l) = Some ch → p ch = false.
Proof.
  unfold strip_list. rewrite head_reverse.
  destruct (lstrip_list p l) as [|x r] eqn:Hl.
  { simpl. done. }
  intros Hlast.
  destruct (decide (lstrip_list p (reverse (x :: r)) = [])) as [Hnil|Hne].
  { rewrite Hnil in Hlast. done. }
  rewrite (lstrip_list_last _ _ Hne), last_reverse in Hlast.
  simpl in Hlast. injection Hlast as <-.
  by apply lstrip_list_head in Hl.
Qed.

Lemma strip_list_id p l :
  (∀ ch, head l = Some ch → p ch = false) →
  (∀ ch, last l = Some ch → p ch = false) →
  strip_list p l = l.
Proof.
  intros Hhead Hlast. unfold strip_list.
  rewrite (lstrip_list_id p l Hhead).
  rewrite (lstrip_list_id p (reverse l)); [apply reverse_involutive|].
  intros ch. rewrite head_reverse. apply Hlast.
Qed.

Lemma strip_list_all p l :
  Forall (λ ch, p ch = true) l → strip_list p l = [].
Proof.
  intros Hall. unfold strip_list. by rewrite (lstrip_list_all p l Hall).
Qed.

Lemma string_of_list_ascii_nil l :
  string_of_list_ascii l = "" ↔ l = [].
Proof. destruct l; simpl; split; done. Qed.

End PyStrFacts.

Module FilenamesFacts.
Import PyStr Filenames.

Section Facts.
Variable isalnum_other : ascii → bool.

Local Abbreviation kept := (kept isalnum_other).
Local Abbreviation _sanitize_filename := (_sanitize_filename isalnum_other).

(** The characters of a string. *)
Local Abbreviation chars := list_ascii_of_string.

Local Abbreviation replaced := (replaced isalnum_other).

Lemma kept_underscore : kept "_" = true.
Proof. unfold Filenames.kept. by rewrite orb_true_r. Qed.

Lemma replaced_kept name : Forall (λ ch, kept ch = true) (replaced name).
Proof.
  apply Forall_fmap, Forall_forall. intros ch _; simpl.
  destruct (kept ch) eqn:Hch; [done|apply kept_underscore].
Qed.

Lemma sanitize_unfold name :
  _sanitize_filename name =
    match strip_list edge (replaced name) with
    | [] => "upload"
    | l => string_of_list_ascii l
    end.
Proof.
  unfold Filenames._sanitize_filename, strip.
  rewrite list_ascii_of_string_of_list_ascii.
  fold (replaced name). fold edge.
  by destruct (strip_list edge (replaced name)).
Qed.

Lemma upload_kept : Forall (λ ch, kept ch = true) (chars "upload").
Proof. repeat constructor. Qed.


Lemma sanitize_chars name :
  chars (_sanitize_filename name) =
    match strip_list edge (replaced name) with
    | [] => chars "upload"
    | l => l
    end.
Proof.
  rewrite sanitize_unfold.
  destruct (strip_list edge (replaced name)) as [|ch l]; [done|].
  by rewrite list_ascii_of_string_of_list_ascii.
Qed.

(** A name that is already clean comes back as it is. *)
Lemma sanitize_clean name :
  name ≠ "" →
  Forall (λ ch, kept ch = true) (chars name) →
  (∀ ch, head (chars name) = Some ch → edge ch = false) →
  (∀ ch, last (chars name) = Some ch → edge ch = false) →
  _sanitize_filename name = name.
Proof.
  intros Hne Hkept Hhead Hlast. rewrite sanitize_unfold.
  assert (replaced name = chars name) as ->.
  { unfold Filenames.replaced.
    rewrite <- (list_fmap_id (chars name)) at 2.
    apply Forall_fmap_ext_1. eapply Forall_impl; [exact Hkept|].
    intros ch Hch; simpl. by rewrite Hch. }
  rewrite PyStrFacts.strip_list_id by done.
  destruct (chars name) as [|ch l] eqn:Hchars.
  - destruct name; [done|discriminate].
  - rewrite <- Hchars. apply string_of_list_ascii_of_string.
Qed.

Lemma sanitize_kept name :
  Forall (λ ch, kept ch = true) (chars (_sanitize_filename name)).
Proof.
  rewrite sanitize_chars.
  destruct (strip_list edge (replaced name)) as [|ch l] eqn:Hstrip.
  - apply upload_kept.
  - rewrite <- Hstrip. apply Forall_forall. intros x Hx.
    apply PyStrFacts.strip_list_incl in Hx.
    pose proof (replaced_kept name) as Hall.
    rewrite Forall_forall in Hall. by apply Hall.
Qed.

Lemma sanitize_head name ch :
  head (chars (_sanitize_filename name)) = Some ch → edge ch = false.
Proof.
  rewrite sanitize_chars.
  destruct (strip_list edge (replaced name)) as [|x l] eqn:Hstrip.
  - by intros [= <-].
  - rewrite <- Hstrip. apply PyStrFacts.strip_list_head.
Qed.

Lemma sanitize_last name ch :
  last (chars (_sanitize_filename name)) = Some ch → edge ch = false.
Proof.
  rewrite sanitize_chars.
  destruct (strip_list edge (replaced name)) as [|x l] eqn:Hstrip.
  - by intros [= <-].
  - rewrite <- Hstrip. apply PyStrFacts.strip_list_last.
Qed.

Lemma sanitize_not_empty name : _sanitize_filename name ≠ "".
Proof.
  rewrite sanitize_unfold.
  by destruct (strip_list edge (replaced name)).
Qed.

(** X1. The sanitized name is never empty, and it neither starts nor ends
    with a dot or an underscore. *)
Theorem sanitize_filename_nonempty_edges name :
  _sanitize_filename name ≠ "" ∧
  (∀ ch, head (chars (_sanitize_filename name)) = Some ch →
         ch ≠ "."%char ∧ ch ≠ "_"%char) ∧
  (∀ ch, last (chars (_sanitize_filename name)) = Some ch →
         ch ≠ "."%char ∧ ch ≠ "_"%char).
Proof.
  split_and!.
  - apply sanitize_not_empty.
  - intros ch Hch%sanitize_head. split; intros ->; discriminate.
  - intros ch Hch%sanitize_last. split; intros ->; discriminate.
Qed.

(** X2. Every character of the sanitized name is alphanumeric or one of
    [.], [_] and [-]; the name holds no slash, no backslash, no colon, no
    blank and no NUL. *)
Theorem sanitize_filename_alphabet name :
  Forall (λ ch, isalnum isalnum_other ch = true ∨
                ch = "."%char ∨ ch = "_"%char ∨ ch = "-"%char)
         (chars (_sanitize_filename name)) ∧
  Forall (λ ch, (ch ∉ chars "/\: ") ∧ ch ≠ "000"%char)
         (chars (_sanitize_filename name)).
Proof.
  pose proof (sanitize_kept name) as Hkept. split.
  - eapply Forall_impl; [exact Hkept|]. intros ch; simpl.
    unfold Filenames.kept. intros [Halnum|Hmem]%orb_true_iff; [by left|right].
    unfold mem in Hmem. simpl in Hmem.
    repeat (apply orb_true_iff in Hmem as [Heq|Hmem];
            [apply Ascii.eqb_eq in Heq; auto|]).
    done.
  - eapply Forall_impl; [exact Hkept|]. intros ch Hch; simpl in Hch.
    split.
    + intros Hin. simpl in Hin.
      repeat (apply elem_of_cons in Hin as [->|Hin]; [discriminate Hch|]).
      by apply elem_of_nil in Hin.
    + intros ->. discriminate Hch.
Qed.

(** X3. Sanitizing is idempotent. *)
Theorem sanitize_filename_idempotent name :
  _sanitize_filename (_sanitize_filename name) = _sanitize_filename name.
Proof.
  apply sanitize_clean.
  - apply sanitize_not_empty.
  - apply sanitize_kept.
  - apply sanitize_head.
  - apply sanitize_last.
Qed.

(** X4. A name without any alphanumeric character and without a hyphen,
    the empty name among them, is stored as [upload]. *)
Theorem sanitize_filename_fallback name :
  Forall (λ ch, isalnum isalnum_other ch = false ∧ ch ≠ "-"%char)
         (chars name) →
  _sanitize_filename name = "upload".
Proof.
  intros Hall. rewrite sanitize_unfold.
  rewrite PyStrFacts.strip_list_all; [done|].
  apply Forall_fmap. eapply Forall_impl; [exact Hall|].
  intros ch [Halnum Hhyphen]; simpl.
  unfold Filenames.kept. rewrite Halnum; simpl.
  unfold mem; simpl.
  destruct (Ascii.eqb_spec ch "."); [by subst|].
  destruct (Ascii.eqb_spec ch "_"); [by subst|].
  destruct (Ascii.eqb_spec ch "-"); [done|]. done.
Qed.

End Facts.
End FilenamesFacts.

(** ** Properties of the database session *)

Module DbFacts.
Import models Db.

Lemma find_existsb {A} (p : A → bool) (l : list A) :
  existsb p l = false ↔ List.find p l = None.
Proof.
  induction l as [|x l IH]; simpl; [done|].
  destruct (p x); simpl; [split; discriminate|done].
Qed.


Lemma find_elem {A} (p : A → bool) (l : list A) x :
  List.find p l = Some x → x ∈ l ∧ p x = true.
Proof.
  intros [Hin Hp]%find_some. split; [by apply list_elem_of_In|done].
Qed.

Lemma existsb_fmap_not_elem {A} (f : A → string) (l : list A) v :
  existsb (λ x, String.eqb (f x) v) l = false ↔ v ∉ f <$> l.
Proof.
  induction l as [|x l IH]; simpl.
  - split; [intros _; apply not_elem_of_nil|done].
  - rewrite not_elem_of_cons, orb_false_iff, IH, String.eqb_neq.
    split; intros [H1 H2]; split; done || congruence.
Qed.

Lemma first_user_run p db :
  first_user p db = (Web.Val (List.find p (users db)), db).
Proof. done. Qed.

Lemma add_user_run username email hashed role is_active db :
  add_user username email hashed role is_active db =
    if username_taken db username || email_taken db email then
      (Web.Exc Web.IntegrityError, db)
    else
      let user := User.mk (next_id (User.id <$> users db)) username email
                    hashed role is_active (utcnow db) in
      (Web.Val user, mk (users db ++ [user]) (documents db) (utcnow db)).
Proof. done. Qed.

Lemma add_user_unique username email hashed role is_active db :
  unique_users db →
  unique_users (add_user username email hashed role is_active db).2.
Proof.
  intros [Hnames Hemails]. rewrite add_user_run.
  destruct (username_taken db username) eqn:Hname; simpl; [done|].
  destruct (email_taken db email) eqn:Hemail; simpl; [done|].
  apply existsb_fmap_not_elem in Hname, Hemail.
  unfold unique_users; simpl. rewrite !fmap_app; simpl. split.
  - apply NoDup_app. split_and!; [done| |apply NoDup_singleton].
    intros x Hx ->%list_elem_of_singleton. done.
  - apply NoDup_app. split_and!; [done| |apply NoDup_singleton].
    intros x Hx ->%list_elem_of_singleton. done.
Qed.

(** The new key is larger than every key in use. *)
Lemma next_id_fresh ids i : i ∈ ids → i < next_id ids.
Proof.
  unfold next_id. induction ids as [|j ids IH]; simpl.
  - by intros ?%elem_of_nil.
  - intros [->|Hin]%elem_of_cons; [lia|]. specialize (IH Hin). lia.
Qed.

End DbFacts.

(** ** Properties of the authentication *)

Module authFacts.
Import models auth.

Section Facts.
Variable hash_password : nat → string → string.
Variable verify_password : string → string → bool.
Variable jwt_encode : TokenPayload → string.
Variable jwt_decode : string → decoded.
Variable ACCESS_TOKEN_EXPIRE_MINUTES : Z.

Local Abbreviation authenticate_user := (authenticate_user verify_password).
Local Abbreviation get_current_user := (get_current_user jwt_decode).
Local Abbreviation by_username :=
  (λ (name : string) (db : Db.t),
     List.find (λ u, String.eqb (User.username u) name) (Db.users db)).

Lemma authenticate_user_run username password db :
  authenticate_user username password db =
    (match by_username username db with
     | None => Web.Val None
     | Some u =>
         if negb (verify_password password (User.hashed_password u)) then
           Web.Val None
         else if negb (active u) then
           Web.Exc (Web.HTTPException 403 "Inactive user")
         else Web.Val (Some u)
     end, db).
Proof.
  unfold auth.authenticate_user, Web.bind. rewrite DbFacts.first_user_run.
  destruct (List.find _ _) as [u|]; [|done].
  destruct (negb (verify_password _ _)); [done|].
  by destruct (negb (active u)).
Qed.

(** X5. [authenticate_user] never writes.  It returns a user exactly when
    the first row with that username verifies the password and is active;
    it raises, with status 403, only for an inactive account whose
    password was right; a wrong password gives [None] whatever the state
    of the account. *)
Theorem authenticate_user_outcome username password db :
  ∃ r, authenticate_user username password db = (r, db) ∧
    (∀ u, r = Web.Val (Some u) ↔
          by_username username db = Some u ∧
          verify_password password (User.hashed_password u) = true ∧
          active u = true) ∧
    (∀ e, r = Web.Exc e ↔
          e = Web.HTTPException 403 "Inactive user" ∧
          ∃ u, by_username username db = Some u ∧
               verify_password password (User.hashed_password u) = true ∧
               active u = false) ∧
    ((∀ u, by_username username db = Some u →
           verify_password password (User.hashed_password u) = false) →
     r = Web.Val None).
Proof.
  rewrite authenticate_user_run. eexists; split; [done|].
  destruct (by_username username db) as [u|] eqn:Hfind.
  - destruct (verify_password password (User.hashed_password u)) eqn:Hpw;
      simpl; [destruct (active u) eqn:Hact; simpl|].
    + split_and!.
      * intros u'. split; [by intros [= <-]|by intros ([= <-] & _ & _)].
      * intros e. split; [done|]. intros (_ & u' & [= <-] & _ & ?). congruence.
      * intros Hbad. specialize (Hbad u eq_refl). congruence.
    + split_and!.
      * intros u'. split; [done|]. intros ([= <-] & _ & ?). congruence.
      * intros e. split; [intros [= <-]; eauto|by intros [-> _]].
      * intros Hbad. specialize (Hbad u eq_refl). congruence.
    + split_and!.
      * intros u'. split; [done|]. intros ([= <-] & ? & _). congruence.
      * intros e. split; [done|]. intros (_ & u' & [= <-] & ? & _). congruence.
      * done.
  - split_and!.
    + intros u. split; [done|]. by intros (? & _).
    + intros e. split; [done|]. by intros (_ & u & ? & _).
    + done.
Qed.

Lemma get_current_user_cases credentials db :
  ∃ r, get_current_user credentials db = (r, db) ∧
    (∀ u, r = Web.Val u →
       ∃ token claims,
         credentials = Some token ∧ jwt_decode token = Claims claims ∧
         sub claims = Some (User.username u) ∧
         u ∈ Db.users db ∧ active u = true) ∧
    (∀ e, r = Web.Exc e →
       e = Web.HTTPException 403 "Inactive user" ∨
       (∃ detail, e = Web.HTTPException 401 detail) ∨
       (∃ token, credentials = Some token ∧ jwt_decode token = Raises e)) ∧
    (∀ token e, credentials = Some token → jwt_decode token = Raises e →
                r = Web.Exc e).
Proof.
  assert (∀ detail,
    (∀ token e, credentials = Some token → jwt_decode token ≠ Raises e) →
    ∃ r, Web.raise (Web.HTTPException 401 detail) db = (r, db) ∧
      (∀ u : User.t, r = Web.Val u →
         ∃ token claims,
           credentials = Some token ∧ jwt_decode token = Claims claims ∧
           sub claims = Some (User.username u) ∧
           u ∈ Db.users db ∧ active u = true) ∧
      (∀ e, r = Web.Exc e →
         e = Web.HTTPException 403 "Inactive user" ∨
         (∃ detail, e = Web.HTTPException 401 detail) ∨
         (∃ token, credentials = Some token ∧ jwt_decode token = Raises e)) ∧
      (∀ token e, credentials = Some token → jwt_decode token = Raises e →
                  r = Web.Exc e)) as Hunauthorized.
  { intros detail Hcaught. eexists; split_and!; [done|done| |].
    - intros e [= <-]. right. left. eauto.
    - intros token e Hcred Hdec. by destruct (Hcaught token e Hcred). }
  unfold auth.get_current_user.
  destruct credentials as [token|]; [|by apply Hunauthorized].
  destruct (jwt_decode token) as [claims| |e'] eqn:Hdec.
  - assert (∀ token' e, Some token = Some token' →
                        jwt_decode token' ≠ Raises e) as Hcaught.
    { intros token' e [= <-]. by rewrite Hdec. }
    destruct (sub claims) as [name|] eqn:Hsub; [|by apply Hunauthorized].
    unfold Web.bind. rewrite DbFacts.first_user_run.
    destruct (List.find _ _) as [u|] eqn:Hfind; [|by apply Hunauthorized].
    apply DbFacts.find_elem in Hfind as [Hin Hname].
    apply String.eqb_eq in Hname.
    destruct (active u) eqn:Hact; simpl.
    + eexists; split_and!; [done| |done|].
      * intros u' [= <-]. exists token, claims. by rewrite Hname.
      * intros token' e Hcred Hraised. by destruct (Hcaught token' e Hcred).
    + eexists; split_and!; [done|done| |].
      * intros e [= <-]. by left.
      * intros token' e Hcred Hraised. by destruct (Hcaught token' e Hcred).
  - apply Hunauthorized. intros token' e [= <-]. by rewrite Hdec.
  - eexists; split_and!; [done|done| |].
    + intros e [= <-]. right. right. eauto.
    + intros token' e [= <-]. rewrite Hdec. by intros [= <-].
Qed.

(** X6. [get_current_user] never writes.  The user it returns is a row of
    the table, active, whose username is the [sub] of the decoded token.
    A failure is an HTTP error, 403 for an inactive account and 401 for
    the others, unless decoding the token raised something that is no
    [JWTError]: that exception is not caught and leaves the function as
    it is. *)
Theorem get_current_user_sound credentials db :
  ∃ r, get_current_user credentials db = (r, db) ∧
    (∀ u, r = Web.Val u →
       ∃ token claims,
         credentials = Some token ∧ jwt_decode token = Claims claims ∧
         sub claims = Some (User.username u) ∧
         u ∈ Db.users db ∧ active u = true) ∧
    (∀ e, r = Web.Exc e →
       e = Web.HTTPException 403 "Inactive user" ∨
       (∃ detail, e = Web.HTTPException 401 detail) ∨
       (∃ token, credentials = Some token ∧ jwt_decode token = Raises e)) ∧
    (∀ token e, credentials = Some token → jwt_decode token = Raises e →
                r = Web.Exc e).
Proof. apply get_current_user_cases. Qed.

Local Abbreviation create_access_token :=
  (create_access_token jwt_encode ACCESS_TOKEN_EXPIRE_MINUTES).
(** The lifetime a call asks for: the duration given, or the default for
    one that is absent or zero. *)
Local Abbreviation asks_for expires_delta delta :=
  ((expires_delta = Some delta ∧ delta ≠ 0) ∨
   (delta = 60000000 * ACCESS_TOKEN_EXPIRE_MINUTES ∧
    (expires_delta = None ∨ expires_delta = Some 0))).


(** X7. [create_access_token] takes a duration of zero for an absent one.
    When it returns, the token carries the subject and, as [exp], the
    whole seconds of now plus the lifetime asked for, which is a
    [datetime]; [exp] is later than now for a lifetime of a second or
    more (for a shorter one the dropped microseconds can leave it at or
    before now).  It raises nothing but [OverflowError], and raises it
    whenever now plus the lifetime is past the last [datetime]. *)
Theorem create_access_token_expires_later now subject expires_delta :
  create_access_token now subject (Some 0) =
    create_access_token now subject None ∧
  (∀ token,
     create_access_token now subject expires_delta = Web.Val token →
     ∃ delta exp,
       asks_for expires_delta delta ∧
       token = jwt_encode (mkTokenPayload (Some subject) (Some exp)) ∧
       1000000 * exp ≤ now + delta < 1000000 * (exp + 1) ∧
       datetime_min ≤ now + delta ≤ datetime_max ∧
       (1000000 ≤ delta → now < 1000000 * exp)) ∧
  (∀ e, create_access_token now subject expires_delta = Web.Exc e →
        e = Web.OverflowError) ∧
  (∀ delta, asks_for expires_delta delta →
            datetime_max < now + delta →
            create_access_token now subject expires_delta =
              Web.Exc Web.OverflowError).
Proof.
  assert (∀ d, timedelta_minutes ACCESS_TOKEN_EXPIRE_MINUTES = Web.Val d →
               d = 60000000 * ACCESS_TOKEN_EXPIRE_MINUTES) as Hdefault.
  { unfold timedelta_minutes. cbn zeta. intros d.
    destruct (_ && _); [by intros [= <-]|done]. }
  assert (∀ e, timedelta_minutes ACCESS_TOKEN_EXPIRE_MINUTES = Web.Exc e →
               e = Web.OverflowError) as Hdefault_exc.
  { unfold timedelta_minutes. cbn zeta. intros e.
    destruct (_ && _); [done|by intros [= <-]]. }
  assert (∀ r delta,
    asks_for expires_delta delta →
    match expires_delta with
    | Some d =>
        if d =? 0 then timedelta_minutes ACCESS_TOKEN_EXPIRE_MINUTES
        else Web.Val d
    | None => timedelta_minutes ACCESS_TOKEN_EXPIRE_MINUTES
    end = r →
    r = Web.Val delta ∨ r = Web.Exc Web.OverflowError) as Hchoice.
  { intros r delta [[-> Hnz]|[Hdelta Hnone]].
    - destruct (Z.eqb_spec delta 0); [done|]. intros <-. by left.
    - assert (timedelta_minutes ACCESS_TOKEN_EXPIRE_MINUTES = r →
              r = Web.Val delta ∨ r = Web.Exc Web.OverflowError) as Hr.
      { intros <-.
        destruct (timedelta_minutes ACCESS_TOKEN_EXPIRE_MINUTES) as [d|e]
          eqn:Hd.
        - left. by rewrite (Hdefault d eq_refl), Hdelta.
        - right. by rewrite (Hdefault_exc e eq_refl). }
      by destruct Hnone as [->| ->]. }
  assert (∃ delta, asks_for expires_delta delta) as [delta Hasks].
  { destruct expires_delta as [d|]; [|eauto 6].
    destruct (decide (d = 0)) as [->|Hnz]; eauto 6. }
  split_and!.
  - done.
  - intros token. unfold auth.create_access_token.
    destruct (Hchoice _ delta Hasks eq_refl) as [-> | ->]; [|done].
    simpl. unfold datetime_add, timegm. cbn zeta.
    destruct (Z.leb_spec datetime_min (now + delta)); [|done].
    destruct (Z.leb_spec (now + delta) datetime_max); [|done].
    simpl. intros [= <-]. exists delta, ((now + delta) / 1000000).
    pose proof (Z.mul_div_le (now + delta) 1000000).
    pose proof (Z.mul_succ_div_gt (now + delta) 1000000).
    split_and!; [done|done|lia|lia|lia|lia|lia].
  - intros e. unfold auth.create_access_token.
    destruct (Hchoice _ delta Hasks eq_refl) as [-> | ->];
      [|by intros [= <-]].
    simpl. unfold datetime_add. cbn zeta.
    destruct (_ && _); [done|by intros [= <-]].
  - intros delta' Hasks' Hpast. unfold auth.create_access_token.
    destruct (Hchoice _ delta' Hasks' eq_refl) as [-> | ->]; [|done].
    simpl. unfold datetime_add. cbn zeta.
    destruct (Z.leb_spec (now + delta') datetime_max); [lia|].
    by rewrite andb_false_r.
Qed.

End Facts.
End authFacts.

(** ** Properties of the routes over users *)

Module UsersFacts.
Import VectorIndex models schemas2 Server Routes.

Section Facts.
Variable hash_password : nat → string → string.
Variable verify_password : string → string → bool.
Variable jwt_encode : auth.TokenPayload → string.
Variable jwt_decode : string → auth.decoded.
Variable ACCESS_TOKEN_EXPIRE_MINUTES : Z.

Local Abbreviation login :=
  (login verify_password jwt_encode ACCESS_TOKEN_EXPIRE_MINUTES).
Local Abbreviation register_user := (register_user hash_password).
Local Abbreviation create_user := (create_user hash_password).
Local Abbreviation seed_admin := (auth.seed_admin hash_password).

Local Abbreviation new_user := (new_user hash_password).

Lemma on_db_same {A} (c : Web.M Db.t A) (w : world) r :
  c (db w) = (r, db w) → on_db c w = (r, w).
Proof. unfold on_db. intros ->. by destruct w. Qed.

Lemma refuse_taken_run suffix username email d :
  refuse_taken suffix [("username", username); ("email", email)] d =
    (if Db.username_taken d username then
       Web.Exc (Web.HTTPException 400 ("username" ++ suffix)%string)
     else if Db.email_taken d email then
       Web.Exc (Web.HTTPException 400 ("email" ++ suffix)%string)
     else Web.Val tt, d).
Proof.
  unfold refuse_taken, Web.for_each, Web.bind, Db.first_user, Web.gets,
    Web.ret, Web.raise.
  cbn [fst snd].
  unfold Db.username_taken, Db.email_taken.
  change (λ u, String.eqb (getattr "username" u) username)
    with (λ u, String.eqb (User.username u) username).
  change (λ u, String.eqb (getattr "email" u) email)
    with (λ u, String.eqb (User.email u) email).
  destruct (List.find (λ u, String.eqb (User.username u) username) _)
    as [u|] eqn:Hname.
  - apply find_some in Hname as [Hin Hu].
    assert (existsb (λ u, String.eqb (User.username u) username) (Db.users d)
              = true) as ->; [|done].
    apply existsb_exists. eauto.
  - apply DbFacts.find_existsb in Hname as ->.
    destruct (List.find (λ u, String.eqb (User.email u) email) _)
      as [u|] eqn:Hemail.
    + apply find_some in Hemail as [Hin Hu].
      assert (existsb (λ u, String.eqb (User.email u) email) (Db.users d)
                = true) as ->; [|done].
      apply existsb_exists. eauto.
    + by apply DbFacts.find_existsb in Hemail as ->.
Qed.

(** What the insertion of a checked account comes to. *)
Lemma insert_checked_run suffix username email password role (w : world) :
  Web.bind
    (on_db (refuse_taken suffix [("username", username); ("email", email)]))
    (λ _, Web.bind draw
       (λ salt, on_db (Db.add_user username email
                         (hash_password salt password) role (Some true)))) w =
    if Db.username_taken (db w) username then
      (Web.Exc (Web.HTTPException 400 ("username" ++ suffix)%string), w)
    else if Db.email_taken (db w) email then
      (Web.Exc (Web.HTTPException 400 ("email" ++ suffix)%string), w)
    else
      let u := new_user w username email password role in
      (Web.Val u, with_user u w).
Proof.
  unfold Web.bind.
  rewrite (on_db_same _ w _ (refuse_taken_run suffix username email (db w))).
  destruct (Db.username_taken (db w) username) eqn:Hname; [done|].
  destruct (Db.email_taken (db w) email) eqn:Hemail; [done|].
  unfold draw, on_db; simpl. rewrite DbFacts.add_user_run; simpl.
  by rewrite Hname, Hemail.
Qed.

(** X8. [register_user] fails with status 400 and leaves everything as it
    is when the username is taken (checked first) or the email is; else it
    adds one row, the account with the role [user], active, and returns
    it.  The database never refuses the insertion. *)
Theorem register_user_outcome payload (w : world) :
  register_user payload w =
    if Db.username_taken (db w) (UserRegister.username payload) then
      (Web.Exc (Web.HTTPException 400 "username telah digunakan."), w)
    else if Db.email_taken (db w) (UserRegister.email payload) then
      (Web.Exc (Web.HTTPException 400 "email telah digunakan."), w)
    else
      let u := new_user w (UserRegister.username payload)
                 (UserRegister.email payload)
                 (UserRegister.password payload) "user" in
      (Web.Val u, with_user u w).
Proof. apply insert_checked_run. Qed.

(** X9. [create_user] refuses a role other than [admin] and [user] with
    status 400 before it looks at the database; for a valid role it does
    what [register_user] does, with the role asked for. *)
Theorem create_user_outcome payload (w : world) :
  create_user payload w =
    if negb (bool_decide (UserCreate.role payload = "admin"
                          ∨ UserCreate.role payload = "user")) then
      (Web.Exc (Web.HTTPException 400 "Invalid role"), w)
    else if Db.username_taken (db w) (UserCreate.username payload) then
      (Web.Exc (Web.HTTPException 400 "username already exists"), w)
    else if Db.email_taken (db w) (UserCreate.email payload) then
      (Web.Exc (Web.HTTPException 400 "email already exists"), w)
    else
      let u := new_user w (UserCreate.username payload)
                 (UserCreate.email payload)
                 (UserCreate.password payload) (UserCreate.role payload) in
      (Web.Val u, with_user u w).
Proof.
  unfold Routes.create_user.
  assert (String.eqb (UserCreate.role payload) "admin"
          || String.eqb (UserCreate.role payload) "user"
          = bool_decide (UserCreate.role payload = "admin"
                         ∨ UserCreate.role payload = "user")) as ->.
  { destruct (String.eqb_spec (UserCreate.role payload) "admin") as [->|Ha];
      [done|].
    destruct (String.eqb_spec (UserCreate.role payload) "user") as [->|Hu];
      [done|].
    simpl. symmetry. apply bool_decide_eq_false. by intros [?|?]. }
  destruct (negb _); [done|]. apply insert_checked_run.
Qed.




Lemma seed_admin_run username password email (w : world) :
  seed_admin username password email w =
    if Db.username_taken (db w) username then (Web.Val tt, w)
    else if Db.email_taken (db w) email then
      (Web.Exc Web.IntegrityError, after_draw w)
    else
      (Web.Val tt,
       with_user (new_user w username email password "admin") w).
Proof.
  unfold auth.seed_admin, Web.bind at 1.
  rewrite (on_db_same _ w _ (DbFacts.first_user_run _ (db w))).
  destruct (List.find _ _) as [u|] eqn:Hfind.
  - apply find_some in Hfind as [Hin Hu].
    unfold Db.username_taken.
    assert (existsb (λ u, String.eqb (User.username u) username)
              (Db.users (db w)) = true) as ->; [|done].
    apply existsb_exists. eauto.
  - apply DbFacts.find_existsb in Hfind as Hname.
    unfold Db.username_taken at 1. rewrite Hname.
    unfold Web.bind, draw, on_db; simpl. rewrite DbFacts.add_user_run; simpl.
    unfold Db.username_taken. rewrite Hname; simpl.
    by destruct (Db.email_taken (db w) email).
Qed.

(** X11. [seed_admin] leaves an account that bears the default username
    as it is, whatever its role and password; it is refused by the
    database, with [IntegrityError], when the username is free and the
    default email is another account's; else it adds the active [admin]
    account.  Run again, it changes no row. *)
Theorem seed_admin_outcome username password email (w : world) :
  seed_admin username password email w =
    (if Db.username_taken (db w) username then (Web.Val tt, w)
     else if Db.email_taken (db w) email then
       (Web.Exc Web.IntegrityError, after_draw w)
     else
       (Web.Val tt,
        with_user (new_user w username email password "admin") w)) ∧
  db (seed_admin username password email
        (seed_admin username password email w).2).2
    = db (seed_admin username password email w).2.
Proof.
  split; [apply seed_admin_run|].
  rewrite (seed_admin_run _ _ _ w).
  destruct (Db.username_taken (db w) username) eqn:Hname; simpl.
  { by rewrite seed_admin_run, Hname. }
  destruct (Db.email_taken (db w) email) eqn:Hemail; simpl.
  { rewrite seed_admin_run. simpl. by rewrite Hname, Hemail. }
  rewrite seed_admin_run.
  assert (Db.username_taken
            (db (with_user (new_user w username email password "admin") w))
            username = true) as ->; [|done].
  unfold Db.username_taken; simpl. rewrite existsb_app; simpl.
  by rewrite String.eqb_refl, orb_true_r.
Qed.

Lemma admin_only_cases {A} credentials
  (handler : User.t → Web.M world A) (w : world) :
  (∃ u token claims,
     credentials = Some token ∧ jwt_decode token = auth.Claims claims ∧
     auth.sub claims = Some (User.username u) ∧
     u ∈ Db.users (db w) ∧ auth.active u = true ∧ User.role u = "admin" ∧
     admin_only jwt_decode credentials handler w = handler u w) ∨
  (∃ e, admin_only jwt_decode credentials handler w = (Web.Exc e, w) ∧
        (e = Web.HTTPException 403 "Inactive user" ∨
         e = Web.HTTPException 403 "Not admin" ∨
         (∃ detail, e = Web.HTTPException 401 detail) ∨
         (∃ token, credentials = Some token ∧
                   jwt_decode token = auth.Raises e))).
Proof.
  destruct (authFacts.get_current_user_cases jwt_decode credentials (db w))
    as (r & Hrun & Hval & Hexc & _).
  assert (admin_only jwt_decode credentials handler w =
            match r with
            | Web.Val u =>
                if String.eqb (User.role u) "admin" then handler u w
                else (Web.Exc (Web.HTTPException 403 "Not admin"), w)
            | Web.Exc e => (Web.Exc e, w)
            end) as ->.
  { unfold admin_only, authenticated, Web.bind at 1.
    rewrite (on_db_same _ w _ Hrun).
    destruct r as [u|e]; [|done].
    unfold Web.bind, Web.lift, auth.require_admin.
    by destruct (String.eqb (User.role u) "admin"). }
  destruct r as [u|e].
  - destruct (Hval u eq_refl) as (token & claims & Hcred & Hdec & Hsub & Hin & Hact).
    destruct (String.eqb_spec (User.role u) "admin") as [Hrole|Hrole].
    + left. exists u, token, claims. by split_and!.
    + right. eexists. split; [done|]. auto.
  - right. exists e. split; [done|].
    destruct (Hexc e eq_refl) as [->|[[detail ->]|Hraised]]; eauto 6.
Qed.

(** X12. A route behind [require_admin] runs its handler only for an
    active row of role [admin] named by the token.  In every other case
    the handler is not run and the world is what it was: the request
    fails with status 401 or 403, or with what decoding the token raised
    when that is no [JWTError], which nothing on the way catches. *)
Theorem admin_only_guard {A} credentials
  (handler : User.t → Web.M world A) (w : world) :
  (∃ u token claims,
     credentials = Some token ∧ jwt_decode token = auth.Claims claims ∧
     auth.sub claims = Some (User.username u) ∧
     u ∈ Db.users (db w) ∧ auth.active u = true ∧ User.role u = "admin" ∧
     admin_only jwt_decode credentials handler w = handler u w) ∨
  (∃ e, admin_only jwt_decode credentials handler w = (Web.Exc e, w) ∧
        (e = Web.HTTPException 403 "Inactive user" ∨
         e = Web.HTTPException 403 "Not admin" ∨
         (∃ detail, e = Web.HTTPException 401 detail) ∨
         (∃ token, credentials = Some token ∧
                   jwt_decode token = auth.Raises e))).
Proof. apply admin_only_cases. Qed.

Lemma admin_only_state {A} (P : world → Prop) credentials
  (handler : User.t → Web.M world A) (w : world) :
  (∀ u, P (handler u w).2) → P w →
  P (admin_only jwt_decode credentials handler w).2.
Proof.
  intros Hhandler Hw.
  destruct (admin_only_cases credentials handler w)
    as [(u & _ & _ & _ & _ & _ & _ & _ & _ & ->)|(e & -> & _)]; [|done].
  apply Hhandler.
Qed.

Lemma login_state payload (w : world) : (login payload w).2 = w.
Proof.
  unfold Routes.login, Web.bind at 1.
  erewrite on_db_same; [|apply authFacts.authenticate_user_run].
  unfold Web.bind, Web.gets, Web.lift.
  repeat case_match; done.
Qed.

Lemma authenticated_read_me_state credentials (w : world) :
  (authenticated jwt_decode credentials read_me w).2 = w.
Proof.
  destruct (authFacts.get_current_user_cases jwt_decode credentials (db w))
    as (r & Hrun & _).
  unfold authenticated, Web.bind. rewrite (on_db_same _ w _ Hrun).
  by destruct r.
Qed.

End Facts.
End UsersFacts.

(** ** More on the knowledge store: growth and persistence *)

Module KnowledgeStoreGrowth.
Import VectorIndex KnowledgeStore.

Section Facts.
Variable embed : string → vector.
Variable similarity : vector → vector → Qc.
Variable build_chunks : string → string → Py.result (list Chunk).

Lemma add_file_cases file_path doc ks :
  (∃ e, build_chunks file_path doc = Raise e ∧
        add_file embed build_chunks file_path doc ks = (Raise e, ks)) ∨
  (build_chunks file_path doc = Ok [] ∧
   add_file embed build_chunks file_path doc ks = (Ok 0, ks)) ∨
  (∃ chunks ks1 r idx',
     build_chunks file_path doc = Ok chunks ∧ chunks ≠ [] ∧
     _ensure_index ks = (Ok tt, ks1) ∧
     add_texts embed (text <$> chunks) (imap record_of chunks) (the_index ks)
       = (r, idx') ∧
     add_file embed build_chunks file_path doc ks =
       match r with
       | Ok _ => (Ok (Z.of_nat (length chunks)),
                  set_index_dir (save idx') (set_index idx' ks1))
       | Raise e => (Raise e, set_index idx' ks1)
       end).
Proof.
  destruct (build_chunks file_path doc) as [chunks|e] eqn:Hchunks.
  - destruct (decide (chunks = [])) as [->|Hne].
    + right; left. split; [done|].
      by apply KnowledgeStoreFacts.add_file_no_chunks.
    + right; right.
      destruct (KnowledgeStoreFacts.add_file_run embed build_chunks _ _ ks _
                  Hchunks Hne) as (ks1 & Hens & Hrun).
      destruct (add_texts _ _ _ _) as [r idx'] eqn:Hadd.
      exists chunks, ks1, r, idx'. done.
  - left. exists e. split; [done|].
    by apply KnowledgeStoreFacts.add_file_chunker_raises.
Qed.

(** The records of the index grow by what [add_file] returns, and stay what
    they were when it raises. *)
Lemma add_file_records file_path doc ks r ks' :
  add_file embed build_chunks file_path doc ks = (r, ks') →
  match r with
  | Ok n =>
      ∃ chunks, build_chunks file_path doc = Ok chunks ∧
        n = Z.of_nat (length chunks) ∧
        metadata (the_index ks') =
          metadata (the_index ks) ++ inserted_records chunks
  | Raise _ => metadata (the_index ks') = metadata (the_index ks)
  end.
Proof.
  intros Hrun.
  destruct (add_file_cases file_path doc ks)
    as [(e & Hc & Heq)|[(Hc & Heq)|(chunks & ks1 & r1 & idx' & Hc & Hne & Hens
                                     & Hadd & Heq)]];
    rewrite Heq in Hrun.
  - by injection Hrun as <- <-.
  - injection Hrun as <- <-. exists []. by rewrite app_nil_r.
  - destruct r1 as [[]|e]; injection Hrun as <- <-.
    + apply VectorIndexFacts.add_texts_ok in Hadd as [_ ->].
      exists chunks. done.
    + by apply VectorIndexFacts.add_texts_raise in Hadd as ->.
Qed.

End Facts.
End KnowledgeStoreGrowth.

(** ** Properties of the upload route *)

Module UploadFacts.
Import VectorIndex models schemas2 Server Routes.

Section Facts.
Variable isalnum_other : ascii → bool.
Variable file_system : gmap string string → string → string → written.
Variable uuid4_hex : nat → string.
Variable UPLOADS_DIR : string.
Variable embed : string → vector.
Variable build_chunks :
  gmap string string → string → string → Py.result (list KnowledgeStore.Chunk).

Local Abbreviation stored_name := (stored_name isalnum_other uuid4_hex).
Local Abbreviation upload_one :=
  (upload_one isalnum_other file_system uuid4_hex UPLOADS_DIR embed
     build_chunks).
Local Abbreviation upload_loop :=
  (upload_loop isalnum_other file_system uuid4_hex UPLOADS_DIR embed
     build_chunks).
Local Abbreviation upload_documents :=
  (upload_documents isalnum_other file_system uuid4_hex UPLOADS_DIR embed
     build_chunks).

Local Abbreviation indexing :=
  (indexing isalnum_other uuid4_hex UPLOADS_DIR embed build_chunks).
Local Abbreviation new_document := (new_document isalnum_other uuid4_hex).

Lemma upload_one_run current_user file (w : world) :
  upload_one current_user file w =
    let stored := stored_name (drawn w) file in
    match file_system (uploads w) stored (content file) with
    | OpenRaises => (Web.Exc Web.OSError, after_draw w)
    | CopyRaises copied =>
        (Web.Exc Web.OSError,
         with_file stored (substring 0 copied (content file)) (after_draw w))
    | Stored =>
        let files := <[stored := content file]> (uploads w) in
        match indexing file w with
        | (Raise e, ks) =>
            (Web.Exc (Web.Python e), mkWorld (db w) files ks (S (drawn w)))
        | (Ok n, ks) =>
            if Db.stored_filename_taken (db w) stored then
              (Web.Exc Web.IntegrityError,
               mkWorld (db w) files ks (S (drawn w)))
            else
              let document := new_document current_user file w in
              (Web.Val (upload_result current_user document n),
               mkWorld (Db.mk (Db.users (db w))
                          (Db.documents (db w) ++ [document])
                          (Db.utcnow (db w)))
                 files ks (S (drawn w)))
        end
    end.
Proof.
  unfold Routes.upload_one, Routes.indexing, Web.bind, draw, write_file,
    Web.gets, on_knowledge, on_db, Db.add_document, Web.ret; simpl.
  fold (stored_name (drawn w) file).
  unfold Routes.new_document. fold (stored_name (drawn w) file).
  destruct (file_system (uploads w) _ _); simpl; [|done|done].
  destruct (KnowledgeStore.add_file _ _ _ _ _) as [[n|e] ks]; simpl; [|done].
  by destruct (Db.stored_filename_taken (db w) _).
Qed.


Lemma indexing_size file (w : world) n ks :
  indexing file w = (Ok n, ks) →
  Z.of_nat (size (KnowledgeStore.the_index ks)) =
    Z.of_nat (size (KnowledgeStore.the_index (knowledge w))) + n.
Proof.
  intros Hrun. apply KnowledgeStoreGrowth.add_file_records in Hrun
    as (chunks & _ & -> & Hmeta).
  unfold size. rewrite Hmeta, length_app.
  rewrite KnowledgeStoreFacts.inserted_records_length. lia.
Qed.

Lemma total_chunks_cons r results :
  total_chunks (r :: results) =
    DocumentUploadResult.chunks_indexed r + total_chunks results.
Proof. done. Qed.

(** What a run of the loop that comes to its end has done. *)
Lemma upload_loop_val current_user files results0 (w : world) results w' :
  upload_loop current_user files results0 w = (Web.Val results, w') →
  ∃ new rows,
    results = results0 ++ new ∧
    Db.documents (db w') = Db.documents (db w) ++ rows ∧
    Db.users (db w') = Db.users (db w) ∧
    drawn w' = (drawn w + length files)%nat ∧
    length new = length files ∧
    length rows = length files ∧
    Z.of_nat (size (KnowledgeStore.the_index (knowledge w'))) =
      Z.of_nat (size (KnowledgeStore.the_index (knowledge w)))
      + total_chunks new ∧
    (∀ i file, files !! i = Some file →
       ∃ row n,
         rows !! i = Some row ∧
         new !! i = Some (upload_result current_user row n) ∧
         Document.stored_filename row = stored_name (drawn w + i) file ∧
         Document.original_filename row =
           or_else (filename file) (stored_name (drawn w + i) file) ∧
         Document.uploaded_by row = User.id current_user ∧
         uploads w' !! stored_name (drawn w + i) file = Some (content file)) ∧
    (∀ d, d ∈ Db.documents (db w) →
          uploads w' !! Document.stored_filename d =
            uploads w !! Document.stored_filename d).
Proof.
  revert results0 w.
  induction files as [|file files IH]; intros results0 w; simpl.
  - intros [= <- <-]. exists [], [].
    rewrite !app_nil_r, Nat.add_0_r.
    split_and!; try done; try (unfold total_chunks; simpl; lia).
  - unfold Web.bind at 1. rewrite upload_one_run. cbn zeta.
    destruct (file_system (uploads w) _ _); [|done|done].
    destruct (indexing file w) as [[n|e] ks] eqn:Hindex; simpl; [|done].
    destruct (Db.stored_filename_taken (db w) _) eqn:Htaken; [done|].
    set (row := new_document current_user file w).
    set (w1 := mkWorld _ _ _ _).
    intros Hloop.
    apply IH in Hloop
      as (new & rows & -> & Hdocs & Husers & Hdrawn & Hnew & Hrows & Hsize
          & Hfiles & Hkeep).
    exists (upload_result current_user row n :: new), (row :: rows).
    split_and!.
    + by rewrite <- app_assoc.
    + rewrite Hdocs. subst w1; simpl. by rewrite <- app_assoc.
    + by rewrite Husers.
    + rewrite Hdrawn. subst w1; simpl. lia.
    + simpl. by rewrite Hnew.
    + simpl. by rewrite Hrows.
    + rewrite Hsize, total_chunks_cons. subst w1; simpl.
      rewrite (indexing_size _ _ _ _ Hindex). lia.
    + intros [|i] f Hf; simpl in Hf.
      * injection Hf as <-. exists row, n. rewrite Nat.add_0_r.
        split_and!; try done.
        change (stored_name (drawn w) file)
          with (Document.stored_filename row).
        rewrite (Hkeep row).
        -- subst w1; simpl. apply lookup_insert_eq.
        -- subst w1; simpl. apply elem_of_app. right. by apply list_elem_of_singleton.
      * destruct (Hfiles i f Hf) as (r & m & Hr & Hm & Hs & Ho & Hu & Hup).
        subst w1; simpl in *.
        replace (drawn w + S i)%nat with (S (drawn w + i)) by lia.
        exists r, m. done.
    + intros d Hd. rewrite (Hkeep d).
      * subst w1; simpl. apply lookup_insert_ne.
        apply DbFacts.existsb_fmap_not_elem in Htaken.
        intros Heq. apply Htaken. rewrite Heq.
        by apply list_elem_of_fmap_2.
      * subst w1; simpl. apply elem_of_app. by left.
Qed.


(** A run of the loop that raises has come to the end of some turns and
    raised in the next. *)
Lemma upload_loop_exc current_user files results0 (w : world) e w' :
  upload_loop current_user files results0 w = (Web.Exc e, w') →
  ∃ k file results wk,
    files !! k = Some file ∧
    upload_loop current_user (take k files) results0 w
      = (Web.Val results, wk) ∧
    upload_one current_user file wk = (Web.Exc e, w').
Proof.
  revert results0 w.
  induction files as [|file files IH]; intros results0 w; simpl; [done|].
  unfold Web.bind at 1.
  destruct (upload_one current_user file w) as [[r|e1] w1] eqn:Hone.
  - intros Hloop.
    apply IH in Hloop as (k & f & results & wk & Hf & Hprefix & Hfail).
    exists (S k), f, results, wk. split_and!; [done| |done].
    simpl. unfold Web.bind at 1. by rewrite Hone.
  - intros [= <- <-]. exists 0%nat, file, results0, w. done.
Qed.

(** X13. When [upload_documents] returns, it returns one result per file,
    in the order of the files, and the table has gained one row per file
    in the same order: the row of a file bears the stored name made of the
    UUID drawn for it, an underscore and the sanitized client name, the
    client name (or the stored name when there is none) as original name,
    and the uploader's id; the result repeats the row; and the bytes of
    the file are on disk under the stored name. *)
Theorem upload_documents_rows files current_user (w : world) results w' :
  upload_documents files current_user w = (Web.Val results, w') →
  ∃ rows,
    Db.documents (db w') = Db.documents (db w) ++ rows ∧
    Db.users (db w') = Db.users (db w) ∧
    length results = length files ∧
    length rows = length files ∧
    ∀ i file, files !! i = Some file →
      ∃ row n,
        rows !! i = Some row ∧
        results !! i = Some (upload_result current_user row n) ∧
        Document.stored_filename row = stored_name (drawn w + i) file ∧
        Document.original_filename row =
          or_else (filename file) (stored_name (drawn w + i) file) ∧
        Document.uploaded_by row = User.id current_user ∧
        uploads w' !! stored_name (drawn w + i) file = Some (content file).
Proof.
  unfold Routes.upload_documents. destruct files as [|file files]; [done|].
  intros Hloop. apply upload_loop_val in Hloop
    as (new & rows & Hres & Hdocs & Husers & _ & Hnew & Hrows & _ & Hfiles & _).
  simpl in Hres. subst new. exists rows. done.
Qed.

(** X14. When [upload_documents] returns, the index of the knowledge store
    holds as many more records as the chunk counts of the results add up
    to. *)
Theorem upload_documents_index_total files current_user (w : world) results w' :
  upload_documents files current_user w = (Web.Val results, w') →
  Z.of_nat (size (KnowledgeStore.the_index (knowledge w'))) =
    Z.of_nat (size (KnowledgeStore.the_index (knowledge w)))
    + total_chunks results.
Proof.
  unfold Routes.upload_documents. destruct files as [|file files]; [done|].
  intros Hloop. apply upload_loop_val in Hloop
    as (new & rows & Hres & _ & _ & _ & _ & _ & Hsize & _).
  simpl in Hres. by subst new.
Qed.

(** X15. [upload_documents] is not atomic.  Without files it fails with
    status 400 and changes nothing.  When it fails on the file at position
    [k], the [k] turns of the loop before it have run to their end and
    their rows stay in the table; the failing file gets no row.  What is
    left of it on disk depends on where the turn failed: nothing new when
    the file could not be created, a file cut short when the copy broke
    off, both with [OSError] and the knowledge store as it was; and the
    whole file, under its stored name, when the failure came after the
    write, from the indexing or from the database. *)
Theorem upload_documents_failure files current_user (w : world) e w' :
  upload_documents files current_user w = (Web.Exc e, w') →
  (files = [] ∧ w' = w ∧ e = Web.HTTPException 400 "No files uploaded") ∨
  (∃ k file results wk,
     files !! k = Some file ∧
     upload_loop current_user (take k files) [] w = (Web.Val results, wk) ∧
     length results = k ∧
     length (Db.documents (db wk)) = (length (Db.documents (db w)) + k)%nat ∧
     db w' = db wk ∧
     drawn w' = (drawn w + S k)%nat ∧
     let name := stored_name (drawn w + k) file in
     match file_system (uploads wk) name (content file) with
     | Stored =>
         uploads w' = <[name := content file]> (uploads wk) ∧
         e ≠ Web.OSError
     | OpenRaises =>
         uploads w' = uploads wk ∧ knowledge w' = knowledge wk ∧
         e = Web.OSError
     | CopyRaises copied =>
         uploads w' =
           <[name := substring 0 copied (content file)]> (uploads wk) ∧
         knowledge w' = knowledge wk ∧
         e = Web.OSError
     end).
Proof.
  unfold Routes.upload_documents. destruct files as [|file files].
  - intros [= <- <-]. by left.
  - intros Hloop. right.
    apply upload_loop_exc in Hloop
      as (k & f & results & wk & Hf & Hprefix & Hfail).
    exists k, f, results, wk.
    destruct (upload_loop_val _ _ _ _ _ _ Hprefix)
      as (new & rows & -> & Hdocs & _ & Hdrawn & Hnew & Hrows & _).
    assert (length (take k (file :: files)) = k) as Hk.
    { apply length_take_le, Nat.lt_le_incl. by eapply lookup_lt_Some. }
    rewrite Hk in Hdrawn, Hnew, Hrows.
    split_and!; [done|done|done|by rewrite Hdocs, length_app, Hrows|..].
    all: rewrite upload_one_run in Hfail; cbn zeta in Hfail.
    all: rewrite Hdrawn in Hfail.
    all: destruct (file_system (uploads wk) _ _).
    all: try (injection Hfail as <- <-; simpl; first [done|lia]).
    all: destruct (indexing f wk) as [[n|pe] ks].
    all: try destruct (Db.stored_filename_taken (db wk) _).
    all: try done.
    all: injection Hfail as <- <-; simpl; first [done|lia].
Qed.


Lemma chars_app (s1 s2 : string) :
  list_ascii_of_string (s1 ++ s2)%string =
    list_ascii_of_string s1 ++ list_ascii_of_string s2.
Proof. induction s1 as [|ch s1 IH]; simpl; [done|]. by rewrite IH. Qed.

(** X16. As long as the UUIDs hold no slash and no backslash, as
    hexadecimal digits do, a stored name holds none either: the
    destination of a file is an entry of the upload directory itself,
    whatever name the client gave. *)
Theorem stored_name_is_component rank file :
  (∀ n ch, ch ∈ list_ascii_of_string (uuid4_hex n) →
           ch ≠ "/"%char ∧ ch ≠ "\"%char) →
  stored_name rank file ≠ "" ∧
  ∀ ch, ch ∈ list_ascii_of_string (stored_name rank file) →
        ch ≠ "/"%char ∧ ch ≠ "\"%char.
Proof.
  intros Hhex. unfold Routes.stored_name. split.
  - intros Hempty.
    apply (f_equal list_ascii_of_string) in Hempty.
    rewrite !chars_app in Hempty. simpl in Hempty.
    by destruct (list_ascii_of_string (uuid4_hex rank)).
  - intros ch. rewrite !chars_app. simpl.
    intros [Hin|Hin]%elem_of_app; [by apply (Hhex rank)|].
    apply elem_of_cons in Hin as [->|Hin].
    + split; discriminate.
    + pose proof (FilenamesFacts.sanitize_kept isalnum_other
                    (or_else (filename file) "document")) as Hkept.
      rewrite Forall_forall in Hkept. specialize (Hkept ch Hin).
      split; intros ->; discriminate Hkept.
Qed.

(** *** What every request keeps *)

Lemma upload_one_coherent current_user file (w : world) :
  coherent w → coherent (upload_one current_user file w).2.
Proof.
  intros (Husers & Hnames & Hfiles & Hindex). rewrite upload_one_run.
  assert (KnowledgeStore.consistent (indexing file w).2) as Hks.
  { by apply KnowledgeStoreFacts.add_file_consistent. }
  assert (∀ data d, d ∈ Db.documents (db w) →
            is_Some (<[stored_name (drawn w) file := data]> (uploads w)
                       !! Document.stored_filename d)) as Hkept.
  { intros data d Hd.
    destruct (decide (stored_name (drawn w) file = Document.stored_filename d))
      as [->|Hne].
    - rewrite lookup_insert_eq. eauto.
    - rewrite lookup_insert_ne by done. by apply Hfiles. }
  cbn zeta.
  destruct (file_system (uploads w) _ _) as [| |copied].
  2: { by unfold coherent. }
  2: { unfold coherent; simpl. split_and!; [done|done|apply Hkept|done]. }
  destruct (indexing file w) as [[n|e] ks]; simpl in *;
    [|unfold coherent; simpl; split_and!; [done|done|apply Hkept|done]].
  destruct (Db.stored_filename_taken (db w) _) eqn:Htaken;
    [unfold coherent; simpl; split_and!; [done|done|apply Hkept|done]|].
  unfold coherent; simpl. split_and!; [done| | |done].
  - rewrite fmap_app. apply NoDup_app. split_and!; [done| |apply NoDup_singleton].
    intros x Hx ->%list_elem_of_singleton.
    by apply DbFacts.existsb_fmap_not_elem in Htaken.
  - intros d [Hd|Hd]%elem_of_app; [by apply Hkept|].
    apply list_elem_of_singleton in Hd as ->.
    simpl. rewrite lookup_insert_eq. eauto.
Qed.

Lemma upload_loop_coherent current_user files results0 (w : world) :
  coherent w → coherent (upload_loop current_user files results0 w).2.
Proof.
  revert results0 w.
  induction files as [|file files IH]; intros results0 w Hw; simpl; [done|].
  unfold Web.bind at 1.
  pose proof (upload_one_coherent current_user file w Hw) as Hone.
  destruct (upload_one current_user file w) as [[r|e] w1]; [|done].
  by apply IH.
Qed.

Lemma upload_documents_coherent files current_user (w : world) :
  coherent w → coherent (upload_documents files current_user w).2.
Proof.
  unfold Routes.upload_documents. destruct files; [done|].
  apply upload_loop_coherent.
Qed.

End Facts.
End UploadFacts.

(** ** What the process keeps over its life *)

Module ServerFacts.
Import VectorIndex models schemas2 Server Routes.

Section Facts.
Variable isalnum_other : ascii → bool.
Variable hash_password : nat → string → string.
Variable verify_password : string → string → bool.
Variable jwt_encode : auth.TokenPayload → string.
Variable jwt_decode : string → auth.decoded.
Variable ACCESS_TOKEN_EXPIRE_MINUTES : Z.
Variable file_system : gmap string string → string → string → written.
Variable uuid4_hex : nat → string.
Variable UPLOADS_DIR : string.
Variable embed : string → vector.
Variable build_chunks :
  gmap string string → string → string → Py.result (list KnowledgeStore.Chunk).

Local Abbreviation serve :=
  (serve isalnum_other hash_password verify_password jwt_encode jwt_decode
     ACCESS_TOKEN_EXPIRE_MINUTES file_system uuid4_hex UPLOADS_DIR embed
     build_chunks).
Local Abbreviation serve_all :=
  (serve_all isalnum_other hash_password verify_password jwt_encode jwt_decode
     ACCESS_TOKEN_EXPIRE_MINUTES file_system uuid4_hex UPLOADS_DIR embed
     build_chunks).

Lemma with_user_coherent username email password role (w : world) :
  Db.username_taken (db w) username = false →
  Db.email_taken (db w) email = false →
  coherent w →
  coherent (with_user (new_user hash_password w username email password role) w).
Proof.
  intros Hname Hemail (Husers & Hnames & Hfiles & Hindex).
  unfold coherent; simpl. split_and!; [|done..].
  pose proof (DbFacts.add_user_unique username email
                (hash_password (drawn w) password) role (Some true) (db w)
                Husers) as Hadd.
  rewrite DbFacts.add_user_run, Hname, Hemail in Hadd. exact Hadd.
Qed.

Lemma insert_checked_coherent suffix username email password role (w : world) :
  coherent w →
  coherent
    (Web.bind
       (on_db (refuse_taken suffix [("username", username); ("email", email)]))
       (λ _, Web.bind draw
          (λ salt, on_db (Db.add_user username email
                            (hash_password salt password) role (Some true))))
       w).2.
Proof.
  intros Hw. rewrite UsersFacts.insert_checked_run.
  destruct (Db.username_taken (db w) username) eqn:Hname; [done|].
  destruct (Db.email_taken (db w) email) eqn:Hemail; [done|].
  by apply with_user_coherent.
Qed.

Lemma serve_coherent (w : world) r : coherent w → coherent (serve w r).
Proof.
  intros Hw.
  destruct r as [username password email|payload|payload|credentials
                |credentials payload|credentials files]; simpl.
  - unfold auth.bootstrap_admin. rewrite UsersFacts.seed_admin_run.
    destruct (Db.username_taken (db w) username) eqn:Hname; [done|].
    destruct (Db.email_taken (db w) email) eqn:Hemail; [done|].
    by apply with_user_coherent.
  - by rewrite UsersFacts.login_state.
  - by apply insert_checked_coherent.
  - by rewrite UsersFacts.authenticated_read_me_state.
  - apply (UsersFacts.admin_only_state jwt_decode coherent); [|done].
    intros _. unfold create_user. destruct (negb _); [done|].
    by apply insert_checked_coherent.
  - apply (UsersFacts.admin_only_state jwt_decode coherent); [|done].
    intros u. by apply UploadFacts.upload_documents_coherent.
Qed.

(** X17. Over any sequence of start-up seedings, logins, registrations,
    profile reads, user creations and uploads, with any credentials and
    any outcome, from a process with empty tables and a fresh knowledge
    store: no two rows of [users] share a username or an email, no two
    rows of [documents] share a stored name, every row of [documents] has
    its file in the upload directory, and the index has one vector per
    record. *)
Theorem process_stays_coherent now files dir d rank requests :
  coherent
    (serve_all (mkWorld (Db.mk [] [] now) files (KnowledgeStore.init dir d) rank)
       requests).
Proof.
  assert (∀ w, coherent w → coherent (serve_all w requests)) as Hall.
  { induction requests as [|r requests IH]; intros w Hw; [done|].
    simpl. by apply IH, serve_coherent. }
  apply Hall. unfold coherent, Db.unique_users; simpl.
  split_and!; try apply NoDup_nil_2; [|done].
  intros d' Hd'. by apply elem_of_nil in Hd'.
Qed.

End Facts.
End ServerFacts.

Module PersistenceFacts.
Import VectorIndex KnowledgeStore Persistence.

Section Facts.
Variable embed : string → vector.
Variable similarity : vector → vector → Qc.
Variable build_chunks : string → string → Py.result (list Chunk).

Local Abbreviation add_file := (add_file embed build_chunks).
Local Abbreviation search := (search embed similarity).
Local Abbreviation serve_all := (serve_all embed similarity build_chunks).

Lemma add_file_outcome file_path doc ks r ks' :
  add_file file_path doc ks = (r, ks') →
  match r with
  | Ok n =>
      Z.of_nat (size (the_index ks')) = Z.of_nat (size (the_index ks)) + n ∧
      (n ≠ 0 → index_dir ks' = save (the_index ks')) ∧
      (n = 0 → ks' = ks)
  | Raise _ =>
      metadata (the_index ks') = metadata (the_index ks) ∧
      embeddings (the_index ks') = embeddings (the_index ks) ∧
      index_dir ks' = index_dir ks
  end.
Proof.
  intros Hrun.
  destruct (KnowledgeStoreGrowth.add_file_cases embed build_chunks
              file_path doc ks)
    as [(e & Hc & Heq)|[(Hc & Heq)|(chunks & ks1 & r1 & idx' & Hc & Hne & Hens
                                     & Hadd & Heq)]];
    rewrite Heq in Hrun.
  - by injection Hrun as <- <-.
  - injection Hrun as <- <-. split_and!; [lia|done|done].
  - destruct (KnowledgeStoreFacts.ensure_index_spec ks)
      as (ks1' & Hens' & Hidx & Hdir & Hdim).
    assert (ks1' = ks1) as -> by congruence.
    destruct r1 as [[]|e]; injection Hrun as <- <-.
    + apply VectorIndexFacts.add_texts_ok in Hadd as [_ ->].
      split_and!.
      * unfold size; simpl. rewrite length_app.
        fold (inserted_records chunks).
        rewrite KnowledgeStoreFacts.inserted_records_length. lia.
      * done.
      * destruct chunks; [done|]. simpl. lia.
    + apply VectorIndexFacts.add_texts_raise in Hadd as ->.
      split_and!; [done|done|]. simpl. done.
Qed.

(** X18. The index holds as many more records as [add_file] returns, and
    the directory holds that index; when [add_file] raises, the records
    and the directory are what they were: nothing is saved before
    [add_texts] has succeeded. *)
Theorem add_file_grows_index file_path doc ks r ks' :
  add_file file_path doc ks = (r, ks') →
  match r with
  | Ok n =>
      Z.of_nat (size (the_index ks')) = Z.of_nat (size (the_index ks)) + n ∧
      (n ≠ 0 → index_dir ks' = save (the_index ks')) ∧
      (n = 0 → ks' = ks)
  | Raise _ =>
      metadata (the_index ks') = metadata (the_index ks) ∧
      embeddings (the_index ks') = embeddings (the_index ks) ∧
      index_dir ks' = index_dir ks
  end.
Proof. apply add_file_outcome. Qed.


(** X19. [search] and [is_empty] write nothing: they leave the store as
    [_ensure_index] leaves it, with the directory untouched and the index
    a first use would load; once the index is built they leave the store
    as it is. *)
Theorem queries_never_write query k ks :
  (search query k ks).2 = (_ensure_index ks).2 ∧
  (is_empty ks).2 = (_ensure_index ks).2 ∧
  index_dir (_ensure_index ks).2 = index_dir ks ∧
  the_index (_ensure_index ks).2 = the_index ks ∧
  (is_Some (_index ks) → (_ensure_index ks).2 = ks).
Proof.
  destruct (KnowledgeStoreFacts.search_run embed similarity query k ks)
    as (ks1 & Hens & ->).
  destruct (KnowledgeStoreFacts.is_empty_run ks) as (ks2 & Hens2 & ->).
  destruct (KnowledgeStoreFacts.ensure_index_spec ks)
    as (ks3 & Hens3 & Hidx & Hdir & _).
  rewrite Hens in Hens2, Hens3. injection Hens2 as <-. injection Hens3 as <-.
  rewrite Hens. simpl. split_and!; [done|done|done| |].
  - unfold the_index at 1. by rewrite Hidx.
  - intros [idx Hsome]. unfold _ensure_index in Hens.
    rewrite Hsome in Hens. by injection Hens as <-.
Qed.

Lemma readable_app d vecs metas vecs' metas' :
  readable d vecs metas = true → readable d vecs' metas' = true →
  readable d (vecs ++ vecs') (metas ++ metas') = true.
Proof.
  unfold readable. intros [Hl Hd]%andb_prop [Hl' Hd']%andb_prop.
  apply Nat.eqb_eq in Hl, Hl'.
  rewrite forallb_app, Hd, Hd', !length_app, Hl, Hl', Nat.eqb_refl. done.
Qed.

Lemma the_index_loadable ks :
  loadable ks →
  VectorIndex.dim (the_index ks) = dim ks ∧
  readable (dim ks) (embeddings (the_index ks)) (metadata (the_index ks))
    = true.
Proof.
  unfold loadable, the_index. destruct (_index ks) as [idx|]; [done|].
  intros _. unfold load, Py.bind, Py.gets, Py.modify, Py.raise; simpl.
  destruct (index_dir ks) as [| |vecs metas]; simpl; try done.
  destruct (readable (dim ks) vecs metas) eqn:Hr; simpl; done.
Qed.

Lemma ensure_index_loadable ks :
  loadable ks → loadable (_ensure_index ks).2.
Proof.
  intros Hks. pose proof (the_index_loadable ks Hks) as [Hdim Hread].
  destruct (KnowledgeStoreFacts.ensure_index_spec ks)
    as (ks1 & Hens & Hidx & _ & Hd).
  rewrite Hens. simpl. unfold loadable. by rewrite Hidx, Hd.
Qed.

Lemma add_file_loadable file_path doc ks :
  loadable ks → loadable (add_file file_path doc ks).2.
Proof.
  intros Hks. pose proof (the_index_loadable ks Hks) as [Hdim Hread].
  destruct (KnowledgeStoreGrowth.add_file_cases embed build_chunks
              file_path doc ks)
    as [(e & Hc & ->)|[(Hc & ->)|(chunks & ks1 & r1 & idx' & Hc & Hne & Hens
                                   & Hadd & ->)]]; [done..|].
  destruct (KnowledgeStoreFacts.ensure_index_spec ks)
    as (ks1' & Hens' & Hidx & _ & Hd).
  assert (ks1' = ks1) as -> by congruence.
  rewrite VectorIndexFacts.add_texts_cases in Hadd.
  rewrite KnowledgeStoreFacts.imap_record_of_length, Nat.eqb_refl in Hadd.
  simpl in Hadd.
  destruct (forallb _ _) eqn:Hall; simpl in Hadd; injection Hadd as <- <-;
    simpl; unfold loadable; simpl; rewrite Hd; [|done].
  split; [done|]. apply readable_app; [done|].
  unfold readable. rewrite <- Hdim, Hall, andb_true_r.
  apply Nat.eqb_eq.
  rewrite length_fmap, length_zip_with, !length_fmap, length_imap. lia.
Qed.

Lemma serve_loadable ks r :
  loadable ks → loadable (serve embed similarity build_chunks ks r).
Proof.
  intros Hks. destruct r as [file_path doc|query k|]; simpl.
  - by apply add_file_loadable.
  - destruct (KnowledgeStoreFacts.search_run embed similarity query k ks)
      as (ks1 & Hens & ->).
    pose proof (ensure_index_loadable ks Hks) as H. by rewrite Hens in H.
  - destruct (KnowledgeStoreFacts.is_empty_run ks) as (ks1 & Hens & ->).
    pose proof (ensure_index_loadable ks Hks) as H. by rewrite Hens in H.
Qed.

Lemma serve_all_loadable ks requests :
  loadable ks → loadable (serve_all ks requests).
Proof.
  revert ks. induction requests as [|r requests IH]; intros ks Hks; [done|].
  simpl. by apply IH, serve_loadable.
Qed.

(** X20. Whatever a store has served since its start, once [add_file] has
    returned a positive count a new process started over the same
    directory loads the very index the old one holds, and answers every
    search with the same hits. *)
Theorem restart_after_add_file dir d requests file_path doc n ks' :
  add_file file_path doc (serve_all (KnowledgeStore.init dir d) requests)
    = (Ok n, ks') →
  0 < n →
  the_index (restarted ks') = the_index ks' ∧
  ∀ query k, (search query k (restarted ks')).1 = (search query k ks').1.
Proof.
  intros Hrun Hn.
  set (ks := serve_all (KnowledgeStore.init dir d) requests) in *.
  assert (loadable ks') as Hks'.
  { pose proof (add_file_loadable file_path doc ks) as H.
    rewrite Hrun in H. apply H, serve_all_loadable. done. }
  pose proof (add_file_outcome _ _ _ _ _ Hrun) as (_ & Hdir & _).
  assert (n ≠ 0) as Hn' by lia. specialize (Hdir Hn').
  pose proof (the_index_loadable ks' Hks') as [Hdim Hread].
  assert (the_index (restarted ks') = the_index ks') as Hsame.
  { unfold restarted, the_index at 1; simpl. rewrite Hdir.
    unfold load, save, Py.bind, Py.gets, Py.modify; simpl.
    rewrite Hread. simpl. rewrite <- Hdim. by destruct (the_index ks'). }
  split; [done|]. intros query k.
  destruct (KnowledgeStoreFacts.search_run embed similarity query k
              (restarted ks')) as (ks1 & _ & ->).
  destruct (KnowledgeStoreFacts.search_run embed similarity query k ks')
    as (ks2 & _ & ->).
  simpl. by rewrite Hsame.
Qed.

End Facts.
End PersistenceFacts.

(** ** More on the [/chat/ask] handler *)

Module AskFacts.
Import VectorIndex schemas Api Calls.

Section Facts.
Variable embed : string → vector.
Variable similarity : vector → vector → Qc.
Variable complete : string → list string → QaAgent.llm_outcome.
Variable summarize : list string → string.
Variable no_results : string.
Variable Model : Type.
Variable train : list Py.value → list string → Model.
Variable predict : string → Model → Classifier.Prediction.
Variable LABELS : list string.

Local Abbreviation world := (world Model).
Local Abbreviation classify := (classify Model train predict LABELS).
Local Abbreviation respond :=
  (respond complete summarize no_results Model train predict LABELS).
Local Abbreviation ask_ai :=
  (ask_ai embed similarity complete summarize no_results Model train
          predict LABELS).

Lemma classify_with_model hits (w : world) m r w' :
  model_file Model w = Some m →
  classify hits w = (r, w') →
  model_file Model w' = Some m ∧
  knowledge Model w' = knowledge Model w ∧
  ∃ calls, trace Model w' = trace Model w ++ calls ∧
           forallb (λ e, negb (is_training e)) calls = true ∧
           (∀ response, r = Ok response →
              ∃ text, response = Some (ClassificationInfo.mk
                                         (Classifier.label (predict text m))
                                         (Classifier.proba (predict text m))) ∧
                      calls = [CallLoadModel; CallPredict text]).
Proof.
  intros Hm.
  unfold Api.classify, Py.bind, call, on_model_file, Classifier.load_model,
    Classifier.fit_and_save, Py.lift, Py.gets, Py.modify, Py.ret; simpl.
  rewrite Hm. intros Hrun.
  repeat (case_match; simplify_eq/=);
    (split_and!; [done|done|]); rewrite <- ?app_assoc; simpl;
    eexists; (split_and!; [done|done|]); intros response Hr;
    simplify_eq/=; eauto.
Qed.


(** X21. The handler only reads the knowledge store: whatever it answers,
    the store is left as [_ensure_index] leaves it, with the directory
    untouched and the same index. *)
Theorem ask_ai_only_reads payload (w : world) :
  knowledge Model (ask_ai payload w).2
    = (KnowledgeStore._ensure_index (knowledge Model w)).2 ∧
  KnowledgeStore.index_dir (knowledge Model (ask_ai payload w).2)
    = KnowledgeStore.index_dir (knowledge Model w) ∧
  KnowledgeStore.the_index (knowledge Model (ask_ai payload w).2)
    = KnowledgeStore.the_index (knowledge Model w).
Proof.
  destruct (ApiFacts.ask_ai_run embed similarity complete summarize no_results
              Model train predict LABELS payload w) as (ks1 & Hens & Hrun).
  destruct (KnowledgeStoreFacts.ensure_index_spec (knowledge Model w))
    as (ks1' & Hens' & Hidx & Hdir & _).
  assert (ks1' = ks1) as -> by congruence.
  assert (knowledge Model (ask_ai payload w).2 = ks1) as ->.
  { rewrite Hrun. destruct (Nat.eqb _ 0); [done|].
    set (hits := hits_for _ _ _ _).
    destruct (decide (hits = [])) as [->|Hne]; [done|].
    destruct (respond payload hits _) as [r w'] eqn:Hresp.
    apply (ApiFacts.respond_hits _ _ _ _ _ _ _ _ _ _ _ _ Hne) in Hresp
      as (Hk & _).
    simpl in *. done. }
  rewrite Hens. simpl. split_and!; [done|done|].
  unfold KnowledgeStore.the_index at 1. by rewrite Hidx.
Qed.

Lemma respond_with_model payload hits (w : world) m r w' :
  model_file Model w = Some m →
  respond payload hits w = (r, w') →
  model_file Model w' = Some m ∧
  (∃ calls, trace Model w' = trace Model w ++ calls ∧
            forallb (λ e, negb (is_training e)) calls = true) ∧
  (∀ response c, r = Ok response →
     ChatResponse.classification response = Some c →
     ∃ text, c = ClassificationInfo.mk (Classifier.label (predict text m))
                   (Classifier.proba (predict text m))).
Proof.
  intros Hm. destruct hits as [|hit hits].
  { intros [= <- <-]. split_and!.
    - exact Hm.
    - exists []. by rewrite app_nil_r.
    - intros response c [= <-]. simpl. discriminate. }
  unfold Api.respond, Py.bind at 1, call at 1, Py.modify.
  unfold Py.bind.
  set (qa_result := QaAgent.answer_query _ _ _ _ _ _).
  destruct (classify _ _) as [[c|e] w1] eqn:Hclass;
    apply (classify_with_model _ _ m) in Hclass
      as (Hfile & _ & calls & Htrace & Hcalls & Hresp); try done;
    simpl in Htrace; intros [= <- <-]; (split_and!; [done| |]).
  - eexists. rewrite Htrace, <- !app_assoc. split; [done|]. simpl. done.
  - intros response c' [= <-]; simpl. intros ->.
    destruct (Hresp _ eq_refl) as (text & [= ->] & _). eauto.
  - eexists. rewrite Htrace, <- !app_assoc. split; [done|]. simpl. done.
  - done.
Qed.

(** X22. Once a model is persisted the handler neither trains nor writes
    one: whatever it answers, the model file is the one it found and no
    call of [fit_and_save] was made; a response that carries a
    classification carries the prediction of that model. *)
Theorem persisted_model_reused payload (w : world) m :
  model_file Model w = Some m →
  model_file Model (ask_ai payload w).2 = Some m ∧
  (∃ calls, trace Model (ask_ai payload w).2 = trace Model w ++ calls ∧
            forallb (λ e, negb (is_training e)) calls = true) ∧
  (∀ response c, (ask_ai payload w).1 = Ok response →
     ChatResponse.classification response = Some c →
     ∃ text, c = ClassificationInfo.mk (Classifier.label (predict text m))
                   (Classifier.proba (predict text m))).
Proof.
  intros Hm.
  destruct (ApiFacts.ask_ai_run embed similarity complete summarize no_results
              Model train predict LABELS payload w) as (ks1 & Hens & Hrun).
  rewrite Hrun. destruct (Nat.eqb _ 0).
  { simpl. split_and!.
    - exact Hm.
    - by exists [CallIsEmpty].
    - intros response c Hr. discriminate Hr. }
  destruct (respond payload _ _) as [r w'] eqn:Hresp.
  apply (respond_with_model _ _ _ m) in Hresp
    as (Hfile & (calls & Htrace & Hcalls) & Hclass); [|done].
  simpl in *. split_and!; [done| |done].
  eexists. rewrite Htrace, <- app_assoc. split; [done|]. simpl. done.
Qed.

End Facts.
End AskFacts.

(** ** Properties of the report and of the chat view *)

Module ReportFacts.
Import Report.

Section Facts.
Variable str_float : Qc → string.
Variable format_3f : jvalue → Py.result string.

Local Abbreviation part := (part str_float).
Local Abbreviation _format_location := (_format_location str_float).
Local Abbreviation chat_location := (chat_location str_float).
Local Abbreviation location_note := (location_note str_float).
Local Abbreviation hit_lines := (hit_lines str_float format_3f).
Local Abbreviation hits_lines := (hits_lines str_float format_3f).
Local Abbreviation report_lines := (report_lines str_float format_3f).

Local Abbreviation parts := (parts str_float).

Lemma format_location_parts hit :
  _format_location hit = String.concat ", " (parts hit).
Proof.
  unfold Report._format_location, Report.parts.
  by destruct (truthy (get hit "page")), (truthy (get hit "section")),
    (truthy (get hit "section_chunk")).
Qed.

Lemma chat_location_parts hit :
  chat_location hit =
    match parts hit with
    | [] => ""
    | _ => (" (" ++ String.concat ", " (parts hit) ++ ")")%string
    end.
Proof.
  unfold Report.chat_location, Report.parts.
  by destruct (truthy (get hit "page")), (truthy (get hit "section")),
    (truthy (get hit "section_chunk")).
Qed.

Lemma concat_not_empty sep (x : string) l :
  x ≠ "" → String.concat sep (x :: l) ≠ "".
Proof.
  intros Hx. destruct x as [|ch x]; [done|].
  simpl. by destruct l.
Qed.

Lemma parts_not_empty hit x l : parts hit = x :: l → x ≠ "".
Proof.
  unfold Report.parts, Report.part.
  destruct (truthy (get hit "page")), (truthy (get hit "section")),
    (truthy (get hit "section_chunk")); simpl; intros [= <- _]; done.
Qed.

(** X23. The location of a hit is empty exactly when none of [page],
    [section] and [section_chunk] is truthy: a field that is absent,
    [None], zero or the empty string is left out. *)
Theorem format_location_empty hit :
  _format_location hit = "" ↔
  truthy (get hit "page") = false ∧
  truthy (get hit "section") = false ∧
  truthy (get hit "section_chunk") = false.
Proof.
  rewrite format_location_parts. split.
  - destruct (parts hit) as [|x l] eqn:Hparts.
    + intros _. unfold Report.parts in Hparts.
      destruct (truthy (get hit "page")), (truthy (get hit "section")),
        (truthy (get hit "section_chunk")); done.
    + intros Hempty. apply parts_not_empty in Hparts.
      by apply (concat_not_empty ", " x l) in Hparts.
  - intros (Hp & Hs & Hc). unfold Report.parts. by rewrite Hp, Hs, Hc.
Qed.

(** X24. The chat view and the report show the same location for every
    hit. *)
Theorem chat_location_agrees hit : chat_location hit = location_note hit.
Proof.
  rewrite chat_location_parts. unfold Report.location_note.
  rewrite format_location_parts.
  destruct (parts hit) as [|x l] eqn:Hparts; [done|].
  apply parts_not_empty in Hparts.
  apply (concat_not_empty ", " x l) in Hparts.
  by apply String.eqb_neq in Hparts as ->.
Qed.


Local Abbreviation printable := (printable format_3f).

Lemma hit_lines_ok i hit two :
  hit_lines i hit = Ok two →
  printable hit ∧
  ∃ rest text,
    default (Some (VStr "")) (hit !! "text") = Some (VStr text) ∧
    two = [ (pretty i ++ ". **" ++ rest)%string;
            ("   > " ++ prefix 800 text)%string ].
Proof.
  unfold Report.hit_lines, Report.printable.
  destruct (format_3f _) as [score_text|e]; [|done].
  destruct (default (Some (VStr "")) (hit !! "text")) as [[text| |]|]; try done.
  intros [= <-]. split; [by eauto|]. eexists _, text. split; [done|].
  reflexivity.
Qed.

Lemma hit_lines_printable i hit :
  printable hit → ∃ two, hit_lines i hit = Ok two.
Proof.
  intros [[score_text Hscore] [text Htext]]. unfold Report.hit_lines.
  rewrite Hscore, Htext. eauto.
Qed.

Lemma hits_lines_ok i hits body :
  hits_lines i hits = Ok body →
  Forall printable hits ∧
  length body = (2 * length hits)%nat ∧
  ∀ j hit, hits !! j = Some hit →
    ∃ rest text,
      default (Some (VStr "")) (hit !! "text") = Some (VStr text) ∧
      body !! (2 * j)%nat = Some (pretty (i + j)%nat ++ ". **" ++ rest)%string ∧
      body !! (2 * j + 1)%nat = Some ("   > " ++ prefix 800 text)%string.
Proof.
  revert i body.
  induction hits as [|hit hits IH]; intros i body; simpl.
  - intros [= <-]. split_and!; [done|done|]. intros j hit Hj.
    by rewrite lookup_nil in Hj.
  - destruct (hit_lines i hit) as [two|e] eqn:Hhit; [|done].
    destruct (hits_lines (S i) hits) as [rest|e] eqn:Hrest; [|done].
    intros [= <-].
    apply hit_lines_ok in Hhit as (Hprint & r & text & Htext & ->).
    apply IH in Hrest as (Hall & Hlen & Hlines).
    split_and!.
    + by constructor.
    + simpl. rewrite Hlen. lia.
    + intros [|j] h Hj; simpl in Hj.
      * injection Hj as <-. exists r, text.
        replace (i + 0)%nat with i by lia.
        split_and!; [done|reflexivity|reflexivity].
      * destruct (Hlines j h Hj) as (r' & text' & Ht & H0 & H1).
        exists r', text'. split; [done|].
        replace (i + S j)%nat with (S i + j)%nat by lia.
        replace (S j + (S j + 0) + 1)%nat with (S (S (2 * j + 1))) by lia.
        replace (S j + (S j + 0))%nat with (S (S (2 * j))) by lia.
        split; [exact H0|exact H1].
Qed.

Lemma hits_lines_printable i hits :
  Forall printable hits → ∃ body, hits_lines i hits = Ok body.
Proof.
  intros Hall. revert i.
  induction Hall as [|hit hits Hhit _ IH]; intros i; simpl; [by eauto|].
  destruct (hit_lines_printable i hit Hhit) as [two ->].
  destruct (IH (S i)) as [rest ->]. eauto.
Qed.

Lemma prefix_length n s : (String.length (prefix n s) ≤ n)%nat.
Proof.
  unfold prefix.
  assert (∀ l, String.length (string_of_list_ascii l) = length l) as ->.
  { induction l as [|ch l IH]; simpl; [done|]. by rewrite IH. }
  rewrite length_take. lia.
Qed.

(** X25. [make_markdown_report] succeeds exactly when every hit is
    printable.  Its lines are then the ten of the header, two per hit and,
    for a recommendation that is not empty, three more; the first line of
    the hit at position [i] starts with its number [i + 1], the second is
    the quoted text of the hit cut after 800 characters. *)
Theorem report_lines_structure ts query answer hits rec :
  (Forall printable hits ↔
   ∃ lines, report_lines ts query answer hits rec = Ok lines) ∧
  ∀ lines, report_lines ts query answer hits rec = Ok lines →
    make_markdown_report str_float format_3f ts query answer hits rec
      = Ok (String.concat (String "010" "") lines) ∧
    length lines =
      (10 + 2 * length hits + (if String.eqb rec "" then 0 else 3))%nat ∧
    ∀ i hit, hits !! i = Some hit →
      ∃ rest text,
        default (Some (VStr "")) (hit !! "text") = Some (VStr text) ∧
        lines !! (10 + 2 * i)%nat
          = Some (pretty (S i) ++ ". **" ++ rest)%string ∧
        lines !! (11 + 2 * i)%nat = Some ("   > " ++ prefix 800 text)%string ∧
        (String.length (prefix 800 text) ≤ 800)%nat.
Proof.
  split.
  - unfold Report.report_lines. split.
    + intros Hall. destruct (hits_lines_printable 1 hits Hall) as [body ->].
      eauto.
    + intros [lines Hlines].
      destruct (hits_lines 1 hits) as [body|e] eqn:Hbody; [|done].
      by apply hits_lines_ok in Hbody as (Hall & _).
  - intros lines Hlines. split.
    { unfold Report.make_markdown_report. by rewrite Hlines. }
    unfold Report.report_lines in Hlines.
    destruct (hits_lines 1 hits) as [body|e] eqn:Hbody; [|done].
    apply hits_lines_ok in Hbody as (_ & Hlen & Hbody).
    injection Hlines as <-. split.
    + destruct (String.eqb rec ""); simpl; rewrite ?length_app, Hlen;
        simpl; lia.
    + intros i hit Hi.
      destruct (Hbody i hit Hi) as (rest & text & Htext & H0 & H1).
      exists rest, text. split; [done|].
      assert (∀ k x, body !! k = Some x →
                (if String.eqb rec ""
                 then ["# Rekomendasi Kebijakan - Laporan";
                       ("_Generated: " ++ ts ++ "_")%string; "";
                       "## Pertanyaan"; query; ""; "## Jawaban/Analisis";
                       answer; ""; "## Referensi Konteks"] ++ body
                 else (["# Rekomendasi Kebijakan - Laporan";
                        ("_Generated: " ++ ts ++ "_")%string; "";
                        "## Pertanyaan"; query; ""; "## Jawaban/Analisis";
                        answer; ""; "## Referensi Konteks"] ++ body)
                      ++ [""; "## Rekomendasi Sistem"; rec])
                  !! (10 + k)%nat = Some x) as Hat.
      { intros k x Hk. destruct (String.eqb rec "").
        - simpl. exact Hk.
        - rewrite lookup_app_l.
          + simpl. exact Hk.
          + apply lookup_lt_Some in Hk. simpl. lia. }
      split_and!.
      * apply Hat. exact H0.
      * replace (11 + 2 * i)%nat with (10 + (2 * i + 1))%nat by lia.
        apply Hat. exact H1.
      * apply prefix_length.
Qed.

End Facts.
End ReportFacts.

(** ** The further theorems at work on the concrete process *)

Module MoreWitnesses.
Import VectorIndex models schemas2 Server Routes Deployment.

Lemma sanitize_filename_fallback_witness :
  Filenames._sanitize_filename isalnum_other "../.." = "upload".
Proof.
  apply (FilenamesFacts.sanitize_filename_fallback isalnum_other "../..").
  repeat constructor; discriminate.
Defined.

(** A lifetime of half a second, asked for on a whole second, gives a
    token whose [exp] is that very second; one of [2^40] seconds is past
    the last [datetime]. *)
Lemma create_access_token_short_and_long :
  auth.create_access_token jwt_encode 120 7000000 "budi" (Some 500000)
    = Web.Val (jwt_encode (auth.mkTokenPayload (Some "budi") (Some 7))) ∧
  auth.create_access_token jwt_encode 120 7000000 "budi"
    (Some (2 ^ 40 * 1000000))
    = Web.Exc Web.OverflowError.
Proof. split; reflexivity. Qed.


Lemma upload_documents_rows_witness :
  ∃ results w' rows,
    upload_documents isalnum_other file_system uuid4_hex "uploads"
      Scenario.embed
      build_chunks [perda; perda] admin seeded = (Web.Val results, w') ∧
    Db.documents (db w') = Db.documents (db seeded) ++ rows ∧
    length results = 2%nat ∧
    length rows = 2%nat.
Proof.
  destruct (upload_documents isalnum_other file_system uuid4_hex "uploads"
      Scenario.embed
              build_chunks [perda; perda] admin seeded)
    as [[results|e] w'] eqn:Hrun; [|vm_compute in Hrun; discriminate].
  destruct (UploadFacts.upload_documents_rows isalnum_other file_system uuid4_hex
              "uploads" Scenario.embed build_chunks [perda; perda] admin
              seeded results w' Hrun)
    as (rows & Hdocs & _ & Hresults & Hrows & _).
  exists results, w', rows. done.
Defined.

Lemma upload_documents_index_total_witness :
  ∃ results w',
    upload_documents isalnum_other file_system uuid4_hex "uploads"
      Scenario.embed
      build_chunks [perda; perda] admin seeded = (Web.Val results, w') ∧
    Z.of_nat (size (KnowledgeStore.the_index (knowledge w'))) =
      Z.of_nat (size (KnowledgeStore.the_index (knowledge seeded)))
      + total_chunks results.
Proof.
  destruct (upload_documents isalnum_other file_system uuid4_hex "uploads"
      Scenario.embed
              build_chunks [perda; perda] admin seeded)
    as [[results|e] w'] eqn:Hrun; [|vm_compute in Hrun; discriminate].
  exists results, w'. split; [done|].
  exact (UploadFacts.upload_documents_index_total isalnum_other file_system
           uuid4_hex
           "uploads" Scenario.embed build_chunks [perda; perda] admin
           seeded results w' Hrun).
Defined.

Lemma upload_documents_failure_witness :
  ∃ e w' k file results wk,
    upload_documents isalnum_other file_system uuid4_hex "uploads"
      Scenario.embed build_chunks [perda; panjang; perda] admin seeded
      = (Web.Exc e, w') ∧
    [perda; panjang; perda] !! k = Some file ∧
    upload_loop isalnum_other file_system uuid4_hex "uploads" Scenario.embed
      build_chunks admin (take k [perda; panjang; perda]) [] seeded
      = (Web.Val results, wk) ∧
    length results = k ∧
    length (Db.documents (db w'))
      = (length (Db.documents (db seeded)) + k)%nat.
Proof.
  destruct (upload_documents isalnum_other file_system uuid4_hex "uploads"
              Scenario.embed build_chunks [perda; panjang; perda] admin seeded)
    as [[results|e] w'] eqn:Hrun; [vm_compute in Hrun; discriminate|].
  destruct (UploadFacts.upload_documents_failure isalnum_other file_system
              uuid4_hex "uploads" Scenario.embed build_chunks
              [perda; panjang; perda] admin seeded e w' Hrun)
    as [(Hnil & _)
       |(k & file & results & wk & Hfile & Hprefix & Hlen & Hrows & Hdb & _)];
    [discriminate|].
  exists e, w', k, file, results, wk.
  split_and!; [done|done|done|done|by rewrite Hdb].
Defined.

(** The upload of a file whose name is too long for the file system: the
    file before it is committed, the failing one leaves neither a file nor
    a row, the one after it is not reached. *)
Lemma upload_of_long_name :
  ∃ w',
    upload_documents isalnum_other file_system uuid4_hex "uploads"
      Scenario.embed build_chunks [perda; panjang; perda] admin seeded
      = (Web.Exc Web.OSError, w') ∧
    length (Db.documents (db w')) = 1%nat ∧
    uploads w' !! stored_name isalnum_other uuid4_hex (drawn seeded + 1) panjang
      = None ∧
    drawn w' = (drawn seeded + 2)%nat.
Proof. eexists. split_and!; vm_compute; reflexivity. Qed.

(** A request to an administrator's route with a signed token whose [exp]
    is null: the [TypeError] of the decoding reaches the caller. *)
Lemma admin_route_with_null_exp :
  admin_only jwt_decode (Some "null")
    (λ _, create_user hash_password
            (UserCreate.mk "citra" "citra@example.com" "rahasia" "user"))
    seeded
    = (Web.Exc (Web.Python TypeError), seeded).
Proof. vm_compute. reflexivity. Qed.

Lemma uuid4_hex_chars n ch :
  ch ∈ list_ascii_of_string (uuid4_hex n) → ch ≠ "/"%char ∧ ch ≠ "\"%char.
Proof.
  unfold uuid4_hex. rewrite list_ascii_of_string_of_list_ascii.
  intros [-> _]%elem_of_replicate. split; discriminate.
Qed.

Lemma stored_name_is_component_witness :
  stored_name isalnum_other uuid4_hex 7 (mkUploadFile (Some "../../etc/passwd") "")
    ≠ "" ∧
  ∀ ch, ch ∈ list_ascii_of_string
               (stored_name isalnum_other uuid4_hex 7
                  (mkUploadFile (Some "../../etc/passwd") "")) →
        ch ≠ "/"%char ∧ ch ≠ "\"%char.
Proof.
  apply (UploadFacts.stored_name_is_component isalnum_other uuid4_hex 7
           (mkUploadFile (Some "../../etc/passwd") "")).
  apply uuid4_hex_chars.
Defined.

Lemma add_file_grows_index_witness :
  Z.of_nat (size (KnowledgeStore.the_index Scenario.loaded)) =
    Z.of_nat (size (KnowledgeStore.the_index Scenario.fresh)) + 2 ∧
  KnowledgeStore.index_dir Scenario.loaded =
    save (KnowledgeStore.the_index Scenario.loaded).
Proof.
  destruct (PersistenceFacts.add_file_grows_index Scenario.embed
              Scenario.build_chunks "perda-1.pdf" "perda-1" Scenario.fresh
              (Ok 2) Scenario.loaded) as (Hsize & Hdir & _).
  - vm_compute. reflexivity.
  - split; [exact Hsize|]. apply Hdir. discriminate.
Defined.

Lemma restart_after_add_file_witness :
  KnowledgeStore.the_index (Persistence.restarted Scenario.loaded)
    = KnowledgeStore.the_index Scenario.loaded ∧
  ∀ query k,
    (KnowledgeStore.search Scenario.embed Scenario.similarity query k
       (Persistence.restarted Scenario.loaded)).1 =
    (KnowledgeStore.search Scenario.embed Scenario.similarity query k
       Scenario.loaded).1.
Proof.
  apply (PersistenceFacts.restart_after_add_file Scenario.embed
           Scenario.similarity Scenario.build_chunks Missing 2 []
           "perda-1.pdf" "perda-1" 2 Scenario.loaded).
  - vm_compute. reflexivity.
  - lia.
Defined.

Lemma persisted_model_reused_witness :
  Api.model_file _
    (Api.ask_ai Scenario.embed Scenario.similarity Scenario.complete_down
       Scenario.summarize "Tidak ada hasil." (list string) Scenario.train
       Scenario.predict Scenario.LABELS Scenario.payload world_trained).2
    = Some ["pajak"].
Proof.
  apply (AskFacts.persisted_model_reused Scenario.embed Scenario.similarity
           Scenario.complete_down Scenario.summarize "Tidak ada hasil."
           (list string) Scenario.train Scenario.predict Scenario.LABELS
           Scenario.payload world_trained ["pajak"]).
  reflexivity.
Defined.

End MoreWitnesses.
